(** * riverrun uploader: the identity-scoped admission engine

    A shallow embedding of [uploader/uploader.go] (package main of the
    uploader component) and the verification of its admission, escalation
    and audit behaviour.

    The embedding:
    - [GoInt]      Go's 64-bit [int] on [Z], wrap-around written out;
    - [GoStrings]  the [strings] and [path/filepath] functions the uploader
                   calls, on [string];
    - [Os]         the world the uploader runs in (file system, growing
                   log files, ledger table with a fault oracle, clock, call
                   trace) and the state monad [M] over it;
    - [Regexp]     the one regular expression of [parseSSHLogLine];
    - [GoFmt]      the one [fmt.Sscanf] of [calculateAudioDuration];
    - [Uploader]   the functions of uploader.go, in source order.

    The proofs:
    - [MFacts], [Footprint], [UploaderFootprint]  what a computation can
                   touch: ledger, files, kinds of calls;
    - [Ledger]     the table under the statements of the uploader;
    - [Evaluation] [processUpload] exit by exit, and invariants of the rows;
    - [Scenario]   concrete worlds;
    - [Admission], [Escalation], [AuditLog], [LogTail]  the theorems, by
                   the component they are about. *)

From Stdlib Require Import ZArith Ascii String List Bool Lia.
From stdpp Require Import base option list gmap strings.

Local Open Scope Z_scope.
Local Open Scope string_scope.

(* ===================================================================== *)
(** ** Go's [int] (64-bit on the platforms the Dockerfile targets)        *)
(* ===================================================================== *)

Module GoInt.

Definition intMin : Z := - 2 ^ 63.
Definition intMax : Z := 2 ^ 63 - 1.

(** Two's-complement reduction of a mathematical integer to [int]. *)
Definition wrap (z : Z) : Z := (z + 2 ^ 63) mod 2 ^ 64 - 2 ^ 63.

Definition in_range (z : Z) : Prop := intMin <= z <= intMax.

(** [a + b], [a++] and [a += b] on [int]. *)
Definition add (a b : Z) : Z := wrap (a + b).
Definition incr (a : Z) : Z := add a 1.

Lemma wrap_small z : in_range z -> wrap z = z.
Proof.
  unfold in_range, intMin, intMax, wrap. intros H.
  rewrite Z.mod_small; lia.
Qed.

Lemma add_0_r a : in_range a -> add a 0 = a.
Proof. intros H. unfold add. rewrite Z.add_0_r. by apply wrap_small. Qed.

Lemma incr_small a : intMin <= a < intMax -> incr a = a + 1.
Proof. intros H. apply wrap_small. unfold in_range. lia. Qed.

End GoInt.

(* ===================================================================== *)
(** ** [strings] and [path/filepath]                                      *)
(* ===================================================================== *)

Module GoStrings.

Definition isPathSeparator (c : ascii) : bool := Ascii.eqb c "/"%char.

(** ASCII lower-casing of one byte. *)
Definition lowerByte (c : ascii) : ascii :=
  let n := nat_of_ascii c in
  if (Nat.leb 65 n && Nat.leb n 90)%bool then ascii_of_nat (n + 32) else c.

(** [strings.EqualFold] on ASCII text: equality up to letter case. Bytes
    outside A-Z/a-z are compared as they are. *)
Fixpoint EqualFold (s t : string) : bool :=
  match s, t with
  | EmptyString, EmptyString => true
  | String a s', String b t' =>
      Ascii.eqb (lowerByte a) (lowerByte b) && EqualFold s' t'
  | _, _ => false
  end.

Fixpoint hasPrefix (p s : string) : bool :=
  match p, s with
  | EmptyString, _ => true
  | String a p', String b s' => Ascii.eqb a b && hasPrefix p' s'
  | String _ _, EmptyString => false
  end.

(** [strings.Contains s substr]. *)
Fixpoint Contains (s substr : string) : bool :=
  hasPrefix substr s ||
  match s with
  | EmptyString => false
  | String _ s' => Contains s' substr
  end.

(** [strings.Join elems sep]. *)
Fixpoint joinWith (sep : string) (l : list string) : string :=
  match l with
  | [] => ""
  | [x] => x
  | x :: rest => x ++ sep ++ joinWith sep rest
  end.

(** Split at every separator: [split "a//b" = ["a"; ""; "b"]]. *)
Fixpoint splitPath (s : string) : list string :=
  match s with
  | EmptyString => [""]
  | String c s' =>
      if isPathSeparator c then "" :: splitPath s'
      else match splitPath s' with
           | [] => [String c ""]
           | x :: rest => String c x :: rest
           end
  end.

(** The element stack of [filepath.Clean]: the elements kept so far, the
    last one first. *)
Fixpoint cleanElems (rooted : bool) (stack : list string) (elems : list string)
  : list string :=
  match elems with
  | [] => stack
  | e :: rest =>
      if String.eqb e "" || String.eqb e "." then cleanElems rooted stack rest
      else if String.eqb e ".." then
        match stack with
        | top :: below =>
            if String.eqb top ".." then cleanElems rooted (e :: stack) rest
            else cleanElems rooted below rest
        | [] =>
            if rooted then cleanElems rooted stack rest
            else cleanElems rooted [e] rest
        end
      else cleanElems rooted (e :: stack) rest
  end.

(** [filepath.Clean] on a Unix path. *)
Definition Clean (path : string) : string :=
  let rooted := hasPrefix "/" path in
  let body := joinWith "/" (rev (cleanElems rooted [] (splitPath path))) in
  let out := if rooted then "/" ++ body else body in
  if String.eqb out "" then "." else out.

(** [filepath.Join]: the elements from the first non-empty one on, joined
    with the separator and cleaned; the empty string when there is none. *)
Fixpoint Join (elem : list string) : string :=
  match elem with
  | [] => ""
  | e :: rest =>
      if String.eqb e "" then Join rest else Clean (joinWith "/" elem)
  end.

(** Scan of [filepath.Ext] from the end of the path, on the reversed path:
    [acc] is what has been passed over. *)
Fixpoint extRev (r : string) (acc : string) : string :=
  match r with
  | EmptyString => ""
  | String c r' =>
      if isPathSeparator c then ""
      else if Ascii.eqb c "."%char then String c acc
      else extRev r' (String c acc)
  end.

(** [filepath.Ext]: the suffix beginning at the final dot of the final
    element of the path; empty if there is no dot. *)
Definition Ext (path : string) : string := extRev (String.rev path) "".

Fixpoint dropSeparators (r : string) : string :=
  match r with
  | String c r' => if isPathSeparator c then dropSeparators r' else r
  | EmptyString => r
  end.

Fixpoint lastElemRev (r : string) (acc : string) : string :=
  match r with
  | EmptyString => acc
  | String c r' => if isPathSeparator c then acc else lastElemRev r' (String c acc)
  end.

(** [filepath.Base]. *)
Definition Base (path : string) : string :=
  if String.eqb path "" then "."
  else
    let r := dropSeparators (String.rev path) in
    let b := lastElemRev r "" in
    if String.eqb b "" then "/" else b.

Fixpoint dirPartRev (r : string) : string :=
  match r with
  | EmptyString => r
  | String c r' => if isPathSeparator c then r else dirPartRev r'
  end.

(** [filepath.Dir]. *)
Definition Dir (path : string) : string :=
  Clean (String.rev (dirPartRev (String.rev path))).

(** The text before the first occurrence of the byte [sep] and the text
    after it; [None] when [sep] does not occur. *)
Fixpoint cutAt (sep : ascii) (s : string) : option (string * string) :=
  match s with
  | EmptyString => None
  | String c s' =>
      if Ascii.eqb c sep then Some ("", s')
      else match cutAt sep s' with
           | Some (before, after) => Some (String c before, after)
           | None => None
           end
  end.

(** [strings.SplitN(s, sep, 2)] for a separator of one byte: at most two
    substrings, the second being the unsplit remainder. *)
Definition SplitN2 (s : string) (sep : ascii) : list string :=
  match cutAt sep s with
  | Some (before, after) => [before; after]
  | None => [s]
  end.

End GoStrings.

(* ===================================================================== *)
(** ** The world of the uploader process                                  *)
(* ===================================================================== *)

Module Os.

(** [time.Time], as seconds since the Unix epoch. The zero [time.Time] is
    January 1, year 1, 00:00:00 UTC. *)
Definition Time : Type := Z.
Definition zeroTime : Time := -62135596800.

(** What a regular file holds. Uploaded media are not stored byte by byte:
    a media file is its size in bytes and what [ffprobe] prints for its
    duration ([None] when ffprobe exits with an error on it). *)
Inductive Content : Type :=
| Text (data : string)
| Media (bytes : Z) (ffprobe_stdout : option string).

Inductive Node : Type :=
| Directory (st_size : Z)
| Regular (perm : N) (c : Content).

Definition contentSize (c : Content) : Z :=
  match c with
  | Text data => Z.of_nat (String.length data)
  | Media bytes _ => bytes
  end.

(** One row of table [user_stats] (the key column [user] is the map key).
    [last_upload] is the only nullable column the code ever leaves NULL. *)
Record Row : Type := mkRow {
  strikes : Z;
  timeouts : Z;
  daily_upload : Z;
  daily_airtime : Z;
  last_upload : option Time
}.

(** [INSERT INTO user_stats (user) VALUES (?)]: every counter takes its
    [DEFAULT 0], [last_upload] is NULL. *)
Definition defaultRow : Row := mkRow 0 0 0 0 None.

(** Calls that leave the process, in the order they are made. *)
Inductive Event : Type :=
| ESelect (user : string)
| EInsert (user : string)
| EUpdate (user : string) (r : Row)
| EDelete (user : string)
| EStat (path : string)
| EFfprobe (path : string)
| ERename (oldpath newpath : string)
| EWriteFile (path : string) (data : string)
| ELogPrintf (msg : string).

(** What one more read of a line-oriented file that another process
    appends to delivers: a complete line, or nothing for now (the reader
    is at end-of-file; what follows [Eof] is content appended later), or
    an error. *)
Inductive Read : Type :=
| Line (text : string)
| Eof
| ReadError.

Record World : Type := mkWorld {
  fs : gmap string Node;          (* the file system, by cleaned path *)
  feeds : gmap string (list Read);(* growing log files: their reads, in time order *)
  privileged : bool;              (* effective uid 0: permission bits are not checked *)
  db : gmap string Row;           (* table user_stats of userstats.db *)
  dbFaults : list bool;           (* for each coming statement: does the store fail it? *)
  now : Time;                     (* the wall clock *)
  trace : list Event
}.

Definition set_fs (f : gmap string Node) (w : World) : World :=
  mkWorld f (feeds w) (privileged w) (db w) (dbFaults w) (now w) (trace w).
Definition set_db (d : gmap string Row) (w : World) : World :=
  mkWorld (fs w) (feeds w) (privileged w) d (dbFaults w) (now w) (trace w).
Definition set_dbFaults (l : list bool) (w : World) : World :=
  mkWorld (fs w) (feeds w) (privileged w) (db w) l (now w) (trace w).
Definition set_now (t : Time) (w : World) : World :=
  mkWorld (fs w) (feeds w) (privileged w) (db w) (dbFaults w) t (trace w).
Definition emit (e : Event) (w : World) : World :=
  mkWorld (fs w) (feeds w) (privileged w) (db w) (dbFaults w) (now w) (trace w ++ [e]).

(** *** The state monad the uploader's functions live in *)

Definition M (A : Type) : Type := World -> A * World.

#[export] Instance M_ret : MRet M := fun A (a : A) (w : World) => (a, w).
#[export] Instance M_bind : MBind M :=
  fun A B (f : A -> M B) (m : M A) (w : World) =>
    match m w with (a, w') => f a w' end.

Definition run {A} (m : M A) (w : World) : World := snd (m w).
Definition result {A} (m : M A) (w : World) : A := fst (m w).

Definition state {A} (f : World -> A * World) : M A := f.
Definition modify (f : World -> World) : M unit := fun w => (tt, f w).
Definition gets {A} (f : World -> A) : M A := fun w => (f w, w).
Definition event (e : Event) : M unit := modify (emit e).

(** *** Clock and standard logger *)

(** [time.Now()]: the clock is read and moves on. *)
Definition timeNow : M Time :=
  state (fun w => (now w, set_now (now w + 1) w)).

(** [log.Printf]: a line on standard error. *)
Definition logPrintf (msg : string) : M unit := event (ELogPrintf msg).

(** *** File system calls *)

Definition isDirectory (f : gmap string Node) (path : string) : bool :=
  match f !! path with Some (Directory _) => true | _ => false end.

(** Owner write permission, which root does not need. *)
Definition mayWrite (w : World) (perm : N) : bool :=
  privileged w || N.testbit perm 7.

(** The size [os.Stat] reports for a path, if there is a file there. *)
Definition statSize (f : gmap string Node) (path : string) : option Z :=
  match f !! GoStrings.Clean path with
  | Some (Directory sz) => Some sz
  | Some (Regular _ c) => Some (contentSize c)
  | None => None
  end.

(** [os.Stat(path)] followed by [.Size()]. *)
Definition stat (path : string) : M (option Z) :=
  event (EStat path);;
  gets (fun w => statSize (fs w) path).

(** [os.ModeAppend]: a bit of [FileMode] above the nine permission bits. *)
Definition ModeAppend : N := N.shiftl 1 30.
Definition permBits (mode : N) : N := N.land mode 511.

(** [ioutil.WriteFile(filename, data, perm)]: the file is opened with
    [O_WRONLY|O_CREATE|O_TRUNC], so an existing file is emptied first and
    keeps its permissions; a new file gets the permission bits of [perm].
    Returns whether it succeeded. *)
Definition writeFile (filename data : string) (mode : N) : M bool :=
  event (EWriteFile filename data);;
  state (fun w =>
    let p := GoStrings.Clean filename in
    match fs w !! p with
    | Some (Directory _) => (false, w)
    | Some (Regular perm _) =>
        if mayWrite w perm
        then (true, set_fs (<[p := Regular perm (Text data)]> (fs w)) w)
        else (false, w)
    | None =>
        if isDirectory (fs w) (GoStrings.Dir p)
        then (true, set_fs (<[p := Regular (permBits mode) (Text data)]> (fs w)) w)
        else (false, w)
    end).

(** Can the regular file at [oldpath] be moved to [newpath]? Not when it is
    missing, when the directory of [newpath] does not exist or when
    [newpath] is a directory. Moves of directories are not modelled and
    count as failures. *)
Definition canRename (f : gmap string Node) (oldpath newpath : string) : bool :=
  match f !! GoStrings.Clean oldpath with
  | Some (Regular _ _) =>
      isDirectory f (GoStrings.Dir (GoStrings.Clean newpath))
      && negb (isDirectory f (GoStrings.Clean newpath))
  | _ => false
  end.

(** The file system after a move that can be made: a regular file at
    [newpath] is replaced. *)
Definition renamed (f : gmap string Node) (oldpath newpath : string) : gmap string Node :=
  match f !! GoStrings.Clean oldpath with
  | Some node => <[GoStrings.Clean newpath := node]> (delete (GoStrings.Clean oldpath) f)
  | None => f
  end.

(** [os.Rename(oldpath, newpath)]. Returns whether it succeeded. *)
Definition rename (oldpath newpath : string) : M bool :=
  event (ERename oldpath newpath);;
  state (fun w =>
    if canRename (fs w) oldpath newpath
    then (true, set_fs (renamed (fs w) oldpath newpath) w)
    else (false, w)).

(** What [ffprobe] prints for the file at a path, if it can probe it. *)
Definition probeOutput (f : gmap string Node) (path : string) : option string :=
  match f !! GoStrings.Clean path with
  | Some (Regular _ (Media _ out)) => out
  | _ => None
  end.

(** [ffprobe -i path -show_entries format=duration -v quiet -of csv=p=0]:
    its standard output, or [None] when the command fails. *)
Definition ffprobe (path : string) : M (option string) :=
  event (EFfprobe path);;
  gets (fun w => probeOutput (fs w) path).

(** [os.Open(name)] of a growing log file, for reading line by line: the
    reads to come, or [None] when the file cannot be opened. *)
Definition openFeed (name : string) : M (option (list Read)) :=
  gets (fun w => feeds w !! name).

(** *** The ledger store *)

(** Does the store fail the next statement? Consumes one oracle entry; a
    store with no entry left is healthy. *)
Definition dbFault : M bool :=
  state (fun w =>
    match dbFaults w with
    | [] => (false, w)
    | b :: rest => (b, set_dbFaults rest w)
    end).

(** [db.Exec] of a statement whose effect on the table is [f] ([None]: a
    constraint is violated). Returns whether the statement succeeded. *)
Definition dbExec (e : Event) (f : gmap string Row -> option (gmap string Row)) : M bool :=
  event e;;
  failed ← dbFault;
  if failed : bool then mret false
  else state (fun w =>
    match f (db w) with
    | Some d => (true, set_db d w)
    | None => (false, w)
    end).

(** What [row.Scan] of a one-row [SELECT] by key reports. *)
Inductive ScanResult : Type :=
| Scanned (r : Row)
| ErrNoRows
| ErrOther.

Definition dbQueryRow (user : string) : M ScanResult :=
  event (ESelect user);;
  failed ← dbFault;
  if failed : bool then mret ErrOther
  else gets (fun w =>
    match db w !! user with
    | Some r => Scanned r
    | None => ErrNoRows
    end).

End Os.

(* ===================================================================== *)
(** ** [regexp]: the pattern of [parseSSHLogLine]                         *)
(* ===================================================================== *)

Module Regexp.

(** The character classes the pattern uses. *)
Inductive Class : Type :=
| AnyChar      (* .     : any character but newline *)
| Space        (* \s    : [\t\n\f\r ] *)
| NonSpace     (* \S *)
| NotQuote.    (* [^'] *)

Definition isSpace (c : ascii) : bool :=
  let n := nat_of_ascii c in
  (Nat.eqb n 9 || Nat.eqb n 10 || Nat.eqb n 12 || Nat.eqb n 13 || Nat.eqb n 32)%bool.

Definition inClass (cl : Class) (c : ascii) : bool :=
  match cl with
  | AnyChar => negb (Nat.eqb (nat_of_ascii c) 10)
  | Space => isSpace c
  | NonSpace => negb (isSpace c)
  | NotQuote => negb (Ascii.eqb c "'"%char)
  end.

(** A pattern is a sequence of literals and greedy repetitions of a
    class, a repetition possibly being a capture group. *)
Inductive Atom : Type :=
| Lit (s : string)
| Rep (cl : Class) (atLeast : nat) (group : option nat).

Definition Captures : Type := list (nat * string).

Fixpoint dropString (n : nat) (s : string) : string :=
  match n, s with
  | O, _ => s
  | S n', String _ s' => dropString n' s'
  | S _, EmptyString => s
  end.

(** Greedy repetition with backtracking: take one more character when the
    rest of the pattern still matches after it, else stop here. [taken]
    is what the repetition has consumed, [n] its length. *)
Fixpoint rep {R} (cl : Class) (atLeast : nat) (k : string -> string -> option R)
    (n : nat) (taken : string) (s : string) : option R :=
  let stop := if Nat.leb atLeast n then k taken s else None in
  match s with
  | String c s' =>
      if inClass cl c then
        match rep cl atLeast k (S n) (taken ++ String c "") s' with
        | Some r => Some r
        | None => stop
        end
      else stop
  | EmptyString => stop
  end.

Definition capture (group : option nat) (taken : string) (caps : Captures) : Captures :=
  match group with
  | Some g => (g, taken) :: caps
  | None => caps
  end.

(** Match of the whole pattern at the start of [s]. *)
Fixpoint matchHere (atoms : list Atom) (caps : Captures) (s : string) : option Captures :=
  match atoms with
  | [] => Some caps
  | Lit l :: rest =>
      if GoStrings.hasPrefix l s
      then matchHere rest caps (dropString (String.length l) s)
      else None
  | Rep cl atLeast group :: rest =>
      rep cl atLeast (fun taken s' => matchHere rest (capture group taken caps) s') O "" s
  end.

(** Leftmost match anywhere in [s]. *)
Fixpoint search (atoms : list Atom) (s : string) : option Captures :=
  match matchHere atoms [] s with
  | Some caps => Some caps
  | None =>
      match s with
      | String _ s' => search atoms s'
      | EmptyString => None
      end
  end.

Fixpoint group (g : nat) (caps : Captures) : string :=
  match caps with
  | [] => ""
  | (g', v) :: rest => if Nat.eqb g g' then v else group g rest
  end.

End Regexp.

(* ===================================================================== *)
(** ** [fmt]: the one scan of [calculateAudioDuration]                    *)
(* ===================================================================== *)

Module GoFmt.

(** [fmt.Sscanf(str, "%f", &operand)] where [operand] is an [int]. The
    scanner checks the verb against the operand's type before it reads a
    digit: an integer operand accepts the verbs b, d, o, U, x, X and v, so
    [%f] stops the scan with the error "bad verb '%f' for integer" (or
    "unexpected EOF" on empty input), nothing is stored and the count of
    items scanned is 0. Returns the operand afterwards and whether the
    scan succeeded. *)
Definition Sscanf_f_int (str : string) (operand : Z) : Z * bool := (operand, false).

End GoFmt.

(* ===================================================================== *)
(** ** uploader.go                                                        *)
(* ===================================================================== *)

Module Uploader.
Import Os.

(** [Config.Uploader], as decoded from the TOML file. *)
Record Config : Type := mkConfig {
  MaxUserUploadSize : Z;
  AcceptedUploadFileTypes : list string;
  MaxUserAirtime : Z;
  SSHKeyDir : string;
  AccessLog : string;
  InboundDirectory : string;
  StorageDirectory : string;
  StrikesBeforeTimeOut : Z;
  TimeOutsBeforeBan : Z
}.

Record UserData : Type := mkUserData {
  Strikes : Z;
  Timeouts : Z;
  DailyUpload : Z;
  DailyAirtime : Z;
  LastUpload : Time
}.

(** [&UserData{}]. *)
Definition zeroUserData : UserData := mkUserData 0 0 0 0 zeroTime.

Definition set_Strikes (v : Z) (u : UserData) : UserData :=
  mkUserData v (Timeouts u) (DailyUpload u) (DailyAirtime u) (LastUpload u).
Definition set_Timeouts (v : Z) (u : UserData) : UserData :=
  mkUserData (Strikes u) v (DailyUpload u) (DailyAirtime u) (LastUpload u).
Definition set_DailyUpload (v : Z) (u : UserData) : UserData :=
  mkUserData (Strikes u) (Timeouts u) v (DailyAirtime u) (LastUpload u).
Definition set_DailyAirtime (v : Z) (u : UserData) : UserData :=
  mkUserData (Strikes u) (Timeouts u) (DailyUpload u) v (LastUpload u).
Definition set_LastUpload (v : Time) (u : UserData) : UserData :=
  mkUserData (Strikes u) (Timeouts u) (DailyUpload u) (DailyAirtime u) v.

(** [processUpload] returns nothing. Its embedding returns the [return]
    statement it leaves through, so that theorems can tell the exits
    apart: the four Admission Decisions ([Accepted] is the spec's decision
    to admit) and the five exits that drop the
    candidate after an error. *)
Inductive Outcome : Type :=
| DroppedCredential          (* fingerprintSSHKey failed *)
| DroppedLedger              (* getUserData failed *)
| RejectedUnsupportedType
| DroppedStat                (* calculateFileSize failed *)
| RejectedSizeQuota
| DroppedProbe               (* calculateAudioDuration failed *)
| RejectedAirtimeQuota
| MoveFailed                 (* os.Rename failed *)
| Accepted.

Definition isRejection (o : Outcome) : bool :=
  match o with
  | RejectedUnsupportedType | RejectedSizeQuota | RejectedAirtimeQuota => true
  | _ => false
  end.

(** How a process can leave a function that may call [log.Fatalf]. *)
Inductive Exit : Type :=
| Returned
| Fatal (msg : string).

Definition newline : string := String (ascii_of_nat 10) "".

Section WithConfig.

(** The package-level [config], set once by [loadConfig]. *)
Variable config : Config.

(** [time.Time.Format(time.RFC3339)]. *)
Variable formatRFC3339 : Time -> string.

(** [fingerprintSSHKey] is called by [processUpload] and defined in no
    file of the component: the fingerprint of the key at a path, or
    [None] for its error. *)
Variable fingerprintSSHKey : string -> option string.

Definition accessLogFile : string :=
  GoStrings.Join [AccessLog config; "access.log"].

(** [fmt.Sprintf("%s - %s: %s\n", ...)]. *)
Definition auditEntry (t : Time) (user action : string) : string :=
  formatRFC3339 t ++ " - " ++ user ++ ": " ++ action ++ newline.

Definition logAction (user action : string) : M unit :=
  let logFile := accessLogFile in
  t ← timeNow;
  let entry := auditEntry t user action in
  ok ← writeFile logFile entry ModeAppend;
  if ok : bool then mret tt else logPrintf "Failed to log action".

Definition checkFileType (fileName : string) : bool :=
  let ext := GoStrings.Ext fileName in
  existsb (fun allowedType => GoStrings.EqualFold ext allowedType)
          (AcceptedUploadFileTypes config).

(** The size in whole MB; [None] is the error of [os.Stat]. *)
Definition calculateFileSize (filePath : string) : M (option Z) :=
  r ← stat filePath;
  match r with
  | None => mret None
  | Some size => mret (Some (Z.quot size (1024 * 1024)))
  end.

Definition calculateAudioDuration (filePath : string) : M (option Z) :=
  r ← ffprobe filePath;
  match r with
  | None => mret None
  | Some out =>
      let duration := 0 in
      let duration := fst (GoFmt.Sscanf_f_int out duration) in
      mret (Some duration)
  end.

Definition userDataOfRow (r : Row) : UserData :=
  mkUserData (strikes r) (timeouts r) (daily_upload r) (daily_airtime r)
             (match last_upload r with Some t => t | None => zeroTime end).

(** [INSERT INTO user_stats (user) VALUES (?)]; [user] is the primary
    key. *)
Definition insertUser (user : string) (t : gmap string Row) : option (gmap string Row) :=
  match t !! user with
  | Some _ => None
  | None => Some (<[user := defaultRow]> t)
  end.

(** [None] is the error. *)
Definition getUserData (user : string) : M (option UserData) :=
  r ← dbQueryRow user;
  match r with
  | Scanned row => mret (Some (userDataOfRow row))
  | ErrNoRows =>
      ok ← dbExec (EInsert user) (insertUser user);
      if ok : bool then mret (Some zeroUserData) else mret None
  | ErrOther => mret None
  end.

Definition rowOfUserData (u : UserData) : Row :=
  mkRow (Strikes u) (Timeouts u) (DailyUpload u) (DailyAirtime u) (Some (LastUpload u)).

(** [UPDATE user_stats SET ... WHERE user = ?]: changes the row of
    [user] if there is one. *)
Definition updateUser (user : string) (r : Row) (t : gmap string Row) : option (gmap string Row) :=
  match t !! user with
  | Some _ => Some (<[user := r]> t)
  | None => Some t
  end.

(** Returns whether [err == nil]. *)
Definition updateUserData (user : string) (userData : UserData) : M bool :=
  dbExec (EUpdate user (rowOfUserData userData)) (updateUser user (rowOfUserData userData)).

Definition sshLogPattern : list Regexp.Atom :=
  [ Regexp.Lit "Accepted publickey for ";
    Regexp.Rep Regexp.NonSpace 1 None;
    Regexp.Rep Regexp.AnyChar 0 None;
    Regexp.Lit "SHA256:";
    Regexp.Rep Regexp.NonSpace 1 (Some 1%nat);
    Regexp.Rep Regexp.AnyChar 0 None;
    Regexp.Lit "scp:";
    Regexp.Rep Regexp.Space 1 None;
    Regexp.Lit "'";
    Regexp.Rep Regexp.NotQuote 1 (Some 2%nat);
    Regexp.Lit "'" ].

(** The fingerprint and the file path; [None] is the error. *)
Definition parseSSHLogLine (line : string) : option (string * string) :=
  match Regexp.search sshLogPattern line with
  | None => None
  | Some matches => Some (Regexp.group 1 matches, Regexp.group 2 matches)
  end.

Definition banUser (user : string) : M unit :=
  ok ← dbExec (EDelete user) (fun t => Some (delete user t));
  (if ok : bool then mret tt else logPrintf "Failed to delete user from database");;
  logAction user "User banned".

(** [userData] is a pointer in the source: the record as the function
    leaves it is returned. *)
Definition timeOutUser (user : string) (userData : UserData) : M UserData :=
  let userData := set_Timeouts (GoInt.incr (Timeouts userData)) userData in
  let userData := set_Strikes 0 userData in
  if Timeouts userData >=? TimeOutsBeforeBan config then
    banUser user;;
    mret userData
  else
    logAction user "User timed out";;
    updateUserData user userData;;
    mret userData.

Definition processUpload (sshKeyPath filePath : string) : M Outcome :=
  match fingerprintSSHKey sshKeyPath with
  | None =>
      logPrintf "Error calculating SSH key fingerprint";;
      mret DroppedCredential
  | Some fingerprint =>
  r ← getUserData fingerprint;
  match r with
  | None =>
      logPrintf "Error fetching user data";;
      mret DroppedLedger
  | Some userData =>
  if negb (checkFileType filePath) then
    let userData := set_Strikes (GoInt.incr (Strikes userData)) userData in
    logAction fingerprint "Attempted to upload unsupported file type";;
    userData ← (if Strikes userData >=? StrikesBeforeTimeOut config
                then timeOutUser fingerprint userData
                else mret userData);
    updateUserData fingerprint userData;;
    mret RejectedUnsupportedType
  else
  r ← calculateFileSize filePath;
  match r with
  | None =>
      logPrintf "Error calculating file size";;
      mret DroppedStat
  | Some fileSize =>
  if GoInt.add (DailyUpload userData) fileSize >? MaxUserUploadSize config then
    let userData := set_Strikes (GoInt.incr (Strikes userData)) userData in
    logAction fingerprint "Exceeded daily upload size limit";;
    userData ← (if Strikes userData >=? StrikesBeforeTimeOut config
                then timeOutUser fingerprint userData
                else mret userData);
    updateUserData fingerprint userData;;
    mret RejectedSizeQuota
  else
  r ← calculateAudioDuration filePath;
  match r with
  | None =>
      logPrintf "Error calculating audio duration";;
      mret DroppedProbe
  | Some duration =>
  if GoInt.add (DailyAirtime userData) duration >? MaxUserAirtime config then
    let userData := set_Strikes (GoInt.incr (Strikes userData)) userData in
    logAction fingerprint "Exceeded daily airtime limit";;
    userData ← (if Strikes userData >=? StrikesBeforeTimeOut config
                then timeOutUser fingerprint userData
                else mret userData);
    updateUserData fingerprint userData;;
    mret RejectedAirtimeQuota
  else
  let userData := set_DailyUpload (GoInt.add (DailyUpload userData) fileSize) userData in
  let userData := set_DailyAirtime (GoInt.add (DailyAirtime userData) duration) userData in
  t ← timeNow;
  let userData := set_LastUpload t userData in
  let destPath := GoStrings.Join [StorageDirectory config; GoStrings.Base filePath] in
  ok ← rename filePath destPath;
  if ok : bool then
    logAction fingerprint "File uploaded successfully";;
    updateUserData fingerprint userData;;
    mret Accepted
  else
    logPrintf "Error moving file to storage directory";;
    mret MoveFailed
  end end end end.

(** Not a function of the source: the statements the three rejection
    branches of [processUpload] repeat, which differ in the message only.
    The proofs treat the three branches through it. *)
Definition reject (fingerprint : string) (userData : UserData) (message : string) : M unit :=
  let userData := set_Strikes (GoInt.incr (Strikes userData)) userData in
  logAction fingerprint message;;
  userData ← (if Strikes userData >=? StrikesBeforeTimeOut config
              then timeOutUser fingerprint userData
              else mret userData);
  updateUserData fingerprint userData;;
  mret tt.

(** The body of the scanner loop of [monitorSSHLogs], for one line. *)
Definition handleLogLine (line : string) : M unit :=
  if GoStrings.Contains line "scp" && GoStrings.Contains line "Accepted publickey" then
    match parseSSHLogLine line with
    | None => logPrintf "Failed to parse log line"
    | Some (fingerprint, filePath) =>
        processUpload (GoStrings.Join [SSHKeyDir config; fingerprint]) filePath;;
        mret tt
    end
  else mret tt.

(** [for scanner.Scan() { ... }] and the check of [scanner.Err()] after
    it: [Scan] returns false at the first end-of-file or error, and the
    loop is left for good. *)
Fixpoint scanLines (reads : list Read) : M unit :=
  match reads with
  | Line line :: rest => handleLogLine line;; scanLines rest
  | Eof :: _ => mret tt
  | ReadError :: _ => logPrintf "Error reading SSH log file"
  | [] => mret tt
  end.

Definition monitorSSHLogs (logFile : string) : M Exit :=
  r ← openFeed logFile;
  match r with
  | None => mret (Fatal "Failed to open SSH log file")
  | Some reads => scanLines reads;; mret Returned
  end.

(** The body of the loop of [main] over standard input, for one line. *)
Definition handleStdinLine (line : string) : M unit :=
  let parts := GoStrings.SplitN2 line " "%char in
  match parts with
  | [sshKeyPath; filePath] => processUpload sshKeyPath filePath;; mret tt
  | _ => mret tt
  end.

(** The loop of [main] over standard input and the check of
    [scanner.Err()] after it. What [main] does before the loop (the
    argument check, [loadConfig], [initDatabase], the start of the two
    goroutines) is not part of it. *)
Fixpoint mainLoop (reads : list Read) : M unit :=
  match reads with
  | Line line :: rest => handleStdinLine line;; mainLoop rest
  | Eof :: _ => mret tt
  | ReadError :: _ => logPrintf "Error reading input"
  | [] => mret tt
  end.

End WithConfig.

End Uploader.

(* ===================================================================== *)
(** ** Reasoning about computations in [M]                                *)
(* ===================================================================== *)

Module MFacts.
Import Os.
Local Open Scope list_scope.

Lemma run_bind {A B} (m : M A) (f : A -> M B) w :
  run (m ≫= f) w = run (f (result m w)) (run m w).
Proof. unfold run, result, mbind, M_bind. by destruct (m w). Qed.

Lemma result_bind {A B} (m : M A) (f : A -> M B) w :
  result (m ≫= f) w = result (f (result m w)) (run m w).
Proof. unfold run, result, mbind, M_bind. by destruct (m w). Qed.

Lemma run_ret {A} (a : A) w : run (mret a) w = w.
Proof. reflexivity. Qed.

Lemma result_ret {A} (a : A) w : result (mret a) w = a.
Proof. reflexivity. Qed.

Lemma run_event e w : run (event e) w = emit e w.
Proof. reflexivity. Qed.

Lemma run_logPrintf msg w : run (logPrintf msg) w = emit (ELogPrintf msg) w.
Proof. reflexivity. Qed.

(** The events a computation adds to the trace of the world it starts in. *)
Definition since (w w' : World) : list Event := drop (List.length (trace w)) (trace w').

(** [w'] comes after [w]: the trace has only grown. *)
Definition extends (w w' : World) : Prop := trace w' = trace w ++ since w w'.

Lemma since_app w w' evs : trace w' = trace w ++ evs -> since w w' = evs.
Proof. intros H. unfold since. rewrite H. by rewrite drop_app_length. Qed.

Lemma extends_intro w w' evs : trace w' = trace w ++ evs -> extends w w'.
Proof. intros H. unfold extends. by rewrite (since_app _ _ _ H). Qed.

Lemma extends_refl w : extends w w.
Proof. apply (extends_intro w w []). by rewrite app_nil_r. Qed.

Lemma since_refl w : since w w = [].
Proof. apply since_app. by rewrite app_nil_r. Qed.

Lemma extends_trans w1 w2 w3 :
  extends w1 w2 -> extends w2 w3 ->
  extends w1 w3 /\ since w1 w3 = since w1 w2 ++ since w2 w3.
Proof.
  unfold extends. intros H12 H23.
  assert (H : trace w3 = trace w1 ++ (since w1 w2 ++ since w2 w3)).
  { rewrite H23 at 1. rewrite H12 at 1. by rewrite <- app_assoc. }
  split; [by apply (extends_intro _ _ _ H) | by apply since_app].
Qed.

Lemma extends_emit e w : extends w (emit e w) /\ since w (emit e w) = [e].
Proof.
  assert (H : trace (emit e w) = trace w ++ [e]) by reflexivity.
  split; [by apply (extends_intro _ _ _ H) | by apply since_app].
Qed.

(** A step: the trace grows by events that all satisfy [phi]. *)
Definition emits (phi : Event -> Prop) (w w' : World) : Prop :=
  extends w w' /\ Forall phi (since w w').

Lemma emits_refl phi w : emits phi w w.
Proof. split; [apply extends_refl | rewrite since_refl; constructor]. Qed.

Lemma emits_trans phi w1 w2 w3 : emits phi w1 w2 -> emits phi w2 w3 -> emits phi w1 w3.
Proof.
  intros [E12 F12] [E23 F23]. destruct (extends_trans _ _ _ E12 E23) as [E13 S13].
  split; [done |]. rewrite S13. by apply Forall_app.
Qed.

Lemma emits_emit (phi : Event -> Prop) e w : phi e -> emits phi w (emit e w).
Proof.
  intros H. destruct (extends_emit e w) as [E S]. split; [done |].
  rewrite S. by repeat constructor.
Qed.

Lemma emits_same_trace phi w w' : trace w' = trace w -> emits phi w w'.
Proof.
  intros H. assert (H' : trace w' = trace w ++ []) by (by rewrite app_nil_r).
  split; [by apply (extends_intro _ _ _ H') |].
  rewrite (since_app _ _ _ H'). constructor.
Qed.

Lemma emits_weaken (phi psi : Event -> Prop) w w' :
  (forall e, phi e -> psi e) -> emits phi w w' -> emits psi w w'.
Proof. intros H [E F]. split; [done |]. eapply Forall_impl; eauto. Qed.

End MFacts.

(* ===================================================================== *)
(** ** Footprints: what a computation can touch                           *)
(* ===================================================================== *)

Module Footprint.
Import Os MFacts.
Local Open Scope list_scope.

(** The kind of call an event records. *)
Inductive Kind : Type :=
| KSelect | KInsert | KUpdate | KDelete
| KStat | KFfprobe | KRename | KWriteFile | KPrintf.

Definition kind (e : Event) : Kind :=
  match e with
  | ESelect _ => KSelect
  | EInsert _ => KInsert
  | EUpdate _ _ => KUpdate
  | EDelete _ => KDelete
  | EStat _ => KStat
  | EFfprobe _ => KFfprobe
  | ERename _ _ => KRename
  | EWriteFile _ _ => KWriteFile
  | ELogPrintf _ => KPrintf
  end.

(** [m] relates every world to the world it leaves behind. *)
Definition preserves {A} (R : relation World) (m : M A) : Prop :=
  forall w, R w (run m w).

Section Rules.
Context (R : relation World) `{!PreOrder R}.

Lemma preserves_ret {A} (a : A) : preserves R (mret a).
Proof. intros w. rewrite run_ret. reflexivity. Qed.

Lemma preserves_bind {A B} (m : M A) (f : A -> M B) :
  preserves R m -> (forall a, preserves R (f a)) -> preserves R (m ≫= f).
Proof.
  intros Hm Hf w. rewrite run_bind.
  transitivity (run m w); [apply Hm | apply Hf].
Qed.

Lemma preserves_gets {A} (f : World -> A) : preserves R (gets f).
Proof. intros w. reflexivity. Qed.
End Rules.

(** *** The three footprints *)

(** The table and the fault oracle are untouched. *)
Definition sameLedger (w w' : World) : Prop :=
  db w' = db w /\ dbFaults w' = dbFaults w.

(** Only files at paths in [touched] change. *)
Definition sameFilesBut (touched : string -> Prop) (w w' : World) : Prop :=
  forall p, ~ touched p -> fs w' !! p = fs w !! p.

(** Only calls of the kinds [ok] are made. *)
Definition calls (ok : Kind -> bool) (w w' : World) : Prop :=
  emits (fun e => ok (kind e) = true) w w'.

#[export] Instance sameLedger_preorder : PreOrder sameLedger.
Proof.
  split.
  - by intros w.
  - intros w1 w2 w3 [H1 H2] [H3 H4]. split; congruence.
Qed.

#[export] Instance sameFilesBut_preorder touched : PreOrder (sameFilesBut touched).
Proof.
  split.
  - by intros w p _.
  - intros w1 w2 w3 H12 H23 p Hp. rewrite (H23 p Hp). by apply H12.
Qed.

#[export] Instance calls_preorder ok : PreOrder (calls ok).
Proof.
  split.
  - intros w. apply emits_refl.
  - intros w1 w2 w3. apply emits_trans.
Qed.

Lemma sameLedger_db {A} (m : M A) w : preserves sameLedger m -> db (run m w) = db w.
Proof. intros H. apply H. Qed.

(** *** Footprints of the system calls *)

Lemma calls_event ok e : ok (kind e) = true -> preserves (calls ok) (event e).
Proof. intros H w. rewrite run_event. by apply emits_emit. Qed.

Lemma calls_silent ok {A} (m : M A) :
  (forall w, trace (run m w) = trace w) -> preserves (calls ok) m.
Proof. intros H w. apply emits_same_trace, H. Qed.

Lemma sameLedger_event e : preserves sameLedger (event e).
Proof. by intros w. Qed.

Lemma sameFiles_event touched e : preserves (sameFilesBut touched) (event e).
Proof. by intros w p _. Qed.

Lemma sameLedger_timeNow : preserves sameLedger timeNow.
Proof. by intros w. Qed.

Lemma sameFiles_timeNow touched : preserves (sameFilesBut touched) timeNow.
Proof. by intros w p _. Qed.

Lemma calls_timeNow ok : preserves (calls ok) timeNow.
Proof. by apply calls_silent. Qed.

Lemma sameLedger_stat path : preserves sameLedger (stat path).
Proof. by intros w. Qed.

Lemma sameFiles_stat touched path : preserves (sameFilesBut touched) (stat path).
Proof. by intros w p _. Qed.

Lemma calls_stat ok path : ok KStat = true -> preserves (calls ok) (stat path).
Proof.
  intros H. unfold stat. apply preserves_bind; [apply _ | by apply calls_event |].
  intros _. apply preserves_gets, _.
Qed.

Lemma sameLedger_ffprobe path : preserves sameLedger (ffprobe path).
Proof. by intros w. Qed.

Lemma sameFiles_ffprobe touched path : preserves (sameFilesBut touched) (ffprobe path).
Proof. by intros w p _. Qed.

Lemma calls_ffprobe ok path : ok KFfprobe = true -> preserves (calls ok) (ffprobe path).
Proof.
  intros H. unfold ffprobe. apply preserves_bind; [apply _ | by apply calls_event |].
  intros _. apply preserves_gets, _.
Qed.

Lemma sameLedger_writeFile filename data mode :
  preserves sameLedger (writeFile filename data mode).
Proof.
  intros w. unfold writeFile, run, mbind, M_bind, event, modify, state. simpl.
  repeat case_match; simplify_eq; by split.
Qed.

Lemma sameFiles_writeFile (touched : string -> Prop) filename data mode :
  touched (GoStrings.Clean filename) ->
  preserves (sameFilesBut touched) (writeFile filename data mode).
Proof.
  intros Ht w p Hp. unfold writeFile, run, mbind, M_bind, event, modify, state. simpl.
  assert (GoStrings.Clean filename <> p) by congruence.
  repeat case_match; simplify_eq; simpl; by rewrite ?lookup_insert_ne.
Qed.

Lemma calls_writeFile ok filename data mode :
  ok KWriteFile = true -> preserves (calls ok) (writeFile filename data mode).
Proof.
  intros H. unfold writeFile. apply preserves_bind; [apply _ | by apply calls_event |].
  intros _. apply calls_silent. intros w. unfold run, state.
  repeat case_match; simplify_eq; done.
Qed.

Lemma sameLedger_rename o n : preserves sameLedger (rename o n).
Proof.
  intros w. unfold rename, run, mbind, M_bind, event, modify, state. simpl.
  repeat case_match; simplify_eq; by split.
Qed.

Lemma calls_rename ok o n : ok KRename = true -> preserves (calls ok) (rename o n).
Proof.
  intros H. unfold rename. apply preserves_bind; [apply _ | by apply calls_event |].
  intros _. apply calls_silent. intros w. unfold run, state.
  repeat case_match; simplify_eq; done.
Qed.

Lemma rename_result o n w : result (rename o n) w = canRename (fs w) o n.
Proof.
  unfold rename, run, result, mbind, M_bind, event, modify, state. simpl.
  by case_match.
Qed.

(** A move that fails changes no file. *)
Lemma rename_failed o n w : result (rename o n) w = false -> fs (run (rename o n) w) = fs w.
Proof.
  unfold rename, run, result, mbind, M_bind, event, modify, state. simpl.
  by case_match.
Qed.

Lemma calls_dbFault ok : preserves (calls ok) dbFault.
Proof. apply calls_silent. intros w. unfold dbFault, run, state. by case_match. Qed.

Lemma sameFiles_dbExec touched e f : preserves (sameFilesBut touched) (dbExec e f).
Proof.
  intros w p _. unfold dbExec, dbFault, run, mbind, M_bind, event, modify, state. simpl.
  repeat case_match; simplify_eq; done.
Qed.

Lemma calls_dbExec ok e f : ok (kind e) = true -> preserves (calls ok) (dbExec e f).
Proof.
  intros H. unfold dbExec. apply preserves_bind; [apply _ | by apply calls_event |].
  intros _. apply preserves_bind; [apply _ | apply calls_dbFault |].
  intros []; [by apply preserves_ret, _ |].
  apply calls_silent. intros w. unfold run, state. by case_match.
Qed.

(** What the [UPDATE] statements issued carry: every row written
    satisfies [Q]. *)
Definition writesOnly (Q : string -> Row -> Prop) (e : Event) : Prop :=
  match e with
  | EUpdate user r => Q user r
  | _ => True
  end.

Definition writes (Q : string -> Row -> Prop) (w w' : World) : Prop :=
  emits (writesOnly Q) w w'.

#[export] Instance writes_preorder Q : PreOrder (writes Q).
Proof.
  split.
  - intros w. apply emits_refl.
  - intros w1 w2 w3. apply emits_trans.
Qed.

Definition noUpdate (k : Kind) : bool :=
  match k with
  | KUpdate => false
  | _ => true
  end.

Lemma writes_no_update Q w w' : calls noUpdate w w' -> writes Q w w'.
Proof.
  apply emits_weaken. intros e He. by destruct e.
Qed.

Lemma writes_dbExec Q e f : writesOnly Q e -> preserves (writes Q) (dbExec e f).
Proof.
  intros He. unfold dbExec. apply preserves_bind; [apply _ | |].
  - intros w. rewrite run_event. by apply emits_emit.
  - intros _. apply preserves_bind; [apply _ | |].
    + intros w. apply emits_same_trace. unfold dbFault, run, state. by case_match.
    + intros []; [by apply preserves_ret, _ |].
      intros w. apply emits_same_trace. unfold run, state. by case_match.
Qed.

Lemma sameFiles_dbQueryRow touched user : preserves (sameFilesBut touched) (dbQueryRow user).
Proof.
  intros w p _. unfold dbQueryRow, dbFault, run, mbind, M_bind, event, modify, state. simpl.
  repeat case_match; simplify_eq; done.
Qed.

Lemma calls_dbQueryRow ok user : ok KSelect = true -> preserves (calls ok) (dbQueryRow user).
Proof.
  intros H. unfold dbQueryRow. apply preserves_bind; [apply _ | by apply calls_event |].
  intros _. apply preserves_bind; [apply _ | apply calls_dbFault |].
  intros []; [by apply preserves_ret, _ | apply preserves_gets, _].
Qed.

End Footprint.

(* ===================================================================== *)
(** ** Footprints of the uploader's functions                             *)
(* ===================================================================== *)

Module UploaderFootprint.
Import Os MFacts Footprint Uploader.
Local Open Scope list_scope.

Ltac side := first [assumption | reflexivity | done].

Create HintDb footprint.

(** One step of a footprint proof: close a leaf with the lemma of its
    call, split a bind, or branch where the computation branches. *)
Ltac footstep :=
  first
    [ solve [auto 2 with footprint]
    | apply preserves_ret; apply _
    | apply preserves_gets; apply _
    | apply sameLedger_event | apply sameLedger_timeNow | apply sameLedger_stat
    | apply sameLedger_ffprobe | apply sameLedger_writeFile | apply sameLedger_rename
    | apply sameFiles_event | apply sameFiles_timeNow | apply sameFiles_stat
    | apply sameFiles_ffprobe | apply sameFiles_dbExec | apply sameFiles_dbQueryRow
    | apply sameFiles_writeFile; side
    | apply calls_event; side | apply calls_timeNow | apply calls_stat; side
    | apply calls_ffprobe; side | apply calls_writeFile; side | apply calls_rename; side
    | apply calls_dbExec; side | apply calls_dbQueryRow; side
    | match goal with
      | |- preserves _ (if ?b then _ else _) => destruct b
      | |- preserves _ (match ?x with _ => _ end) => destruct x
      end
    | apply preserves_bind; [apply _ | | intros ?] ].

Ltac footprint := repeat footstep.

Section WithConfig.
Variable config : Config.
Variable formatRFC3339 : Time -> string.
Variable fingerprintSSHKey : string -> option string.

Abbreviation logAction := (logAction config formatRFC3339).
Abbreviation banUser := (banUser config formatRFC3339).
Abbreviation timeOutUser := (timeOutUser config formatRFC3339).
Abbreviation reject := (reject config formatRFC3339).
Abbreviation processUpload := (processUpload config formatRFC3339 fingerprintSSHKey).

(** The path the audit log is written at. *)
Definition auditPath : string := GoStrings.Clean (accessLogFile config).
Definition isAuditPath (p : string) : Prop := p = auditPath.

Lemma sameLedger_logAction user action : preserves sameLedger (logAction user action).
Proof. unfold Uploader.logAction, logPrintf. footprint. Qed.
#[local] Hint Resolve sameLedger_logAction : footprint.

Lemma sameFiles_logAction user action :
  preserves (sameFilesBut isAuditPath) (logAction user action).
Proof. unfold Uploader.logAction, logPrintf. footprint. Qed.
#[local] Hint Resolve sameFiles_logAction : footprint.

Lemma calls_logAction ok user action :
  ok KWriteFile = true -> ok KPrintf = true ->
  preserves (calls ok) (logAction user action).
Proof. intros. unfold Uploader.logAction, logPrintf. footprint. Qed.
#[local] Hint Resolve calls_logAction : footprint.

Lemma sameLedger_calculateFileSize path : preserves sameLedger (calculateFileSize path).
Proof. unfold calculateFileSize. footprint. Qed.
#[local] Hint Resolve sameLedger_calculateFileSize : footprint.

Lemma sameFiles_calculateFileSize touched path :
  preserves (sameFilesBut touched) (calculateFileSize path).
Proof. unfold calculateFileSize. footprint. Qed.
#[local] Hint Resolve sameFiles_calculateFileSize : footprint.

Lemma calls_calculateFileSize ok path :
  ok KStat = true -> preserves (calls ok) (calculateFileSize path).
Proof. intros. unfold calculateFileSize. footprint. Qed.
#[local] Hint Resolve calls_calculateFileSize : footprint.

Lemma sameLedger_calculateAudioDuration path :
  preserves sameLedger (calculateAudioDuration path).
Proof. unfold calculateAudioDuration. footprint. Qed.
#[local] Hint Resolve sameLedger_calculateAudioDuration : footprint.

Lemma sameFiles_calculateAudioDuration touched path :
  preserves (sameFilesBut touched) (calculateAudioDuration path).
Proof. unfold calculateAudioDuration. footprint. Qed.
#[local] Hint Resolve sameFiles_calculateAudioDuration : footprint.

Lemma calls_calculateAudioDuration ok path :
  ok KFfprobe = true -> preserves (calls ok) (calculateAudioDuration path).
Proof. intros. unfold calculateAudioDuration. footprint. Qed.
#[local] Hint Resolve calls_calculateAudioDuration : footprint.

Lemma sameFiles_getUserData touched user :
  preserves (sameFilesBut touched) (getUserData user).
Proof. unfold getUserData. footprint. Qed.
#[local] Hint Resolve sameFiles_getUserData : footprint.

Lemma calls_getUserData ok user :
  ok KSelect = true -> ok KInsert = true -> preserves (calls ok) (getUserData user).
Proof. intros. unfold getUserData. footprint. Qed.
#[local] Hint Resolve calls_getUserData : footprint.

Lemma sameFiles_updateUserData touched user u :
  preserves (sameFilesBut touched) (updateUserData user u).
Proof. unfold updateUserData. footprint. Qed.
#[local] Hint Resolve sameFiles_updateUserData : footprint.

Lemma calls_updateUserData ok user u :
  ok KUpdate = true -> preserves (calls ok) (updateUserData user u).
Proof. intros. unfold updateUserData. footprint. Qed.
#[local] Hint Resolve calls_updateUserData : footprint.

Lemma sameFiles_banUser user : preserves (sameFilesBut isAuditPath) (banUser user).
Proof. unfold Uploader.banUser, logPrintf. footprint. Qed.
#[local] Hint Resolve sameFiles_banUser : footprint.

Lemma calls_banUser ok user :
  ok KDelete = true -> ok KWriteFile = true -> ok KPrintf = true ->
  preserves (calls ok) (banUser user).
Proof. intros. unfold Uploader.banUser, logPrintf. footprint. Qed.
#[local] Hint Resolve calls_banUser : footprint.

Lemma sameFiles_timeOutUser user u :
  preserves (sameFilesBut isAuditPath) (timeOutUser user u).
Proof. unfold Uploader.timeOutUser. footprint. Qed.
#[local] Hint Resolve sameFiles_timeOutUser : footprint.

Lemma calls_timeOutUser ok user u :
  ok KDelete = true -> ok KUpdate = true -> ok KWriteFile = true -> ok KPrintf = true ->
  preserves (calls ok) (timeOutUser user u).
Proof. intros. unfold Uploader.timeOutUser. footprint. Qed.
#[local] Hint Resolve calls_timeOutUser : footprint.

Lemma sameFiles_reject user u message :
  preserves (sameFilesBut isAuditPath) (reject user u message).
Proof. unfold Uploader.reject. footprint. Qed.
#[local] Hint Resolve sameFiles_reject : footprint.

Lemma calls_reject ok user u message :
  ok KDelete = true -> ok KUpdate = true -> ok KWriteFile = true -> ok KPrintf = true ->
  preserves (calls ok) (reject user u message).
Proof. intros. unfold Uploader.reject. footprint. Qed.
#[local] Hint Resolve calls_reject : footprint.

End WithConfig.

End UploaderFootprint.

(* ===================================================================== *)
(** ** The ledger table under the store's statements                      *)
(* ===================================================================== *)

Module Ledger.
Import Os MFacts Footprint Uploader.
Local Open Scope list_scope.

(** The store fails no statement from here on. *)
Definition healthy (w : World) : Prop := dbFaults w = [].

(** The row of an identity as lookup-or-insert loads it: the stored row,
    or the default row for an identity not seen before. *)
Definition ledgerRow (t : gmap string Row) (user : string) : Row :=
  default defaultRow (t !! user).

(** Invariants of the table are stated with [map_Forall Q]: every row
    satisfies [Q], which may depend on the identity. *)

(** *** [db.Exec] and [db.QueryRow] *)

(** A statement leaves the table as it was, or as its effect says. *)
Lemma dbExec_db e f w :
  db (run (dbExec e f) w) = db w \/ f (db w) = Some (db (run (dbExec e f) w)).
Proof.
  unfold dbExec, dbFault, run, mbind, M_bind, event, modify, state. simpl.
  repeat case_match; simplify_eq; simpl; auto.
Qed.

Lemma dbExec_healthy e f w :
  healthy w ->
  healthy (run (dbExec e f) w) /\
  db (run (dbExec e f) w) = default (db w) (f (db w)) /\
  result (dbExec e f) w = bool_decide (is_Some (f (db w))).
Proof.
  unfold healthy, dbExec, dbFault, run, result, mbind, M_bind, event, modify, state.
  simpl. intros Hw. rewrite Hw.
  destruct (f (db w)) eqn:Hf; simpl; rewrite ?Hf; simpl; done.
Qed.

Lemma dbQueryRow_db user w : db (run (dbQueryRow user) w) = db w.
Proof.
  unfold dbQueryRow, dbFault, run, mbind, M_bind, event, modify, gets, state. simpl.
  repeat case_match; simplify_eq; done.
Qed.

Lemma dbQueryRow_result user w :
  match result (dbQueryRow user) w with
  | Scanned r => db w !! user = Some r
  | ErrNoRows => db w !! user = None
  | ErrOther => True
  end.
Proof.
  unfold dbQueryRow, dbFault, run, result, mbind, M_bind, event, modify, gets, state.
  simpl. repeat case_match; simplify_eq; simpl in *; simplify_eq; done.
Qed.

Lemma dbQueryRow_healthy user w :
  healthy w ->
  healthy (run (dbQueryRow user) w) /\ result (dbQueryRow user) w <> ErrOther.
Proof.
  unfold healthy, dbQueryRow, dbFault, run, result, mbind, M_bind, event, modify, gets,
    state. simpl. intros Hw. rewrite Hw. simpl. split; [done |]. by case_match.
Qed.

(** *** [getUserData] *)

(** Lookup-or-insert: when it succeeds, the identity has the row it
    returns and no other row has changed; when it fails, nothing has. *)
Lemma getUserData_spec user w :
  match result (getUserData user) w with
  | Some u =>
      u = userDataOfRow (ledgerRow (db w) user) /\
      db (run (getUserData user) w) = <[user := ledgerRow (db w) user]> (db w)
  | None => db (run (getUserData user) w) = db w
  end.
Proof.
  unfold getUserData. rewrite result_bind, run_bind.
  pose proof (dbQueryRow_result user w) as Hq.
  pose proof (dbQueryRow_db user w) as Hd.
  destruct (result (dbQueryRow user) w) as [r | |].
  - rewrite result_ret, run_ret, Hd. unfold ledgerRow. rewrite Hq. simpl.
    split; [done |]. by rewrite insert_id.
  - rewrite result_bind, run_bind.
    set (w1 := run (dbQueryRow user) w) in *.
    pose proof (dbExec_db (EInsert user) (insertUser user) w1) as Hx.
    assert (Hok : result (dbExec (EInsert user) (insertUser user)) w1 = true ->
                  insertUser user (db w1) =
                  Some (db (run (dbExec (EInsert user) (insertUser user)) w1))).
    { unfold dbExec, dbFault, run, result, mbind, M_bind, event, modify, state. simpl.
      repeat case_match; simplify_eq; simpl; intros; simplify_eq; done. }
    assert (Hfail : result (dbExec (EInsert user) (insertUser user)) w1 = false ->
                    db (run (dbExec (EInsert user) (insertUser user)) w1) = db w1).
    { unfold dbExec, dbFault, run, result, mbind, M_bind, event, modify, state. simpl.
      repeat case_match; simplify_eq; simpl; intros; simplify_eq; done. }
    destruct (result (dbExec (EInsert user) (insertUser user)) w1).
    + rewrite result_ret, run_ret. specialize (Hok eq_refl).
      unfold insertUser in Hok. rewrite Hd, Hq in Hok. simplify_eq.
      unfold ledgerRow. rewrite Hq. simpl. split; [done |]. symmetry. exact Hok.
    + rewrite result_ret, run_ret. rewrite Hfail by done. done.
  - by rewrite result_ret, run_ret.
Qed.

Lemma getUserData_healthy user w :
  healthy w ->
  healthy (run (getUserData user) w) /\ is_Some (result (getUserData user) w).
Proof.
  intros Hw. unfold getUserData. rewrite result_bind, run_bind.
  destruct (dbQueryRow_healthy user w Hw) as [Hh Hne].
  pose proof (dbQueryRow_result user w) as Hq.
  pose proof (dbQueryRow_db user w) as Hd.
  destruct (result (dbQueryRow user) w) as [r | |]; [| | done].
  - rewrite result_ret, run_ret. eauto.
  - rewrite result_bind, run_bind.
    destruct (dbExec_healthy (EInsert user) (insertUser user) _ Hh) as (Hh' & _ & Hr).
    rewrite Hr. unfold insertUser. rewrite Hd, Hq.
    rewrite bool_decide_eq_true_2 by eauto.
    rewrite result_ret, run_ret. eauto.
Qed.

Lemma getUserData_allRows (Q : string -> Row -> Prop) user w :
  (db w !! user = None -> Q user defaultRow) -> map_Forall Q (db w) ->
  map_Forall Q (db (run (getUserData user) w)) /\ Q user (ledgerRow (db w) user).
Proof.
  intros Hd Hw.
  assert (Hrow : Q user (ledgerRow (db w) user)).
  { unfold ledgerRow. destruct (db w !! user) eqn:E; simpl; eauto. }
  split; [| done].
  pose proof (getUserData_spec user w) as Hs.
  destruct (result (getUserData user) w).
  - destruct Hs as [_ ->]. by apply map_Forall_insert_2.
  - by rewrite Hs.
Qed.

(** *** [updateUserData] *)

(** The effect of the [UPDATE] statement, as a total function. *)
Definition updateRow (user : string) (r : Row) (t : gmap string Row) : gmap string Row :=
  match t !! user with
  | Some _ => <[user := r]> t
  | None => t
  end.

Lemma updateUser_updateRow user r t : updateUser user r t = Some (updateRow user r t).
Proof. unfold updateUser, updateRow. by destruct (t !! user). Qed.

Lemma updateRow_allRows (Q : string -> Row -> Prop) user r t :
  Q user r -> map_Forall Q t -> map_Forall Q (updateRow user r t).
Proof.
  intros Hr Ht. unfold updateRow. destruct (t !! user); [| done].
  by apply map_Forall_insert_2.
Qed.

Lemma updateRow_twice user r t : updateRow user r (updateRow user r t) = updateRow user r t.
Proof.
  unfold updateRow. destruct (t !! user) eqn:E; rewrite ?E; [| done].
  rewrite lookup_insert_eq. by rewrite insert_insert_eq.
Qed.

Lemma updateRow_deleted user r t : updateRow user r (delete user t) = delete user t.
Proof. unfold updateRow. by rewrite lookup_delete_eq. Qed.

Lemma updateUserData_db user u w :
  db (run (updateUserData user u) w) = db w \/
  db (run (updateUserData user u) w) = updateRow user (rowOfUserData u) (db w).
Proof.
  unfold updateUserData.
  destruct (dbExec_db (EUpdate user (rowOfUserData u)) (updateUser user (rowOfUserData u)) w)
    as [H | H]; [by left | right].
  rewrite updateUser_updateRow in H. congruence.
Qed.

Lemma updateUserData_healthy user u w :
  healthy w ->
  healthy (run (updateUserData user u) w) /\
  db (run (updateUserData user u) w) = updateRow user (rowOfUserData u) (db w).
Proof.
  intros Hw. unfold updateUserData.
  destruct (dbExec_healthy (EUpdate user (rowOfUserData u))
              (updateUser user (rowOfUserData u)) w Hw) as (Hh & Hd & _).
  split; [done |]. by rewrite Hd, updateUser_updateRow.
Qed.

Lemma updateUserData_allRows (Q : string -> Row -> Prop) user u w :
  Q user (rowOfUserData u) -> map_Forall Q (db w) ->
  map_Forall Q (db (run (updateUserData user u) w)).
Proof.
  intros Hu Hw. destruct (updateUserData_db user u w) as [-> | ->]; [done |].
  by apply updateRow_allRows.
Qed.

Section WithConfig.
Variable config : Config.
Variable formatRFC3339 : Time -> string.

Abbreviation logAction := (logAction config formatRFC3339).
Abbreviation banUser := (banUser config formatRFC3339).
Abbreviation timeOutUser := (timeOutUser config formatRFC3339).
Abbreviation reject := (reject config formatRFC3339).

Lemma logAction_db user action w : db (run (logAction user action) w) = db w.
Proof. apply (UploaderFootprint.sameLedger_logAction config formatRFC3339). Qed.

Lemma logAction_healthy user action w :
  healthy w -> healthy (run (logAction user action) w).
Proof.
  unfold healthy. intros <-.
  apply (UploaderFootprint.sameLedger_logAction config formatRFC3339).
Qed.

(** *** [banUser] *)

Lemma banUser_db user w :
  db (run (banUser user) w) = db w \/ db (run (banUser user) w) = delete user (db w).
Proof.
  unfold Uploader.banUser. rewrite run_bind, run_bind, logAction_db.
  set (del := dbExec (EDelete user) (fun t => Some (delete user t))).
  assert (Hk : forall b : bool, db (run (if b then mret tt else
                 logPrintf "Failed to delete user from database") (run del w))
               = db (run del w)) by (by intros []).
  rewrite Hk. destruct (dbExec_db (EDelete user) (fun t => Some (delete user t)) w)
    as [H | H]; [by left | right]. by injection H.
Qed.

Lemma banUser_healthy user w :
  healthy w ->
  healthy (run (banUser user) w) /\ db (run (banUser user) w) = delete user (db w).
Proof.
  intros Hw. unfold Uploader.banUser. rewrite run_bind, run_bind, logAction_db.
  destruct (dbExec_healthy (EDelete user) (fun t => Some (delete user t)) w Hw)
    as (Hh & Hd & Hr).
  rewrite Hr. simpl. rewrite run_ret. split; [by apply logAction_healthy | done].
Qed.

(** *** [timeOutUser] *)

(** The record as [timeOutUser] leaves it. *)
Definition timedOut (u : UserData) : UserData :=
  set_Strikes 0 (set_Timeouts (GoInt.incr (Timeouts u)) u).

Lemma timeOutUser_result user u w : result (timeOutUser user u) w = timedOut u.
Proof.
  unfold Uploader.timeOutUser. fold (timedOut u).
  destruct (Timeouts (timedOut u) >=? TimeOutsBeforeBan config);
    by rewrite ?result_bind, result_ret.
Qed.

Lemma timeOutUser_allRows (Q : string -> Row -> Prop) user u w :
  Q user (rowOfUserData (timedOut u)) -> map_Forall Q (db w) ->
  map_Forall Q (db (run (timeOutUser user u) w)).
Proof.
  intros Hu Hw. unfold Uploader.timeOutUser. fold (timedOut u).
  destruct (Timeouts (timedOut u) >=? TimeOutsBeforeBan config).
  - rewrite run_bind, run_ret.
    destruct (banUser_db user w) as [-> | ->]; [done | by apply map_Forall_delete].
  - rewrite run_bind, run_bind, run_ret.
    apply updateUserData_allRows; [done |]. by rewrite logAction_db.
Qed.

Lemma timeOutUser_healthy user u w :
  healthy w ->
  healthy (run (timeOutUser user u) w) /\
  db (run (timeOutUser user u) w) =
    if Timeouts (timedOut u) >=? TimeOutsBeforeBan config
    then delete user (db w)
    else updateRow user (rowOfUserData (timedOut u)) (db w).
Proof.
  intros Hw. unfold Uploader.timeOutUser. fold (timedOut u).
  destruct (Timeouts (timedOut u) >=? TimeOutsBeforeBan config).
  - rewrite run_bind, run_ret. by apply banUser_healthy.
  - rewrite run_bind, run_bind, run_ret.
    destruct (updateUserData_healthy user (timedOut u) _
                (logAction_healthy user "User timed out" w Hw)) as [Hh ->].
    by rewrite logAction_db.
Qed.

(** *** The rejection branches *)

(** The record after [userData.Strikes++]. *)
Definition struck (u : UserData) : UserData :=
  set_Strikes (GoInt.incr (Strikes u)) u.

Definition reachesTimeout (u : UserData) : bool :=
  Strikes (struck u) >=? StrikesBeforeTimeOut config.

(** The record a rejection ends with. *)
Definition escalated (u : UserData) : UserData :=
  if reachesTimeout u then timedOut (struck u) else struck u.

(** Does a rejection end in a ban? *)
Definition reachesBan (u : UserData) : bool :=
  reachesTimeout u && (Timeouts (timedOut (struck u)) >=? TimeOutsBeforeBan config).

Lemma reject_allRows (Q : string -> Row -> Prop) user u message w :
  Q user (rowOfUserData (escalated u)) -> map_Forall Q (db w) ->
  map_Forall Q (db (run (reject user u message) w)).
Proof.
  intros Hu Hw. unfold Uploader.reject. fold (struck u).
  rewrite !run_bind, run_ret.
  set (w1 := run (logAction user message) w).
  assert (Hw1 : map_Forall Q (db w1)) by (unfold w1; by rewrite logAction_db).
  unfold escalated, reachesTimeout in Hu.
  destruct (Strikes (struck u) >=? StrikesBeforeTimeOut config).
  - rewrite timeOutUser_result. apply updateUserData_allRows; [done |].
    by apply timeOutUser_allRows.
  - rewrite result_ret, run_ret. by apply updateUserData_allRows.
Qed.

Lemma updateUserData_writes Q user u :
  Q user (rowOfUserData u) -> preserves (writes Q) (updateUserData user u).
Proof. intros Hu. unfold updateUserData. by apply writes_dbExec. Qed.

Lemma logAction_writes Q user action : preserves (writes Q) (logAction user action).
Proof.
  intros w. apply writes_no_update.
  by apply (UploaderFootprint.calls_logAction config formatRFC3339).
Qed.

Lemma timeOutUser_writes Q user u :
  Q user (rowOfUserData (timedOut u)) -> preserves (writes Q) (timeOutUser user u).
Proof.
  intros Hu w. unfold Uploader.timeOutUser. fold (timedOut u).
  destruct (Timeouts (timedOut u) >=? TimeOutsBeforeBan config).
  - rewrite run_bind, run_ret. apply writes_no_update.
    by apply (UploaderFootprint.calls_banUser config formatRFC3339).
  - rewrite run_bind, run_bind, run_ret.
    etransitivity; [apply logAction_writes |]. by apply updateUserData_writes.
Qed.

(** Every [UPDATE] of a rejection carries the escalated record. *)
Lemma reject_writes Q user u message :
  Q user (rowOfUserData (escalated u)) -> preserves (writes Q) (reject user u message).
Proof.
  intros Hu w. unfold Uploader.reject. fold (struck u).
  rewrite !run_bind, run_ret.
  set (w1 := run (logAction user message) w).
  assert (H1 : writes Q w w1) by apply logAction_writes.
  unfold escalated, reachesTimeout in Hu.
  destruct (Strikes (struck u) >=? StrikesBeforeTimeOut config).
  - rewrite timeOutUser_result.
    etransitivity; [exact H1 |].
    etransitivity; [by apply timeOutUser_writes |]. by apply updateUserData_writes.
  - rewrite result_ret, run_ret.
    etransitivity; [exact H1 |]. by apply updateUserData_writes.
Qed.

(** With a healthy store the table after a rejection is known exactly:
    a ban deletes the row, and the [UPDATE] that follows it finds no row
    to change. *)
Lemma reject_healthy user u message w :
  healthy w ->
  healthy (run (reject user u message) w) /\
  db (run (reject user u message) w) =
    if reachesBan u then delete user (db w)
    else updateRow user (rowOfUserData (escalated u)) (db w).
Proof.
  intros Hw. unfold Uploader.reject. fold (struck u).
  rewrite !run_bind, run_ret.
  set (w1 := run (logAction user message) w).
  assert (Hw1 : healthy w1) by (by apply logAction_healthy).
  assert (Hd1 : db w1 = db w) by apply logAction_db.
  unfold escalated, reachesBan, reachesTimeout.
  destruct (Strikes (struck u) >=? StrikesBeforeTimeOut config); cbn [andb].
  - rewrite timeOutUser_result.
    destruct (timeOutUser_healthy user (struck u) w1 Hw1) as [Hh2 Hd2].
    destruct (updateUserData_healthy user (timedOut (struck u)) _ Hh2) as [Hh3 ->].
    split; [done |]. rewrite Hd2, Hd1.
    destruct (Timeouts (timedOut (struck u)) >=? TimeOutsBeforeBan config).
    + apply updateRow_deleted.
    + apply updateRow_twice.
  - rewrite result_ret, run_ret.
    destruct (updateUserData_healthy user (struck u) w1 Hw1) as [Hh2 ->].
    by rewrite Hd1.
Qed.

End WithConfig.

End Ledger.

(* ===================================================================== *)
(** ** The evaluation of a candidate upload, exit by exit                 *)
(* ===================================================================== *)

Module Evaluation.
Import Os MFacts Footprint Uploader Ledger.
Local Open Scope list_scope.

(** Files: none is touched. *)
Definition noPath (p : string) : Prop := False.

Lemma sameFiles_noPath w w' : sameFilesBut noPath w w' -> fs w' = fs w.
Proof. intros H. apply map_eq. intros p. apply H. by intros []. Qed.

(** What [processUpload] knows once the ledger row is loaded. *)
Lemma loaded fp w u :
  result (getUserData fp) w = Some u ->
  u = userDataOfRow (ledgerRow (db w) fp) /\
  db (run (getUserData fp) w) = <[fp := ledgerRow (db w) fp]> (db w).
Proof. intros H. pose proof (getUserData_spec fp w) as Hs. by rewrite H in Hs. Qed.

Lemma loaded_keeps_rows fp (t : gmap string Row) user r :
  t !! user = Some r -> <[fp := ledgerRow t fp]> t !! user = Some r.
Proof.
  intros H. destruct (decide (fp = user)) as [-> | Hne].
  - rewrite lookup_insert_eq. unfold ledgerRow. by rewrite H.
  - by rewrite lookup_insert_ne.
Qed.

Lemma loaded_ledgerRow fp (t : gmap string Row) user :
  ledgerRow (<[fp := ledgerRow t fp]> t) user = ledgerRow t user.
Proof.
  unfold ledgerRow at 1. destruct (decide (fp = user)) as [-> | Hne].
  - by rewrite lookup_insert_eq.
  - by rewrite lookup_insert_ne.
Qed.

(** *** What the checks read *)

(** What [calculateFileSize] returns in a file system. *)
Definition sizeMB (f : gmap string Node) (path : string) : option Z :=
  match statSize f path with
  | None => None
  | Some size => Some (Z.quot size (1024 * 1024))
  end.

(** What [calculateAudioDuration] returns in a file system. *)
Definition durationOf (f : gmap string Node) (path : string) : option Z :=
  match probeOutput f path with
  | None => None
  | Some out => Some (fst (GoFmt.Sscanf_f_int out 0))
  end.

Lemma stat_result path w : result (stat path) w = statSize (fs w) path.
Proof. reflexivity. Qed.

Lemma ffprobe_result path w : result (ffprobe path) w = probeOutput (fs w) path.
Proof. reflexivity. Qed.

Lemma calculateFileSize_result path w :
  result (calculateFileSize path) w = sizeMB (fs w) path.
Proof.
  unfold calculateFileSize, sizeMB. rewrite result_bind, stat_result.
  by destruct (statSize (fs w) path).
Qed.

Lemma calculateAudioDuration_result path w :
  result (calculateAudioDuration path) w = durationOf (fs w) path.
Proof.
  unfold calculateAudioDuration, durationOf. rewrite result_bind, ffprobe_result.
  by destruct (probeOutput (fs w) path).
Qed.

Lemma getUserData_fs user w : fs (run (getUserData user) w) = fs w.
Proof. apply sameFiles_noPath, UploaderFootprint.sameFiles_getUserData. Qed.

Lemma calculateFileSize_fs path w : fs (run (calculateFileSize path) w) = fs w.
Proof. apply sameFiles_noPath, UploaderFootprint.sameFiles_calculateFileSize. Qed.

Lemma calculateAudioDuration_fs path w : fs (run (calculateAudioDuration path) w) = fs w.
Proof. apply sameFiles_noPath, UploaderFootprint.sameFiles_calculateAudioDuration. Qed.

(** *** The calls of the checks *)

Definition isCheckCall (e : Event) : bool :=
  match e with
  | EStat _ | EFfprobe _ => true
  | _ => false
  end.

(** The calls that take a size or probe a duration, in the order made. *)
Definition checkCalls (evs : list Event) : list Event := List.filter isCheckCall evs.

(** From [w] to [w'] the check calls made are exactly [l]. *)
Definition checked (l : list Event) (w w' : World) : Prop :=
  extends w w' /\ checkCalls (since w w') = l.

Lemma checked_trans l1 l2 w1 w2 w3 :
  checked l1 w1 w2 -> checked l2 w2 w3 -> checked (l1 ++ l2) w1 w3.
Proof.
  intros [E12 C12] [E23 C23]. destruct (extends_trans _ _ _ E12 E23) as [E13 S13].
  split; [done |]. unfold checkCalls in *. by rewrite S13, List.filter_app, C12, C23.
Qed.

Definition noCheckCall (k : Kind) : bool :=
  match k with
  | KStat | KFfprobe => false
  | _ => true
  end.

Lemma checked_none w w' : calls noCheckCall w w' -> checked [] w w'.
Proof.
  intros [E F]. split; [done |]. unfold checkCalls.
  induction F as [| e evs He _ IH]; [done |]. cbn.
  destruct e; cbn in He; try discriminate; exact IH.
Qed.

Lemma checked_emit_printf msg w : checked [] w (emit (ELogPrintf msg) w).
Proof. apply checked_none. by apply emits_emit. Qed.

Lemma checked_calculateFileSize path w :
  checked [EStat path] w (run (calculateFileSize path) w).
Proof.
  assert (H : trace (run (calculateFileSize path) w) = trace w ++ [EStat path]).
  { unfold calculateFileSize, stat. rewrite !run_bind.
    by destruct (result _ _). }
  split; [by apply (extends_intro _ _ _ H) | by rewrite (since_app _ _ _ H)].
Qed.

Lemma checked_calculateAudioDuration path w :
  checked [EFfprobe path] w (run (calculateAudioDuration path) w).
Proof.
  assert (H : trace (run (calculateAudioDuration path) w) = trace w ++ [EFfprobe path]).
  { unfold calculateAudioDuration, ffprobe. rewrite !run_bind.
    by destruct (result _ _). }
  split; [by apply (extends_intro _ _ _ H) | by rewrite (since_app _ _ _ H)].
Qed.

Section WithConfig.
Variable config : Config.
Variable formatRFC3339 : Time -> string.
Variable fingerprintSSHKey : string -> option string.

Abbreviation logAction := (logAction config formatRFC3339).
Abbreviation reject := (reject config formatRFC3339).
Abbreviation processUpload := (processUpload config formatRFC3339 fingerprintSSHKey).

(** The size check and the airtime check of [processUpload]. *)
Definition sizeExceeded (u : UserData) (fileSize : Z) : bool :=
  GoInt.add (DailyUpload u) fileSize >? MaxUserUploadSize config.
Definition airtimeExceeded (u : UserData) (duration : Z) : bool :=
  GoInt.add (DailyAirtime u) duration >? MaxUserAirtime config.

(** The record [processUpload] persists on admission. *)
Definition charged (u : UserData) (fileSize duration : Z) (t : Time) : UserData :=
  set_LastUpload t
    (set_DailyAirtime (GoInt.add (DailyAirtime u) duration)
       (set_DailyUpload (GoInt.add (DailyUpload u) fileSize) u)).

Definition destPath (filePath : string) : string :=
  GoStrings.Join [StorageDirectory config; GoStrings.Base filePath].

(** The worlds [processUpload] passes through on its way to each exit:
    [w1] after the ledger row is loaded, [w2] after the size is taken,
    [w3] after the duration is probed, [w4] after the move. *)
Inductive Evaluation (key filePath : string) (w : World) : Outcome -> World -> Prop :=
| AtCredential :
    fingerprintSSHKey key = None ->
    Evaluation key filePath w DroppedCredential
      (emit (ELogPrintf "Error calculating SSH key fingerprint") w)
| AtLedger fp w1 :
    fingerprintSSHKey key = Some fp ->
    result (getUserData fp) w = None -> w1 = run (getUserData fp) w ->
    Evaluation key filePath w DroppedLedger
      (emit (ELogPrintf "Error fetching user data") w1)
| AtType fp u w1 :
    fingerprintSSHKey key = Some fp ->
    result (getUserData fp) w = Some u -> w1 = run (getUserData fp) w ->
    checkFileType config filePath = false ->
    Evaluation key filePath w RejectedUnsupportedType
      (run (reject fp u "Attempted to upload unsupported file type") w1)
| AtStat fp u w1 w2 :
    fingerprintSSHKey key = Some fp ->
    result (getUserData fp) w = Some u -> w1 = run (getUserData fp) w ->
    checkFileType config filePath = true ->
    result (calculateFileSize filePath) w1 = None ->
    w2 = run (calculateFileSize filePath) w1 ->
    Evaluation key filePath w DroppedStat
      (emit (ELogPrintf "Error calculating file size") w2)
| AtSize fp u w1 fileSize w2 :
    fingerprintSSHKey key = Some fp ->
    result (getUserData fp) w = Some u -> w1 = run (getUserData fp) w ->
    checkFileType config filePath = true ->
    result (calculateFileSize filePath) w1 = Some fileSize ->
    w2 = run (calculateFileSize filePath) w1 ->
    sizeExceeded u fileSize = true ->
    Evaluation key filePath w RejectedSizeQuota
      (run (reject fp u "Exceeded daily upload size limit") w2)
| AtProbe fp u w1 fileSize w2 w3 :
    fingerprintSSHKey key = Some fp ->
    result (getUserData fp) w = Some u -> w1 = run (getUserData fp) w ->
    checkFileType config filePath = true ->
    result (calculateFileSize filePath) w1 = Some fileSize ->
    w2 = run (calculateFileSize filePath) w1 ->
    sizeExceeded u fileSize = false ->
    result (calculateAudioDuration filePath) w2 = None ->
    w3 = run (calculateAudioDuration filePath) w2 ->
    Evaluation key filePath w DroppedProbe
      (emit (ELogPrintf "Error calculating audio duration") w3)
| AtAirtime fp u w1 fileSize w2 duration w3 :
    fingerprintSSHKey key = Some fp ->
    result (getUserData fp) w = Some u -> w1 = run (getUserData fp) w ->
    checkFileType config filePath = true ->
    result (calculateFileSize filePath) w1 = Some fileSize ->
    w2 = run (calculateFileSize filePath) w1 ->
    sizeExceeded u fileSize = false ->
    result (calculateAudioDuration filePath) w2 = Some duration ->
    w3 = run (calculateAudioDuration filePath) w2 ->
    airtimeExceeded u duration = true ->
    Evaluation key filePath w RejectedAirtimeQuota
      (run (reject fp u "Exceeded daily airtime limit") w3)
| AtMove fp u w1 fileSize w2 duration w3 w4 :
    fingerprintSSHKey key = Some fp ->
    result (getUserData fp) w = Some u -> w1 = run (getUserData fp) w ->
    checkFileType config filePath = true ->
    result (calculateFileSize filePath) w1 = Some fileSize ->
    w2 = run (calculateFileSize filePath) w1 ->
    sizeExceeded u fileSize = false ->
    result (calculateAudioDuration filePath) w2 = Some duration ->
    w3 = run (calculateAudioDuration filePath) w2 ->
    airtimeExceeded u duration = false ->
    result (rename filePath (destPath filePath)) (run timeNow w3) = false ->
    w4 = run (rename filePath (destPath filePath)) (run timeNow w3) ->
    Evaluation key filePath w MoveFailed
      (emit (ELogPrintf "Error moving file to storage directory") w4)
| AtAdmission fp u w1 fileSize w2 duration w3 w4 :
    fingerprintSSHKey key = Some fp ->
    result (getUserData fp) w = Some u -> w1 = run (getUserData fp) w ->
    checkFileType config filePath = true ->
    result (calculateFileSize filePath) w1 = Some fileSize ->
    w2 = run (calculateFileSize filePath) w1 ->
    sizeExceeded u fileSize = false ->
    result (calculateAudioDuration filePath) w2 = Some duration ->
    w3 = run (calculateAudioDuration filePath) w2 ->
    airtimeExceeded u duration = false ->
    result (rename filePath (destPath filePath)) (run timeNow w3) = true ->
    w4 = run (rename filePath (destPath filePath)) (run timeNow w3) ->
    Evaluation key filePath w Accepted
      (run (updateUserData fp (charged u fileSize duration (now w3)))
         (run (logAction fp "File uploaded successfully") w4)).

(** A rejection branch of [processUpload] leaves the world [reject] leaves. *)
Lemma reject_branch fp u message (o : Outcome) w :
  (let userData := set_Strikes (GoInt.incr (Strikes u)) u in
   Uploader.logAction config formatRFC3339 fp message;;
   userData ← (if Strikes userData >=? StrikesBeforeTimeOut config
               then timeOutUser config formatRFC3339 fp userData
               else mret userData);
   updateUserData fp userData;;
   mret o) w = (o, run (reject fp u message) w).
Proof.
  unfold Uploader.reject. cbv zeta.
  set (m1 := Uploader.logAction config formatRFC3339 fp message).
  set (m2 := if (_ >=? _) then timeOutUser _ _ _ _ else mret _).
  unfold run, mbind, M_bind.
  destruct (m1 w) as [[] w1]. destruct (m2 w1) as [u1 w2].
  by destruct (updateUserData fp u1 w2) as [b w3].
Qed.

Ltac rejection :=
  unfold result, run; rewrite reject_branch; cbn [fst snd].

(** Every call of [processUpload] returns, through one of these exits. *)
Lemma processUpload_evaluation key filePath w :
  Evaluation key filePath w
    (result (processUpload key filePath) w) (run (processUpload key filePath) w).
Proof.
  unfold Uploader.processUpload.
  destruct (fingerprintSSHKey key) as [fp |] eqn:Hfp;
    [| by apply AtCredential].
  rewrite result_bind, run_bind.
  destruct (result (getUserData fp) w) as [u |] eqn:Hu;
    [| by eapply AtLedger].
  destruct (checkFileType config filePath) eqn:Hty; cbn [negb];
    [| rejection; by eapply AtType].
  rewrite result_bind, run_bind.
  destruct (result (calculateFileSize filePath) (run (getUserData fp) w))
    as [fileSize |] eqn:Hsz; [| by eapply AtStat].
  fold (sizeExceeded u fileSize). destruct (sizeExceeded u fileSize) eqn:Hsx;
    [rejection; by eapply AtSize |].
  rewrite result_bind, run_bind.
  destruct (result (calculateAudioDuration filePath)
              (run (calculateFileSize filePath) (run (getUserData fp) w)))
    as [duration |] eqn:Hdur; [| by eapply AtProbe].
  fold (airtimeExceeded u duration). destruct (airtimeExceeded u duration) eqn:Hax;
    [rejection; by eapply AtAirtime |].
  rewrite result_bind, run_bind. fold (destPath filePath).
  rewrite result_bind, run_bind.
  destruct (result (rename filePath (destPath filePath))
              (run timeNow (run (calculateAudioDuration filePath)
                 (run (calculateFileSize filePath) (run (getUserData fp) w)))))
    eqn:Hmv.
  - rewrite !result_bind, !run_bind, result_ret, run_ret.
    by eapply (AtAdmission key filePath w fp u _ fileSize _ duration).
  - by eapply AtMove.
Qed.

(** The exit [processUpload] takes, read off the world it starts in: the
    checks in the order of the source, each on the files and the ledger row
    as they are before the evaluation. *)
Definition firstFailingCheck (key filePath : string) (w : World) : Outcome :=
  match fingerprintSSHKey key with
  | None => DroppedCredential
  | Some fp =>
  match result (getUserData fp) w with
  | None => DroppedLedger
  | Some u =>
  if negb (checkFileType config filePath) then RejectedUnsupportedType else
  match sizeMB (fs w) filePath with
  | None => DroppedStat
  | Some fileSize =>
  if sizeExceeded u fileSize then RejectedSizeQuota else
  match durationOf (fs w) filePath with
  | None => DroppedProbe
  | Some duration =>
  if airtimeExceeded u duration then RejectedAirtimeQuota else
  if canRename (fs w) filePath (destPath filePath) then Accepted else MoveFailed
  end end end end.

Lemma processUpload_result key filePath w :
  result (processUpload key filePath) w = firstFailingCheck key filePath w.
Proof.
  pose proof (processUpload_evaluation key filePath w) as Hev.
  remember (result (processUpload key filePath) w) as o eqn:Ho. clear Ho.
  unfold firstFailingCheck.
  inversion Hev as
    [ Hfp
    | fp w1 Hfp Hu Hw1
    | fp u w1 Hfp Hu Hw1 Hty
    | fp u w1 w2 Hfp Hu Hw1 Hty Hsz Hw2
    | fp u w1 fileSize w2 Hfp Hu Hw1 Hty Hsz Hw2 Hsx
    | fp u w1 fileSize w2 w3 Hfp Hu Hw1 Hty Hsz Hw2 Hsx Hdur Hw3
    | fp u w1 fileSize w2 duration w3 Hfp Hu Hw1 Hty Hsz Hw2 Hsx Hdur Hw3 Hax
    | fp u w1 fileSize w2 duration w3 w4 Hfp Hu Hw1 Hty Hsz Hw2 Hsx Hdur Hw3 Hax Hmv Hw4
    | fp u w1 fileSize w2 duration w3 w4 Hfp Hu Hw1 Hty Hsz Hw2 Hsx Hdur Hw3 Hax Hmv Hw4 ];
    rewrite Hfp; try rewrite Hu; try rewrite Hty; cbn [negb]; try done;
    rewrite calculateFileSize_result in Hsz; subst w1;
    rewrite getUserData_fs in Hsz; rewrite Hsz; try rewrite Hsx; try done;
    rewrite calculateAudioDuration_result in Hdur; subst w2;
    rewrite calculateFileSize_fs, getUserData_fs in Hdur; rewrite Hdur;
    try rewrite Hax; try done;
    rewrite rename_result in Hmv; subst w3;
    change (fs (run timeNow ?x)) with (fs x) in Hmv;
    rewrite calculateAudioDuration_fs, calculateFileSize_fs, getUserData_fs in Hmv;
    by rewrite Hmv.
Qed.

(** The check calls each exit has made. *)
Definition checksRun (o : Outcome) (filePath : string) : list Event :=
  match o with
  | DroppedCredential | DroppedLedger | RejectedUnsupportedType => []
  | DroppedStat | RejectedSizeQuota => [EStat filePath]
  | DroppedProbe | RejectedAirtimeQuota | MoveFailed | Accepted =>
      [EStat filePath; EFfprobe filePath]
  end.

Lemma checked_getUserData fp w : checked [] w (run (getUserData fp) w).
Proof. apply checked_none. by apply UploaderFootprint.calls_getUserData. Qed.

Lemma checked_reject fp u message w : checked [] w (run (reject fp u message) w).
Proof. apply checked_none. by apply UploaderFootprint.calls_reject. Qed.

Lemma processUpload_checked key filePath w :
  checked (checksRun (result (processUpload key filePath) w) filePath)
    w (run (processUpload key filePath) w).
Proof.
  pose proof (processUpload_evaluation key filePath w) as Hev.
  remember (result (processUpload key filePath) w) as o eqn:Ho. clear Ho.
  remember (run (processUpload key filePath) w) as w' eqn:Hw'. clear Hw'.
  inversion Hev as
    [ Hfp
    | fp w1 Hfp Hu Hw1
    | fp u w1 Hfp Hu Hw1 Hty
    | fp u w1 w2 Hfp Hu Hw1 Hty Hsz Hw2
    | fp u w1 fileSize w2 Hfp Hu Hw1 Hty Hsz Hw2 Hsx
    | fp u w1 fileSize w2 w3 Hfp Hu Hw1 Hty Hsz Hw2 Hsx Hdur Hw3
    | fp u w1 fileSize w2 duration w3 Hfp Hu Hw1 Hty Hsz Hw2 Hsx Hdur Hw3 Hax
    | fp u w1 fileSize w2 duration w3 w4 Hfp Hu Hw1 Hty Hsz Hw2 Hsx Hdur Hw3 Hax Hmv Hw4
    | fp u w1 fileSize w2 duration w3 w4 Hfp Hu Hw1 Hty Hsz Hw2 Hsx Hdur Hw3 Hax Hmv Hw4 ];
    cbn [checksRun];
    try (assert (H1 : checked [] w w1) by (subst w1; apply checked_getUserData));
    try (assert (H2 : checked [EStat filePath] w1 w2)
           by (subst w2; apply checked_calculateFileSize));
    try (assert (H3 : checked [EFfprobe filePath] w2 w3)
           by (subst w3; apply checked_calculateAudioDuration));
    try (assert (H4 : checked [] w3 w4)
           by (subst w4; apply checked_none;
               transitivity (run timeNow w3); [apply calls_timeNow | by apply calls_rename])).
  - apply checked_emit_printf.
  - apply (checked_trans [] [] _ _ _ H1), checked_emit_printf.
  - apply (checked_trans [] [] _ _ _ H1), checked_reject.
  - apply (checked_trans [] [_] _ _ _ H1), (checked_trans [_] [] _ _ _ H2),
      checked_emit_printf.
  - apply (checked_trans [] [_] _ _ _ H1), (checked_trans [_] [] _ _ _ H2),
      checked_reject.
  - apply (checked_trans [] [_; _] _ _ _ H1), (checked_trans [_] [_] _ _ _ H2),
      (checked_trans [_] [] _ _ _ H3), checked_emit_printf.
  - apply (checked_trans [] [_; _] _ _ _ H1), (checked_trans [_] [_] _ _ _ H2),
      (checked_trans [_] [] _ _ _ H3), checked_reject.
  - apply (checked_trans [] [_; _] _ _ _ H1), (checked_trans [_] [_] _ _ _ H2),
      (checked_trans [_] [] _ _ _ H3), (checked_trans [] [] _ _ _ H4),
      checked_emit_printf.
  - apply (checked_trans [] [_; _] _ _ _ H1), (checked_trans [_] [_] _ _ _ H2),
      (checked_trans [_] [] _ _ _ H3), (checked_trans [] [] _ _ _ H4).
    apply checked_none.
    etransitivity; [by apply (UploaderFootprint.calls_logAction config formatRFC3339) |].
    by apply UploaderFootprint.calls_updateUserData.
Qed.

(** The calls before a decision: the ledger is read (and the row created),
    the size taken, the duration probed. *)
Definition readsOnly (k : Kind) : bool :=
  match k with
  | KSelect | KInsert | KStat | KFfprobe => true
  | _ => false
  end.

(** Every rejection has the same shape: the row is loaded, some checks are
    made, which change neither the files nor the ledger, and the shared
    rejection code runs. *)
Lemma rejection_shape key filePath w :
  isRejection (result (processUpload key filePath) w) = true ->
  exists fp u w0 message,
    fingerprintSSHKey key = Some fp /\
    result (getUserData fp) w = Some u /\
    sameLedger (run (getUserData fp) w) w0 /\
    fs w0 = fs w /\
    calls readsOnly w w0 /\
    run (processUpload key filePath) w = run (reject fp u message) w0.
Proof.
  intros Hrej.
  pose proof (processUpload_evaluation key filePath w) as Hev.
  remember (run (processUpload key filePath) w) as w' eqn:Hw'. clear Hw'.
  destruct (result (processUpload key filePath) w); try discriminate Hrej;
    inversion Hev as
      [ | | fp u w1 Hfp Hu Hw1 Hty | |
        fp u w1 fileSize w2 Hfp Hu Hw1 Hty Hsz Hw2 Hsx | |
        fp u w1 fileSize w2 duration w3 Hfp Hu Hw1 Hty Hsz Hw2 Hsx Hdur Hw3 Hax | | ];
    assert (Hc1 : calls readsOnly w w1)
      by (subst w1; by apply UploaderFootprint.calls_getUserData);
    assert (Hf1 : fs w1 = fs w) by (subst w1; apply getUserData_fs).
  - exists fp, u, w1, "Attempted to upload unsupported file type".
    subst w1. split_and!; try done.
  - exists fp, u, w2, "Exceeded daily upload size limit".
    subst w2. split_and!; try done.
    + subst w1. apply UploaderFootprint.sameLedger_calculateFileSize.
    + by rewrite calculateFileSize_fs.
    + etransitivity; [exact Hc1 |]. by apply UploaderFootprint.calls_calculateFileSize.
  - exists fp, u, w3, "Exceeded daily airtime limit".
    subst w3 w2. split_and!; try done.
    + subst w1. etransitivity; [apply UploaderFootprint.sameLedger_calculateFileSize |].
      apply UploaderFootprint.sameLedger_calculateAudioDuration.
    + by rewrite calculateAudioDuration_fs, calculateFileSize_fs.
    + etransitivity; [exact Hc1 |].
      etransitivity; [by apply UploaderFootprint.calls_calculateFileSize |].
      by apply UploaderFootprint.calls_calculateAudioDuration.
Qed.

(** An invariant [Q] of the rows survives an evaluation when the default
    row has it, a rejection keeps it and an admission keeps it. [P] is what
    is assumed of the store; the steps that do not touch the ledger keep
    it. *)
Lemma processUpload_invariant (P : World -> Prop) (Q : string -> Row -> Prop)
    key filePath w :
  (forall w0 w', sameLedger w0 w' -> P w0 -> P w') ->
  (forall fp w0, P w0 -> P (run (getUserData fp) w0)) ->
  (forall user, db w !! user = None -> Q user defaultRow) ->
  (forall fp r message w0,
     P w0 -> Q fp r -> map_Forall Q (db w0) ->
     map_Forall Q (db (run (reject fp (userDataOfRow r) message) w0))) ->
  (result (processUpload key filePath) w = Accepted ->
   forall fp r fileSize duration t,
     Q fp r -> Q fp (rowOfUserData (charged (userDataOfRow r) fileSize duration t))) ->
  P w -> map_Forall Q (db w) ->
  map_Forall Q (db (run (processUpload key filePath) w)).
Proof.
  intros HP Hget Hdef Hrej Hadm Hw HQ.
  pose proof (processUpload_evaluation key filePath w) as Hev.
  remember (result (processUpload key filePath) w) as o eqn:Ho.
  assert (Hload : forall fp,
            P (run (getUserData fp) w) /\
            map_Forall Q (db (run (getUserData fp) w)) /\ Q fp (ledgerRow (db w) fp)).
  { intros fp. split; [by apply Hget |]. apply getUserData_allRows; [apply Hdef | done]. }
  assert (Hsize : forall w0, P w0 -> map_Forall Q (db w0) ->
            P (run (calculateFileSize filePath) w0) /\
            map_Forall Q (db (run (calculateFileSize filePath) w0))).
  { intros w0 HP0 HQ0.
    pose proof (UploaderFootprint.sameLedger_calculateFileSize filePath w0) as Hs.
    split; [by apply (HP w0) |]. by rewrite (proj1 Hs). }
  assert (Hprobe : forall w0, P w0 -> map_Forall Q (db w0) ->
            P (run (calculateAudioDuration filePath) w0) /\
            map_Forall Q (db (run (calculateAudioDuration filePath) w0))).
  { intros w0 HP0 HQ0.
    pose proof (UploaderFootprint.sameLedger_calculateAudioDuration filePath w0) as Hs.
    split; [by apply (HP w0) |]. by rewrite (proj1 Hs). }
  inversion Hev as
    [ Hfp
    | fp w1 Hfp Hu Hw1
    | fp u w1 Hfp Hu Hw1 Hty
    | fp u w1 w2 Hfp Hu Hw1 Hty Hsz Hw2
    | fp u w1 fileSize w2 Hfp Hu Hw1 Hty Hsz Hw2 Hsx
    | fp u w1 fileSize w2 w3 Hfp Hu Hw1 Hty Hsz Hw2 Hsx Hdur Hw3
    | fp u w1 fileSize w2 duration w3 Hfp Hu Hw1 Hty Hsz Hw2 Hsx Hdur Hw3 Hax
    | fp u w1 fileSize w2 duration w3 w4 Hfp Hu Hw1 Hty Hsz Hw2 Hsx Hdur Hw3 Hax Hmv Hw4
    | fp u w1 fileSize w2 duration w3 w4 Hfp Hu Hw1 Hty Hsz Hw2 Hsx Hdur Hw3 Hax Hmv Hw4 ];
    try (destruct (Hload fp) as (HP1 & HQ1 & Hrow));
    try (destruct (loaded fp w u Hu) as [Hueq _]);
    try (destruct (Hsize w1) as [HP2 HQ2]; [by subst w1 | by subst w1 |]);
    try (destruct (Hprobe w2) as [HP3 HQ3]; [by subst w2 | by subst w2 |]).
  - done.
  - subst w1. exact HQ1.
  - subst w1 u. by apply Hrej.
  - subst w2. exact HQ2.
  - subst w2 u. by apply Hrej.
  - subst w3. exact HQ3.
  - subst w3 u. by apply Hrej.
  - subst w4. cbn. subst w3.
    by rewrite (sameLedger_db _ _ (sameLedger_rename _ _)).
  - apply updateUserData_allRows; [subst u; by apply Hadm |].
    rewrite (sameLedger_db _ _
               (UploaderFootprint.sameLedger_logAction config formatRFC3339 _ _)).
    subst w4. rewrite (sameLedger_db _ _ (sameLedger_rename _ _)). cbn. by subst w3.
Qed.

(** The rows an evaluation writes have [Q] when the row it loads has it and
    rejection and admission keep it. *)
Lemma processUpload_writes (Q : string -> Row -> Prop) key filePath w :
  (forall fp, Q fp (ledgerRow (db w) fp)) ->
  (forall fp r, Q fp r -> Q fp (rowOfUserData (escalated config (userDataOfRow r)))) ->
  (forall fp r fileSize duration t,
     Q fp r -> Q fp (rowOfUserData (charged (userDataOfRow r) fileSize duration t))) ->
  writes Q w (run (processUpload key filePath) w).
Proof.
  intros Hrow Hrej Hadm.
  pose proof (processUpload_evaluation key filePath w) as Hev.
  remember (result (processUpload key filePath) w) as o eqn:Ho. clear Ho.
  remember (run (processUpload key filePath) w) as w' eqn:Hw'. clear Hw'.
  assert (Hprintf : forall msg w0, writes Q w0 (emit (ELogPrintf msg) w0))
    by (intros msg w0; by apply emits_emit).
  inversion Hev as
    [ Hfp
    | fp w1 Hfp Hu Hw1
    | fp u w1 Hfp Hu Hw1 Hty
    | fp u w1 w2 Hfp Hu Hw1 Hty Hsz Hw2
    | fp u w1 fileSize w2 Hfp Hu Hw1 Hty Hsz Hw2 Hsx
    | fp u w1 fileSize w2 w3 Hfp Hu Hw1 Hty Hsz Hw2 Hsx Hdur Hw3
    | fp u w1 fileSize w2 duration w3 Hfp Hu Hw1 Hty Hsz Hw2 Hsx Hdur Hw3 Hax
    | fp u w1 fileSize w2 duration w3 w4 Hfp Hu Hw1 Hty Hsz Hw2 Hsx Hdur Hw3 Hax Hmv Hw4
    | fp u w1 fileSize w2 duration w3 w4 Hfp Hu Hw1 Hty Hsz Hw2 Hsx Hdur Hw3 Hax Hmv Hw4 ];
    try (assert (H1 : writes Q w w1)
           by (subst w1; apply writes_no_update;
               by apply UploaderFootprint.calls_getUserData));
    try (destruct (loaded fp w u Hu) as [Hueq _]);
    try (assert (H2 : writes Q w1 w2)
           by (subst w2; apply writes_no_update;
               by apply UploaderFootprint.calls_calculateFileSize));
    try (assert (H3 : writes Q w2 w3)
           by (subst w3; apply writes_no_update;
               by apply UploaderFootprint.calls_calculateAudioDuration));
    try (assert (H4 : writes Q w3 w4)
           by (subst w4; apply writes_no_update;
               transitivity (run timeNow w3); [apply calls_timeNow | by apply calls_rename])).
  - apply Hprintf.
  - etransitivity; [exact H1 | apply Hprintf].
  - etransitivity; [exact H1 |]. apply reject_writes. subst u. apply Hrej, Hrow.
  - etransitivity; [exact H1 |]. etransitivity; [exact H2 | apply Hprintf].
  - etransitivity; [exact H1 |]. etransitivity; [exact H2 |].
    apply reject_writes. subst u. apply Hrej, Hrow.
  - etransitivity; [exact H1 |]. etransitivity; [exact H2 |].
    etransitivity; [exact H3 | apply Hprintf].
  - etransitivity; [exact H1 |]. etransitivity; [exact H2 |].
    etransitivity; [exact H3 |]. apply reject_writes. subst u. apply Hrej, Hrow.
  - etransitivity; [exact H1 |]. etransitivity; [exact H2 |].
    etransitivity; [exact H3 |]. etransitivity; [exact H4 | apply Hprintf].
  - etransitivity; [exact H1 |]. etransitivity; [exact H2 |].
    etransitivity; [exact H3 |]. etransitivity; [exact H4 |].
    etransitivity; [apply (logAction_writes config formatRFC3339) |].
    apply updateUserData_writes. subst u. apply Hadm, Hrow.
Qed.

End WithConfig.

End Evaluation.

(* ===================================================================== *)
(** ** Concrete worlds the theorems are tried on                          *)
(* ===================================================================== *)

Module Scenario.
Import Os Uploader.
Local Open Scope list_scope.

(** Quotas of 100 MB and 1000 s, timeout at the third strike, ban at the
    second timeout. *)
Definition config : Config :=
  mkConfig 100 [".mp3"; ".ogg"] 1000 "/keys" "/var/log/riverrun" "/in" "/store" 3 2.


(** The quota lowered to 30 MB by the operator. *)
Definition configLowQuota : Config :=
  mkConfig 30 [".mp3"; ".ogg"] 1000 "/keys" "/var/log/riverrun" "/in" "/store" 3 2.

(** A stand-in for the RFC 3339 rendering of a time. *)
Definition formatTime (t : Time) : string :=
  if Z.eqb t 1000 then "T1000" else if Z.eqb t 1001 then "T1001" else "T".

Definition fingerprintOf (keyPath : string) : option string :=
  if String.eqb keyPath "/keys/alice" then Some "SHA256:alice" else None.

Definition MiB : Z := 1024 * 1024.

Definition files : list (string * Node) :=
  [ ("/in", Directory 4096);
    ("/store", Directory 4096);
    ("/var/log/riverrun", Directory 4096);
    ("/in/song.mp3", Regular 420 (Media (40 * MiB) (Some ("120.000000" ++ newline)%string)));
    ("/in/jingle.mp3", Regular 420 (Media 500000 (Some ("3.200000" ++ newline)%string)));
    ("/in/huge.mp3", Regular 420 (Media (150 * MiB) (Some ("9000.000000" ++ newline)%string)));
    ("/in/tool.exe", Regular 420 (Media 4096 None)) ].

(** A first start: empty ledger, no audit log yet, a healthy store. *)
Definition fresh : World :=
  mkWorld (list_to_map files) ∅ true ∅ [] 1000 [].

(** The same, but nobody has created the storage directory. *)
Definition noStorage : World :=
  mkWorld (delete "/store" (list_to_map files)) ∅ true ∅ [] 1000 [].

Definition withLedger (rows : list (string * Row)) (w : World) : World :=
  set_db (list_to_map rows) w.

End Scenario.

(* ===================================================================== *)
(** ** The embedding on small inputs                                      *)
(* ===================================================================== *)

Module Examples.
Import Os Uploader.
Local Open Scope list_scope.

Example wrap_past_max : GoInt.incr GoInt.intMax = GoInt.intMin.
Proof. reflexivity. Qed.

Example ext_of_upper_case : GoStrings.Ext "/in/Song.MP3" = ".MP3".
Proof. reflexivity. Qed.

Example ext_of_dotted_directory : GoStrings.Ext "/in.d/song" = "".
Proof. reflexivity. Qed.

Example ext_is_last_suffix : GoStrings.Ext "/in/a.tar.gz" = ".gz".
Proof. reflexivity. Qed.

Example base_of_path : GoStrings.Base "/in/song.mp3" = "song.mp3".
Proof. reflexivity. Qed.

Example base_of_slashes : GoStrings.Base "///" = "/".
Proof. reflexivity. Qed.

Example dir_of_path : GoStrings.Dir "/store/song.mp3" = "/store".
Proof. reflexivity. Qed.

Example clean_resolves_dots : GoStrings.Clean "/a/../../b/./c//d/" = "/b/c/d".
Proof. reflexivity. Qed.

Example join_cleans : GoStrings.Join ["/store/"; "song.mp3"] = "/store/song.mp3".
Proof. reflexivity. Qed.

Example join_skips_empty : GoStrings.Join [""; "access.log"] = "access.log".
Proof. reflexivity. Qed.

Example equalFold_ignores_case : GoStrings.EqualFold ".MP3" ".mp3" = true.
Proof. reflexivity. Qed.

Example accepted_type : checkFileType Scenario.config "/in/Song.MP3" = true.
Proof. reflexivity. Qed.

Example unsupported_type : checkFileType Scenario.config "/in/tool.exe" = false.
Proof. reflexivity. Qed.

Example no_extension : checkFileType Scenario.config "/in/mp3" = false.
Proof. reflexivity. Qed.

Example mode_append_has_no_permission_bit : permBits ModeAppend = 0%N.
Proof. reflexivity. Qed.

Example size_in_whole_MB :
  result (calculateFileSize "/in/song.mp3") Scenario.fresh = Some 40.
Proof. vm_compute. reflexivity. Qed.

Example size_of_missing_file :
  result (calculateFileSize "/in/nothing.mp3") Scenario.fresh = None.
Proof. vm_compute. reflexivity. Qed.

Example duration_is_not_scanned :
  result (calculateAudioDuration "/in/huge.mp3") Scenario.fresh = Some 0.
Proof. vm_compute. reflexivity. Qed.

Example parse_transfer :
  parseSSHLogLine
    "Accepted publickey for radio from 10.0.0.7 ssh2: SHA256:abcDEF scp: '/in/a b.mp3' x"
  = Some ("abcDEF", "/in/a b.mp3").
Proof. vm_compute. reflexivity. Qed.

(** The greedy [.*] runs to the last fingerprint and the last path. *)
Example parse_takes_last :
  parseSSHLogLine "Accepted publickey for u SHA256:x SHA256:y scp: 'f' scp: 'g'"
  = Some ("y", "g").
Proof. vm_compute. reflexivity. Qed.

Example parse_needs_a_path : parseSSHLogLine "Accepted publickey for u SHA256:x scp: ''" = None.
Proof. vm_compute. reflexivity. Qed.

Example parse_needs_space_after_scp :
  parseSSHLogLine "Accepted publickey for u SHA256:x scp:'/in/f'" = None.
Proof. vm_compute. reflexivity. Qed.

(** Three strikes make a timeout, two timeouts a ban. *)
Definition afterRejection (r : Row) : option Row :=
  db (run (Uploader.processUpload Scenario.config Scenario.formatTime Scenario.fingerprintOf
             "/keys/alice" "/in/tool.exe")
        (Scenario.withLedger [("SHA256:alice", r)] Scenario.fresh)) !! "SHA256:alice".

Example first_strike :
  afterRejection (mkRow 0 0 7 9 None) = Some (mkRow 1 0 7 9 (Some zeroTime)).
Proof. vm_compute. reflexivity. Qed.

Example third_strike_times_out :
  afterRejection (mkRow 2 0 7 9 None) = Some (mkRow 0 1 7 9 (Some zeroTime)).
Proof. vm_compute. reflexivity. Qed.

Example second_timeout_bans : afterRejection (mkRow 2 1 7 9 None) = None.
Proof. vm_compute. reflexivity. Qed.

End Examples.

(* ===================================================================== *)
(** ** Theorems: the Admission Evaluator                                  *)
(* ===================================================================== *)

Module Admission.
Import Os MFacts Footprint Uploader Ledger Evaluation.
Local Open Scope list_scope.

Section WithConfig.
Variable config : Config.
Variable formatRFC3339 : Time -> string.
Variable fingerprintSSHKey : string -> option string.

Abbreviation processUpload := (processUpload config formatRFC3339 fingerprintSSHKey).

(** The calls that do not write to the ledger. *)
Definition readsLedgerOnly (k : Kind) : bool :=
  match k with
  | KUpdate | KDelete => false
  | _ => true
  end.

(** C9: a candidate whose key material yields no fingerprint is dropped
    at once. The only thing [processUpload] does is print one line on
    the standard logger: the ledger is neither read nor written (no
    statement reaches the store), so no row is created and no strike is
    recorded, and no file is touched. *)
Theorem unreadable_credential_charges_nobody key filePath w :
  fingerprintSSHKey key = None ->
  result (processUpload key filePath) w = DroppedCredential /\
  db (run (processUpload key filePath) w) = db w /\
  dbFaults (run (processUpload key filePath) w) = dbFaults w /\
  fs (run (processUpload key filePath) w) = fs w /\
  since w (run (processUpload key filePath) w) =
    [ELogPrintf "Error calculating SSH key fingerprint"].
Proof.
  intros Hkey. unfold Uploader.processUpload. rewrite Hkey.
  rewrite result_bind, run_bind, run_logPrintf, result_ret, run_ret.
  split_and!; try done. apply extends_emit.
Qed.

(** C5: when the checks have passed and the move into the storage
    directory fails, [processUpload] returns before its [UPDATE]: no
    statement that writes a counter reaches the store. Every row the table
    held is unchanged; the identity's ledger row (the stored row, or the
    default row of lookup-or-insert for an identity seen for the first
    time) carries the same dailyUpload, dailyAirtime and lastUpload as
    before the evaluation; and no file has moved. *)
Theorem failed_move_commits_nothing key filePath w :
  result (processUpload key filePath) w = MoveFailed ->
  (forall user r, db w !! user = Some r ->
     db (run (processUpload key filePath) w) !! user = Some r) /\
  (forall user,
     ledgerRow (db (run (processUpload key filePath) w)) user = ledgerRow (db w) user) /\
  calls readsLedgerOnly w (run (processUpload key filePath) w) /\
  fs (run (processUpload key filePath) w) = fs w.
Proof.
  intros Ho. pose proof (processUpload_evaluation config formatRFC3339 fingerprintSSHKey
                           key filePath w) as Hev.
  rewrite Ho in Hev. remember (run (processUpload key filePath) w) as w' eqn:Hw'.
  clear Hw' Ho.
  inversion Hev as [| | | | | | | fp u w1 fileSize w2 duration w3 w4
                      Hfp Hu Hw1 Hty Hsz Hw2 Hsx Hdur Hw3 Hax Hmv Hw4 |]; subst.
  destruct (loaded fp w u Hu) as [_ Hdb].
  set (w1 := run (getUserData fp) w) in *.
  set (w2 := run (calculateFileSize filePath) w1) in *.
  set (w3 := run (calculateAudioDuration filePath) w2) in *.
  set (w4 := run (rename filePath (destPath config filePath)) (run timeNow w3)) in *.
  assert (Hd : db w4 = <[fp := ledgerRow (db w) fp]> (db w)).
  { rewrite <- Hdb.
    transitivity (db (run timeNow w3));
      [apply (sameLedger_db _ _ (sameLedger_rename _ _)) |].
    change (db (run timeNow w3)) with (db w3).
    transitivity (db w2);
      [apply (sameLedger_db _ _ (UploaderFootprint.sameLedger_calculateAudioDuration _)) |].
    apply (sameLedger_db _ _ (UploaderFootprint.sameLedger_calculateFileSize _)). }
  split_and!.
  - intros user r Hr. cbn. rewrite Hd. by apply loaded_keeps_rows.
  - intros user. cbn. rewrite Hd. apply loaded_ledgerRow.
  - transitivity w1; [by apply UploaderFootprint.calls_getUserData |].
    transitivity w2; [by apply UploaderFootprint.calls_calculateFileSize |].
    transitivity w3; [by apply UploaderFootprint.calls_calculateAudioDuration |].
    transitivity (run timeNow w3); [apply calls_timeNow |].
    transitivity w4; [by apply calls_rename |].
    by apply emits_emit.
  - cbn. unfold w4. rewrite rename_failed by done. cbn.
    apply sameFiles_noPath.
    transitivity w1; [apply UploaderFootprint.sameFiles_getUserData |].
    transitivity w2; [apply UploaderFootprint.sameFiles_calculateFileSize |].
    apply UploaderFootprint.sameFiles_calculateAudioDuration.
Qed.

(** *** The order of the checks *)

(** Section 4.4 in its own words: type check, size check, duration check,
    in this order; the first check that fails is the decision. *)
Definition admissionDecision (typeOk sizeOk airtimeOk : bool) : Outcome :=
  if negb typeOk then RejectedUnsupportedType
  else if negb sizeOk then RejectedSizeQuota
  else if negb airtimeOk then RejectedAirtimeQuota
  else Accepted.

Definition isDecision (o : Outcome) : bool :=
  match o with
  | RejectedUnsupportedType | RejectedSizeQuota | RejectedAirtimeQuota | Accepted => true
  | _ => false
  end.

(** What the size check and the airtime check say of a file for a loaded
    ledger row (false when the size or the duration cannot be had). *)
Definition sizeWithinQuota (u : UserData) (f : gmap string Node) (filePath : string) : bool :=
  match sizeMB f filePath with
  | Some fileSize => negb (sizeExceeded config u fileSize)
  | None => false
  end.

Definition airtimeWithinQuota (u : UserData) (f : gmap string Node) (filePath : string) : bool :=
  match durationOf f filePath with
  | Some duration => negb (airtimeExceeded config u duration)
  | None => false
  end.

(** The quota an identity has used up according to its row. *)
Definition sameQuota (r r' : Row) : Prop :=
  daily_upload r' = daily_upload r /\ daily_airtime r' = daily_airtime r.

Lemma escalated_quota u :
  DailyUpload (escalated config u) = DailyUpload u /\
  DailyAirtime (escalated config u) = DailyAirtime u.
Proof. unfold escalated. by destruct (reachesTimeout config u). Qed.

(** C3: the checks run in the order type, size, airtime and the first that
    fails decides. The exit of [processUpload] is the one [firstFailingCheck]
    computes, which tries the type before the size and the size before the
    airtime; whenever a decision is reached it is the decision of section
    4.4 for what the three checks say; the calls that take the size
    ([os.Stat]) and probe the duration ([ffprobe]) are made in this order
    and only as far as the exit requires; and for a file that fails the type
    check neither call is made and no row of the ledger has its dailyUpload
    or dailyAirtime changed. *)
Theorem checks_run_in_fixed_order key filePath w :
  result (processUpload key filePath) w
    = firstFailingCheck config fingerprintSSHKey key filePath w /\
  (forall fp u,
     fingerprintSSHKey key = Some fp -> result (getUserData fp) w = Some u ->
     isDecision (result (processUpload key filePath) w) = true ->
     result (processUpload key filePath) w =
       admissionDecision (checkFileType config filePath)
         (sizeWithinQuota u (fs w) filePath) (airtimeWithinQuota u (fs w) filePath)) /\
  checkCalls (since w (run (processUpload key filePath) w))
    = checksRun (result (processUpload key filePath) w) filePath /\
  (checkFileType config filePath = false ->
     checkCalls (since w (run (processUpload key filePath) w)) = [] /\
     forall user r',
       db (run (processUpload key filePath) w) !! user = Some r' ->
       sameQuota (ledgerRow (db w) user) r').
Proof.
  pose proof (processUpload_result config formatRFC3339 fingerprintSSHKey key filePath w)
    as Hres.
  pose proof (processUpload_checked config formatRFC3339 fingerprintSSHKey key filePath w)
    as [_ Hchk].
  split_and!; [exact Hres | | exact Hchk |].
  - intros fp u Hfp Hu. rewrite Hres. unfold firstFailingCheck, admissionDecision,
      sizeWithinQuota, airtimeWithinQuota. rewrite Hfp, Hu.
    destruct (checkFileType config filePath); cbn [negb]; [| done].
    destruct (sizeMB (fs w) filePath) as [fileSize |]; [| done].
    destruct (sizeExceeded config u fileSize); cbn [negb]; [done |].
    destruct (durationOf (fs w) filePath) as [duration |]; [| done].
    destruct (airtimeExceeded config u duration); cbn [negb]; [done |].
    by destruct (canRename (fs w) filePath (destPath config filePath)).
  - intros Hty.
    assert (Hexit : checksRun (result (processUpload key filePath) w) filePath = [] /\
                    result (processUpload key filePath) w <> Accepted).
    { rewrite Hres. unfold firstFailingCheck. rewrite Hty. cbn [negb].
      destruct (fingerprintSSHKey key); [| done].
      by destruct (result (getUserData _) w). }
    destruct Hexit as [Hnone Hnot]. split; [by rewrite Hchk |].
    apply (processUpload_invariant config formatRFC3339 fingerprintSSHKey
             (fun _ => True) (fun user r' => sameQuota (ledgerRow (db w) user) r'));
      try done.
    + intros user Hnew. unfold ledgerRow. by rewrite Hnew.
    + intros fp r message w0 _ [Hup Hair] Hw0. apply reject_allRows; [| done].
      destruct (escalated_quota (userDataOfRow r)) as [Hup' Hair'].
      unfold sameQuota. cbn [daily_upload daily_airtime rowOfUserData].
      rewrite Hup', Hair'. by cbn [DailyUpload DailyAirtime userDataOfRow].
    + intros user r Hr. unfold ledgerRow. by rewrite Hr.
Qed.

(** *** Rejections *)

(** The calls of a rejection: it reads, writes the ledger and the audit
    log, and prints; it never moves a file ([os.Remove] is called nowhere in
    the uploader). *)
Definition neverMoves (k : Kind) : bool :=
  match k with
  | KRename => false
  | _ => true
  end.

(** C4, as the code has it: whatever the reason of a rejection, the
    candidate file is left in place. [processUpload] makes no call that
    moves or deletes a file, and every file but the audit log is as it was;
    an unsupported-type file is not deleted either. With a store that
    executes the statements, the identity's row afterwards holds the strikes
    incremented by exactly 1, unless the increment reaches the strike
    threshold: then strikes is 0 and timeouts is one more, or, when that
    reaches the timeout threshold, the row is gone. *)
Theorem rejected_file_stays_in_place key filePath w :
  isRejection (result (processUpload key filePath) w) = true ->
  (forall p, p <> UploaderFootprint.auditPath config ->
     fs (run (processUpload key filePath) w) !! p = fs w !! p) /\
  calls neverMoves w (run (processUpload key filePath) w) /\
  (healthy w ->
   forall fp, fingerprintSSHKey key = Some fp ->
     db (run (processUpload key filePath) w) !! fp =
       (if reachesBan config (userDataOfRow (ledgerRow (db w) fp)) then None
        else Some (rowOfUserData (escalated config (userDataOfRow (ledgerRow (db w) fp))))) /\
     Strikes (escalated config (userDataOfRow (ledgerRow (db w) fp))) =
       (if reachesTimeout config (userDataOfRow (ledgerRow (db w) fp)) then 0
        else GoInt.incr (strikes (ledgerRow (db w) fp)))).
Proof.
  intros Hrej.
  destruct (rejection_shape config formatRFC3339 fingerprintSSHKey key filePath w Hrej)
    as (fp & u & w0 & message & Hfp & Hu & Hled & Hfs & Hcalls & ->).
  destruct (loaded fp w u Hu) as [Hueq Hdb].
  split_and!.
  - intros p Hp.
    rewrite (UploaderFootprint.sameFiles_reject config formatRFC3339 fp u message w0 p Hp).
    by rewrite Hfs.
  - transitivity w0.
    + eapply emits_weaken; [| exact Hcalls]. intros e. cbn. by destruct (kind e).
    + by apply UploaderFootprint.calls_reject.
  - intros Hw fp' Hfp'. assert (fp' = fp) by congruence. subst fp'.
    rewrite <- Hueq. split.
    + assert (Hw0 : healthy w0).
      { unfold healthy. rewrite (proj2 Hled). by apply getUserData_healthy. }
      destruct (reject_healthy config formatRFC3339 fp u message w0 Hw0) as [_ ->].
      rewrite (proj1 Hled), Hdb.
      destruct (reachesBan config u).
      * apply lookup_delete_eq.
      * unfold updateRow. rewrite lookup_insert_eq. apply lookup_insert_eq.
    + unfold escalated. destruct (reachesTimeout config u); [done |].
      by subst u.
Qed.

(** *** Small files *)

(** C10, as the code has it: the size charged is the byte size divided by
    1024*1024 with the remainder dropped, so a file smaller than 1 MiB is
    charged 0. For such a file the size check compares the identity's
    dailyUpload as it stands with the ceiling: it rejects exactly when the
    ledger already exceeds the ceiling, so never while dailyUpload is within
    it; and when the file is accepted the identity's dailyUpload stays as it
    was. *)
Theorem small_file_is_charged_nothing key filePath w perm c :
  fs w !! GoStrings.Clean filePath = Some (Regular perm c) ->
  0 <= contentSize c < 1024 * 1024 ->
  result (calculateFileSize filePath) w = Some 0 /\
  forall fp,
    fingerprintSSHKey key = Some fp ->
    GoInt.in_range (daily_upload (ledgerRow (db w) fp)) ->
    (daily_upload (ledgerRow (db w) fp) <= MaxUserUploadSize config ->
     result (processUpload key filePath) w <> RejectedSizeQuota) /\
    (result (processUpload key filePath) w = Accepted ->
     forall r',
       db (run (processUpload key filePath) w) !! fp = Some r' ->
       daily_upload r' = daily_upload (ledgerRow (db w) fp)).
Proof.
  intros Hfile Hsmall.
  assert (Hsize : sizeMB (fs w) filePath = Some 0).
  { unfold sizeMB, statSize. rewrite Hfile. f_equal. by apply Z.quot_small. }
  split; [by rewrite calculateFileSize_result |].
  intros fp Hfp Hrange. split.
  - intros Hle. rewrite (processUpload_result config formatRFC3339 fingerprintSSHKey).
    unfold firstFailingCheck. rewrite Hfp, Hsize.
    destruct (result (getUserData fp) w) as [u |] eqn:Hu; [| done].
    destruct (loaded fp w u Hu) as [Hueq _].
    destruct (negb (checkFileType config filePath)); [done |].
    assert (Hok : sizeExceeded config u 0 = false).
    { unfold sizeExceeded. subst u. cbn [DailyUpload userDataOfRow].
      rewrite GoInt.add_0_r by done. rewrite Z.gtb_ltb. apply Z.ltb_ge. lia. }
    rewrite Hok. destruct (durationOf (fs w) filePath); [| done].
    destruct (airtimeExceeded config u z); [done |].
    by destruct (canRename (fs w) filePath (destPath config filePath)).
  - intros Ho r'.
    pose proof (processUpload_evaluation config formatRFC3339 fingerprintSSHKey
                  key filePath w) as Hev.
    rewrite Ho in Hev.
    remember (run (processUpload key filePath) w) as w' eqn:Hw'. clear Hw' Ho.
    inversion Hev as
      [ | | | | | | | |
        fp' u w1 fileSize w2 duration w3 w4 Hfp' Hu Hw1 Hty Hsz Hw2 Hsx Hdur Hw3 Hax Hmv Hw4 ].
    assert (fp' = fp) by congruence. subst fp'.
    destruct (loaded fp w u Hu) as [Hueq Hdb].
    rewrite calculateFileSize_result in Hsz. subst w1. rewrite getUserData_fs in Hsz.
    assert (fileSize = 0) by congruence. subst fileSize.
    set (wl := run (logAction config formatRFC3339 fp "File uploaded successfully") w4).
    assert (Hwl : db wl = <[fp := ledgerRow (db w) fp]> (db w)).
    { unfold wl. rewrite logAction_db. subst w4.
      rewrite (sameLedger_db _ _ (sameLedger_rename _ _)).
      change (db (run timeNow w3)) with (db w3). subst w3.
      rewrite (sameLedger_db _ _ (UploaderFootprint.sameLedger_calculateAudioDuration _)).
      subst w2.
      by rewrite (sameLedger_db _ _ (UploaderFootprint.sameLedger_calculateFileSize _)). }
    destruct (updateUserData_db fp (charged u 0 duration (now w3)) wl) as [-> | ->];
      rewrite Hwl.
    + rewrite lookup_insert_eq. by intros [= <-].
    + unfold updateRow. rewrite lookup_insert_eq, lookup_insert_eq. intros [= <-].
      cbn [daily_upload rowOfUserData charged DailyUpload set_LastUpload set_DailyAirtime
             set_DailyUpload].
      subst u. cbn [DailyUpload userDataOfRow]. by apply GoInt.add_0_r.
Qed.

(** *** The probed duration *)

(** Whatever [ffprobe] prints, the duration [calculateAudioDuration]
    returns is 0: the scan into the [int] variable fails on its verb. *)
Lemma calculateAudioDuration_is_zero filePath w duration :
  result (calculateAudioDuration filePath) w = Some duration -> duration = 0.
Proof.
  rewrite calculateAudioDuration_result. unfold durationOf.
  destruct (probeOutput (fs w) filePath); [| done]. by intros [= <-].
Qed.

End WithConfig.

Lemma unreadable_credential_charges_nobody_witness :
  result (Uploader.processUpload Scenario.config Scenario.formatTime Scenario.fingerprintOf
            "/keys/mallory" "/in/song.mp3") Scenario.fresh = DroppedCredential /\
  db (run (Uploader.processUpload Scenario.config Scenario.formatTime Scenario.fingerprintOf
            "/keys/mallory" "/in/song.mp3") Scenario.fresh) = ∅.
Proof.
  destruct (unreadable_credential_charges_nobody Scenario.config Scenario.formatTime
              Scenario.fingerprintOf "/keys/mallory" "/in/song.mp3" Scenario.fresh)
    as (Ho & Hd & _); [reflexivity |].
  split; [exact Ho | exact Hd].
Defined.

Lemma failed_move_commits_nothing_witness :
  result (Uploader.processUpload Scenario.config Scenario.formatTime Scenario.fingerprintOf
            "/keys/alice" "/in/song.mp3") Scenario.noStorage = MoveFailed /\
  db (run (Uploader.processUpload Scenario.config Scenario.formatTime Scenario.fingerprintOf
            "/keys/alice" "/in/song.mp3") Scenario.noStorage) !! "SHA256:alice"
    = Some defaultRow /\
  fs (run (Uploader.processUpload Scenario.config Scenario.formatTime Scenario.fingerprintOf
            "/keys/alice" "/in/song.mp3") Scenario.noStorage) = fs Scenario.noStorage.
Proof.
  assert (Ho : result (Uploader.processUpload Scenario.config Scenario.formatTime
                         Scenario.fingerprintOf "/keys/alice" "/in/song.mp3")
                 Scenario.noStorage = MoveFailed) by (vm_compute; reflexivity).
  destruct (failed_move_commits_nothing Scenario.config Scenario.formatTime
              Scenario.fingerprintOf "/keys/alice" "/in/song.mp3" Scenario.noStorage Ho)
    as (_ & Hrow & _ & Hfs).
  split_and!; [exact Ho | | exact Hfs].
  specialize (Hrow "SHA256:alice"). unfold ledgerRow in Hrow.
  change (db Scenario.noStorage !! "SHA256:alice") with (@None Row) in Hrow.
  vm_compute. reflexivity.
Defined.

(** Evaluations in the scenario worlds. *)
Abbreviation evaluate cfg key filePath :=
  (Uploader.processUpload cfg Scenario.formatTime Scenario.fingerprintOf key filePath).

Lemma checks_run_in_fixed_order_witness :
  result (evaluate Scenario.config "/keys/alice" "/in/tool.exe") Scenario.fresh
    = RejectedUnsupportedType /\
  checkCalls (since Scenario.fresh
                (run (evaluate Scenario.config "/keys/alice" "/in/tool.exe") Scenario.fresh))
    = [].
Proof.
  destruct (checks_run_in_fixed_order Scenario.config Scenario.formatTime
              Scenario.fingerprintOf "/keys/alice" "/in/tool.exe" Scenario.fresh)
    as (Hres & _ & _ & Htype).
  split; [rewrite Hres; vm_compute; reflexivity |].
  apply Htype. vm_compute. reflexivity.
Defined.

Lemma rejected_file_stays_in_place_witness :
  fs (run (evaluate Scenario.config "/keys/alice" "/in/huge.mp3") Scenario.fresh)
    !! "/in/huge.mp3" = fs Scenario.fresh !! "/in/huge.mp3" /\
  db (run (evaluate Scenario.config "/keys/alice" "/in/huge.mp3") Scenario.fresh)
    !! "SHA256:alice" = Some (mkRow 1 0 0 0 (Some zeroTime)).
Proof.
  destruct (rejected_file_stays_in_place Scenario.config Scenario.formatTime
              Scenario.fingerprintOf "/keys/alice" "/in/huge.mp3" Scenario.fresh)
    as (Hfs & _ & Hdb); [vm_compute; reflexivity |].
  split.
  - apply Hfs. vm_compute. discriminate.
  - destruct (Hdb eq_refl "SHA256:alice" eq_refl) as [Hrow _].
    rewrite Hrow. vm_compute. reflexivity.
Defined.

(** C4 as stated fails twice. A file rejected for its type is not deleted:
    it is still in the inbound directory when [processUpload] returns. And
    a rejection for the size quota that brings the strikes to the threshold
    leaves the strikes at 0, not one more. *)
Lemma unsupported_file_is_not_deleted :
  (result (evaluate Scenario.config "/keys/alice" "/in/tool.exe") Scenario.fresh
     = RejectedUnsupportedType /\
   fs (run (evaluate Scenario.config "/keys/alice" "/in/tool.exe") Scenario.fresh)
     !! "/in/tool.exe" = Some (Regular 420 (Media 4096 None))) /\
  (result (evaluate Scenario.config "/keys/alice" "/in/huge.mp3")
     (Scenario.withLedger [("SHA256:alice", mkRow 2 0 0 0 None)] Scenario.fresh)
     = RejectedSizeQuota /\
   strikes <$> (db (run (evaluate Scenario.config "/keys/alice" "/in/huge.mp3")
                   (Scenario.withLedger [("SHA256:alice", mkRow 2 0 0 0 None)] Scenario.fresh))
                  !! "SHA256:alice") = Some 0).
Proof. vm_compute. repeat split. Qed.

Lemma small_file_is_charged_nothing_witness :
  result (calculateFileSize "/in/jingle.mp3") Scenario.fresh = Some 0 /\
  result (evaluate Scenario.config "/keys/alice" "/in/jingle.mp3") Scenario.fresh
    <> RejectedSizeQuota.
Proof.
  destruct (small_file_is_charged_nothing Scenario.config Scenario.formatTime
              Scenario.fingerprintOf "/keys/alice" "/in/jingle.mp3" Scenario.fresh
              420%N (Media 500000 (Some ("3.200000" ++ newline)%string)))
    as [Hsize Hrest]; [vm_compute; reflexivity | cbn; lia |].
  split; [exact Hsize |].
  destruct (Hrest "SHA256:alice" eq_refl) as [Hrej _].
  - vm_compute. split; discriminate.
  - apply Hrej. vm_compute. discriminate.
Defined.

(** C10 as stated fails for an identity whose dailyUpload already exceeds
    the ceiling (40 MB used, the quota since lowered to 30 MB): a file of
    500000 bytes is charged 0 and is rejected for the size quota all the
    same. *)
Lemma small_file_can_be_rejected_for_size :
  result (calculateFileSize "/in/jingle.mp3")
    (Scenario.withLedger [("SHA256:alice", mkRow 0 0 40 0 None)] Scenario.fresh) = Some 0 /\
  result (evaluate Scenario.configLowQuota "/keys/alice" "/in/jingle.mp3")
    (Scenario.withLedger [("SHA256:alice", mkRow 0 0 40 0 None)] Scenario.fresh)
    = RejectedSizeQuota.
Proof. vm_compute. split; reflexivity. Qed.

(** C8 at its own input: a fresh identity, quotas of 100 MB and 1000 s, an
    accepted-type file of 40 MB for which ffprobe prints 120.000000. The
    file is accepted and dailyUpload becomes 40, but dailyAirtime stays 0:
    the 120 seconds are never charged. *)
Lemma scenario_A_charges_no_airtime :
  probeOutput (fs Scenario.fresh) "/in/song.mp3" = Some ("120.000000" ++ newline)%string /\
  result (evaluate Scenario.config "/keys/alice" "/in/song.mp3") Scenario.fresh = Accepted /\
  db (run (evaluate Scenario.config "/keys/alice" "/in/song.mp3") Scenario.fresh)
    !! "SHA256:alice" = Some (mkRow 0 0 40 0 (Some 1000)).
Proof. vm_compute. repeat split. Qed.

End Admission.

(* ===================================================================== *)
(** ** Theorems: the Escalation Controller                                *)
(* ===================================================================== *)

Module Escalation.
Import Os MFacts Footprint Uploader Ledger Evaluation.
Local Open Scope list_scope.

Section WithConfig.
Variable config : Config.
Variable formatRFC3339 : Time -> string.
Variable fingerprintSSHKey : string -> option string.

Abbreviation reject := (reject config formatRFC3339).
Abbreviation processUpload := (processUpload config formatRFC3339 fingerprintSSHKey).

(** *** Strikes *)

Definition strikesBelowThreshold (r : Row) : Prop :=
  0 <= strikes r < StrikesBeforeTimeOut config.

Lemma escalated_strikes (u : UserData) :
  1 <= StrikesBeforeTimeOut config ->
  GoInt.in_range (StrikesBeforeTimeOut config) ->
  0 <= Strikes u < StrikesBeforeTimeOut config ->
  0 <= Strikes (escalated config u) < StrikesBeforeTimeOut config.
Proof.
  intros H1 [_ Hmax] Hu. unfold escalated, reachesTimeout.
  assert (Hincr : Strikes (struck u) = Strikes u + 1).
  { cbn. apply GoInt.incr_small. unfold GoInt.intMin, GoInt.intMax in *. lia. }
  destruct (Strikes (struck u) >=? StrikesBeforeTimeOut config) eqn:Hge.
  - cbn. lia.
  - rewrite Hincr in *. rewrite Z.geb_leb in Hge. apply Z.leb_gt in Hge. lia.
Qed.

(** C1: strikes stay in [0, strikeThreshold). If the threshold is at least 1,
    then for every identity whose row, if it has one, has its strikes in
    that range: the row it has after a call of [processUpload], if it has
    one, has its strikes in that range again (and every call returns); and
    every [UPDATE] the call issues for the identity carries strikes in that
    range. A strike count that reaches the threshold is reset to 0 by
    [timeOutUser] before the row is persisted. The table [initDatabase]
    creates is empty, so the range holds of every row the uploader ever
    writes; it holds whichever statements the store fails. *)
Theorem strikes_stay_below_threshold key filePath w user :
  1 <= StrikesBeforeTimeOut config ->
  GoInt.in_range (StrikesBeforeTimeOut config) ->
  (forall r, db w !! user = Some r -> strikesBelowThreshold r) ->
  (forall r',
     db (run (processUpload key filePath) w) !! user = Some r' ->
     strikesBelowThreshold r') /\
  (forall r',
     EUpdate user r' ∈ since w (run (processUpload key filePath) w) ->
     strikesBelowThreshold r').
Proof.
  intros H1 Hrange Hw.
  assert (Hdef : strikesBelowThreshold defaultRow)
    by (unfold strikesBelowThreshold; cbn; lia).
  assert (Hrej : forall fp r,
            (fp = user -> strikesBelowThreshold r) ->
            fp = user ->
            strikesBelowThreshold (rowOfUserData (escalated config (userDataOfRow r)))).
  { intros fp r Hr Heq. unfold strikesBelowThreshold. cbn [strikes rowOfUserData].
    apply escalated_strikes; try done. by apply Hr. }
  split.
  - intros r' Hr'.
    refine (processUpload_invariant config formatRFC3339 fingerprintSSHKey
              (fun _ => True) (fun user' r => user' = user -> strikesBelowThreshold r)
              key filePath w _ _ _ _ _ I _ user r' Hr' eq_refl); try done.
    + intros fp r message w0 _ Hr Hw0. apply reject_allRows; [| done]. by apply Hrej.
    + intros user' r Hr ->. by apply Hw.
  - intros r' Hr'.
    destruct (processUpload_writes config formatRFC3339 fingerprintSSHKey
                (fun user' r => user' = user -> strikesBelowThreshold r) key filePath w)
      as [_ Hall]; try done.
    + intros fp ->. unfold ledgerRow. destruct (db w !! user) eqn:E; cbn; auto.
    + rewrite Forall_forall in Hall. by apply (Hall _ Hr').
Qed.

(** *** Timeouts *)






End WithConfig.

(** The third strike of an identity: the row persisted has strikes 0 and
    one timeout. *)
Lemma strikes_stay_below_threshold_witness :
  db (run (Uploader.processUpload Scenario.config Scenario.formatTime
             Scenario.fingerprintOf "/keys/alice" "/in/tool.exe")
        (Scenario.withLedger [("SHA256:alice", mkRow 2 0 0 0 None)] Scenario.fresh))
    !! "SHA256:alice" = Some (mkRow 0 1 0 0 (Some zeroTime)) /\
  strikesBelowThreshold Scenario.config (mkRow 0 1 0 0 (Some zeroTime)).
Proof.
  assert (Hrow : db (run (Uploader.processUpload Scenario.config Scenario.formatTime
                            Scenario.fingerprintOf "/keys/alice" "/in/tool.exe")
                       (Scenario.withLedger [("SHA256:alice", mkRow 2 0 0 0 None)]
                          Scenario.fresh))
                   !! "SHA256:alice" = Some (mkRow 0 1 0 0 (Some zeroTime)))
    by (vm_compute; reflexivity).
  split; [exact Hrow |].
  refine (proj1 (strikes_stay_below_threshold Scenario.config Scenario.formatTime
                   Scenario.fingerprintOf "/keys/alice" "/in/tool.exe" _ "SHA256:alice"
                   _ _ _) _ Hrow).
  - vm_compute. discriminate.
  - vm_compute. split; discriminate.
  - intros r Hr. vm_compute in Hr. injection Hr as <-.
    unfold strikesBelowThreshold. cbn. lia.
Defined.




End Escalation.

(* ===================================================================== *)
(** ** Theorems: the Audit Log Writer                                     *)
(* ===================================================================== *)

Module AuditLog.
Import Os MFacts Footprint Uploader.
Local Open Scope list_scope.

Section WithConfig.
Variable config : Config.
Variable formatRFC3339 : Time -> string.

Abbreviation logAction := (logAction config formatRFC3339).
Abbreviation auditPath := (UploaderFootprint.auditPath config).

(** What [logAction] does to an audit log that exists: when the write is
    permitted the file holds the new entry and nothing else, and when it is
    not the file is as it was. In neither case does it hold the old entries
    followed by the new one. *)
Lemma logAction_overwrites user action w perm old :
  fs w !! auditPath = Some (Regular perm (Text old)) ->
  fs (run (logAction user action) w) !! auditPath =
    Some (Regular perm
            (Text (if mayWrite w perm
                   then auditEntry formatRFC3339 (now w) user action
                   else old))).
Proof.
  unfold UploaderFootprint.auditPath. intros Hold.
  unfold Uploader.logAction, writeFile, timeNow, logPrintf, event, modify, state, run,
    mbind, M_bind, mayWrite.
  cbn [fs privileged now set_now emit fst snd]. rewrite Hold.
  destruct (privileged w || N.testbit perm 7); cbn [fs set_fs emit snd mret M_ret].
  - by rewrite lookup_insert_eq.
  - done.
Qed.

(** The first entry creates the log with the permission bits of
    [os.ModeAppend], of which none is a permission: mode 0. *)
Lemma logAction_creates user action w :
  fs w !! auditPath = None ->
  isDirectory (fs w) (GoStrings.Dir auditPath) = true ->
  fs (run (logAction user action) w) !! auditPath =
    Some (Regular 0 (Text (auditEntry formatRFC3339 (now w) user action))).
Proof.
  unfold UploaderFootprint.auditPath. intros Hnone Hdir.
  unfold Uploader.logAction, writeFile, timeNow, logPrintf, event, modify, state, run,
    mbind, M_bind.
  cbn [fs privileged now set_now emit fst snd]. rewrite Hnone, Hdir.
  cbn [fs set_fs emit snd mret M_ret]. by rewrite lookup_insert_eq.
Qed.

End WithConfig.

Abbreviation record user action :=
  (Uploader.logAction Scenario.config Scenario.formatTime user action).

(** The same start as [Scenario.fresh], for a process that is not root. *)
Definition unprivileged : World :=
  mkWorld (fs Scenario.fresh) ∅ false ∅ [] 1000 [].

(** C6 at a concrete input: two entries recorded one after the other. After
    the first the log holds it; after the second the log holds the second
    entry alone, the first is gone. For a process that is not root the
    second write is refused (the log was created with mode 0) and the log
    holds the first entry alone. Either way the log has one entry after two
    records. *)
Lemma second_audit_entry_replaces_first :
  let w1 := run (record "SHA256:alice" "Exceeded daily upload size limit") Scenario.fresh in
  let w2 := run (record "SHA256:alice" "User timed out") w1 in
  let u1 := run (record "SHA256:alice" "Exceeded daily upload size limit") unprivileged in
  let u2 := run (record "SHA256:alice" "User timed out") u1 in
  fs w1 !! "/var/log/riverrun/access.log" =
    Some (Regular 0 (Text ("T1000 - SHA256:alice: Exceeded daily upload size limit"
                             ++ newline)%string)) /\
  fs w2 !! "/var/log/riverrun/access.log" =
    Some (Regular 0 (Text ("T1001 - SHA256:alice: User timed out" ++ newline)%string)) /\
  fs u2 !! "/var/log/riverrun/access.log" =
    Some (Regular 0 (Text ("T1000 - SHA256:alice: Exceeded daily upload size limit"
                             ++ newline)%string)) /\
  since u1 u2 =
    [EWriteFile "/var/log/riverrun/access.log"
       ("T1001 - SHA256:alice: User timed out" ++ newline)%string;
     ELogPrintf "Failed to log action"].
Proof. vm_compute. repeat split. Qed.

End AuditLog.

(* ===================================================================== *)
(** ** Theorems: the Log-Tail Event Source                                *)
(* ===================================================================== *)

Module LogTail.
Import Os MFacts Footprint Uploader.
Local Open Scope list_scope.

Section WithConfig.
Variable config : Config.
Variable formatRFC3339 : Time -> string.
Variable fingerprintSSHKey : string -> option string.

Abbreviation scanLines := (scanLines config formatRFC3339 fingerprintSSHKey).
Abbreviation monitorSSHLogs := (monitorSSHLogs config formatRFC3339 fingerprintSSHKey).

(** The scanner loop ends at the first end-of-file: what is appended to the
    log after it is never read. *)
Lemma scanLines_stops_at_eof (lines : list string) (later : list Read) w :
  scanLines (map Line lines ++ Eof :: later) w = scanLines (map Line lines) w.
Proof.
  revert w. induction lines as [| line lines IH]; intros w; [done |].
  cbn [map app Uploader.scanLines]. unfold mbind, M_bind.
  destruct (handleLogLine config formatRFC3339 fingerprintSSHKey line w) as [[] w1].
  apply IH.
Qed.

(** [monitorSSHLogs] returns once it has read the log to its end. *)
Lemma monitorSSHLogs_returns_at_eof logFile (lines : list string) (later : list Read) w :
  feeds w !! logFile = Some (map Line lines ++ Eof :: later) ->
  monitorSSHLogs logFile w = (Returned, run (scanLines (map Line lines)) w).
Proof.
  intros Hfeed. unfold Uploader.monitorSSHLogs, openFeed, gets, mbind, M_bind.
  rewrite Hfeed. rewrite scanLines_stops_at_eof. unfold run.
  by destruct (scanLines (map Line lines) w) as [[] w1].
Qed.

End WithConfig.

Definition authLog : string := "/var/log/auth.log".

Definition transferLine : string :=
  "sshd[812]: Accepted publickey for radio from 10.0.0.7 port 50022 ssh2: ED25519 SHA256:alice scp: '/in/song.mp3'".

Definition withAuthLog (reads : list Read) : World :=
  mkWorld (fs Scenario.fresh) {[ authLog := reads ]} true ∅ [] 1000 [].

Abbreviation monitor :=
  (Uploader.monitorSSHLogs Scenario.config Scenario.formatTime Scenario.fingerprintOf).

(** C7 at a concrete input: the authentication log is empty when the
    monitor starts and a transfer is logged afterwards. The monitor returns
    at the end-of-file and the transfer is never evaluated: no call is
    made, the ledger stays empty and the file stays in the inbound
    directory. Had the line been there at the start, the upload would have
    been evaluated and accepted. *)
Lemma transfer_logged_after_eof_is_never_seen :
  parseSSHLogLine transferLine = Some ("alice", "/in/song.mp3") /\
  result (monitor authLog) (withAuthLog [Eof; Line transferLine]) = Returned /\
  run (monitor authLog) (withAuthLog [Eof; Line transferLine])
    = withAuthLog [Eof; Line transferLine] /\
  db (run (monitor authLog) (withAuthLog [Line transferLine; Eof])) !! "SHA256:alice"
    = Some (mkRow 0 0 40 0 (Some 1000)).
Proof. vm_compute. repeat split. Qed.

End LogTail.

(* ===================================================================== *)
(** ** Facts about strings                                                *)
(* ===================================================================== *)

Module StringFacts.

Lemma append_cons c (s t : string) : String c s ++ t = String c (s ++ t).
Proof. reflexivity. Qed.

Lemma append_nil_l (s : string) : "" ++ s = s.
Proof. reflexivity. Qed.

Lemma append_nil_r (s : string) : s ++ "" = s.
Proof. induction s as [| c s IH]; [done |]. by rewrite append_cons, IH. Qed.

Lemma append_assoc (s t u : string) : (s ++ t) ++ u = s ++ t ++ u.
Proof. induction s as [| c s IH]; [done |]. by rewrite !append_cons, IH. Qed.

Lemma length_append (s t : string) :
  String.length (s ++ t) = (String.length s + String.length t)%nat.
Proof. induction s as [| c s IH]; [done |]. rewrite append_cons. simpl. by rewrite IH. Qed.

(** Every byte of [s] satisfies [p]. *)
Fixpoint allBytes (p : ascii -> bool) (s : string) : bool :=
  match s with
  | EmptyString => true
  | String c s' => p c && allBytes p s'
  end.

Lemma allBytes_append p s t : allBytes p (s ++ t) = allBytes p s && allBytes p t.
Proof.
  induction s as [| c s IH]; [done |]. rewrite append_cons. simpl.
  by rewrite IH, andb_assoc.
Qed.

Lemma hasPrefix_append (l s : string) : GoStrings.hasPrefix l (l ++ s) = true.
Proof.
  induction l as [| c l IH]; [done |]. rewrite append_cons. simpl.
  by rewrite Ascii.eqb_refl, IH.
Qed.

Lemma hasPrefix_split (l s : string) :
  GoStrings.hasPrefix l s = true -> exists rest, s = l ++ rest.
Proof.
  revert s. induction l as [| c l IH]; intros s H; [by exists s |].
  destruct s as [| d s]; [done |]. simpl in H.
  apply andb_true_iff in H as [Hc Hl]. apply Ascii.eqb_eq in Hc as ->.
  destruct (IH s Hl) as [rest ->]. by exists rest.
Qed.





Lemma dropString_append (l s : string) :
  Regexp.dropString (String.length l) (l ++ s) = s.
Proof. induction l as [| c l IH]; [by destruct s |]. exact IH. Qed.

End StringFacts.

(* ===================================================================== *)
(** ** More of uploader.go: what reaches the Admission Evaluator          *)
(* ===================================================================== *)

Module Intake.
Import Os MFacts Uploader StringFacts.

(** *** [checkFileType] *)






(** *** The pattern of [parseSSHLogLine] *)

Import Regexp.

Lemma rep_sound {R} cl atLeast (k : string -> string -> option R) (s : string) :
  forall n taken r,
    rep cl atLeast k n taken s = Some r ->
    exists t s',
      s = t ++ s' /\ allBytes (inClass cl) t = true /\
      (atLeast <= n + String.length t)%nat /\ k (taken ++ t) s' = Some r.
Proof.
  induction s as [| c s IH]; intros n taken r H; simpl in H.
  - destruct (Nat.leb atLeast n) eqn:Hn; [| done].
    exists "", "". rewrite !append_nil_r. apply Nat.leb_le in Hn.
    split_and!; [done | done | simpl; lia | done].
  - assert (Hstop : (if Nat.leb atLeast n then k taken (String c s) else None) = Some r ->
                    exists t s', String c s = t ++ s' /\ allBytes (inClass cl) t = true /\
                      (atLeast <= n + String.length t)%nat /\ k (taken ++ t) s' = Some r).
    { destruct (Nat.leb atLeast n) eqn:Hn; [| done]. intros Hk.
      exists "", (String c s). rewrite !append_nil_r. apply Nat.leb_le in Hn.
      split_and!; [done | done | simpl; lia | done]. }
    destruct (inClass cl c) eqn:Hc; [| by apply Hstop].
    destruct (rep cl atLeast k (S n) (taken ++ String c "") s) as [r' |] eqn:Hrec;
      [| by apply Hstop].
    injection H as ->. destruct (IH _ _ _ Hrec) as (t & s' & -> & Ht & Hlen & Hk).
    exists (String c t), s'. rewrite append_assoc in Hk.
    split_and!; [done | by simpl; rewrite Hc, Ht | simpl; lia | exact Hk].
Qed.

Lemma rep_complete {R} cl atLeast (k : string -> string -> option R) (t s' : string) :
  forall n taken,
    allBytes (inClass cl) t = true ->
    (atLeast <= n + String.length t)%nat ->
    is_Some (k (taken ++ t) s') ->
    is_Some (rep cl atLeast k n taken (t ++ s')).
Proof.
  induction t as [| c t IH]; intros n taken Ht Hlen Hk.
  - rewrite append_nil_r in Hk. rewrite append_nil_l. simpl in Hlen.
    assert (Hn : Nat.leb atLeast n = true) by (apply Nat.leb_le; lia).
    destruct s' as [| d s']; simpl; rewrite Hn; [done |].
    destruct (inClass cl d); [| done].
    by destruct (rep cl atLeast k (S n) (taken ++ String d "") s').
  - rewrite append_cons. simpl in *. apply andb_true_iff in Ht as [Hc Ht].
    rewrite Hc.
    assert (Hrec : is_Some (rep cl atLeast k (S n) (taken ++ String c "") (t ++ s'))).
    { apply IH; [done | lia |]. by rewrite append_assoc. }
    destruct Hrec as [r ->]. eauto.
Qed.

(** A text has the shape of a pattern: literal for literal, and for each
    repetition at least its minimum of bytes of its class. The captures
    are those the groups take. *)
Inductive Shape : list Atom -> Captures -> string -> Captures -> Prop :=
| ShapeEnd caps : Shape [] caps "" caps
| ShapeLit l rest caps x caps' :
    Shape rest caps x caps' -> Shape (Lit l :: rest) caps (l ++ x) caps'
| ShapeRep cl atLeast g rest caps t x caps' :
    allBytes (inClass cl) t = true -> (atLeast <= String.length t)%nat ->
    Shape rest (capture g t caps) x caps' ->
    Shape (Rep cl atLeast g :: rest) caps (t ++ x) caps'.

Lemma matchHere_sound atoms :
  forall caps s caps',
    matchHere atoms caps s = Some caps' ->
    exists x rest, s = x ++ rest /\ Shape atoms caps x caps'.
Proof.
  induction atoms as [| [l | cl atLeast g] atoms IH]; intros caps s caps' H; simpl in H.
  - injection H as <-. exists "", s. split; [done | constructor].
  - destruct (GoStrings.hasPrefix l s) eqn:Hl; [| done].
    destruct (hasPrefix_split _ _ Hl) as [s0 ->]. rewrite dropString_append in H.
    destruct (IH _ _ _ H) as (x & rest & -> & Hx).
    exists (l ++ x), rest. split; [by rewrite append_assoc | by constructor].
  - destruct (rep_sound _ _ _ _ _ _ _ H) as (t & s' & -> & Ht & Hlen & Hk).
    rewrite append_nil_l in Hk. destruct (IH _ _ _ Hk) as (x & rest & -> & Hx).
    exists (t ++ x), rest. split; [by rewrite append_assoc | by constructor].
Qed.

Lemma matchHere_complete atoms caps x caps' :
  Shape atoms caps x caps' ->
  forall caps0 rest, is_Some (matchHere atoms caps0 (x ++ rest)).
Proof.
  induction 1 as [caps | l atoms caps x caps' _ IH
                 | cl atLeast g atoms caps t x caps' Ht Hlen _ IH]; intros caps0 rest.
  - simpl. eauto.
  - simpl. rewrite append_assoc, hasPrefix_append, dropString_append. apply IH.
  - simpl. rewrite append_assoc. apply rep_complete; [done | simpl; lia |].
    rewrite append_nil_l. apply IH.
Qed.

Lemma search_sound atoms (s : string) caps :
  search atoms s = Some caps ->
  exists pre x rest, s = pre ++ x ++ rest /\ Shape atoms [] x caps.
Proof.
  induction s as [| c s IH]; simpl.
  - destruct (matchHere atoms [] "") eqn:Hm; [| done]. intros [= ->].
    destruct (matchHere_sound _ _ _ _ Hm) as (x & rest & Hs & Hx).
    by exists "", x, rest.
  - destruct (matchHere atoms [] (String c s)) eqn:Hm.
    + intros [= ->]. destruct (matchHere_sound _ _ _ _ Hm) as (x & rest & Hs & Hx).
      by exists "", x, rest.
    + intros H. destruct (IH H) as (pre & x & rest & -> & Hx).
      by exists (String c pre), x, rest.
Qed.

Lemma search_complete atoms (pre x rest : string) caps caps' :
  Shape atoms caps x caps' -> is_Some (search atoms (pre ++ x ++ rest)).
Proof.
  intros Hx. induction pre as [| c pre IH].
  - rewrite append_nil_l.
    destruct (matchHere_complete _ _ _ _ Hx [] rest) as [r Hr].
    destruct (x ++ rest); simpl; rewrite Hr; eauto.
  - rewrite append_cons. simpl.
    destruct (matchHere atoms [] (String c (pre ++ x ++ rest))); eauto.
Qed.

(** *** [parseSSHLogLine] *)

Definition nonEmpty (t : string) : Prop := (1 <= String.length t)%nat.

(** A line records a transfer of [path] under the key [fingerprint]: it
    reads, after anything, "Accepted publickey for", a user name, anything,
    "SHA256:" and the fingerprint, anything, "scp:", white space and the
    path in single quotes. *)
Definition recordsTransfer (line fingerprint path : string) : Prop :=
  exists pre user mid1 mid2 blank rest,
    line = pre ++ "Accepted publickey for " ++ user ++ mid1 ++ "SHA256:" ++ fingerprint
               ++ mid2 ++ "scp:" ++ blank ++ "'" ++ path ++ "'" ++ rest /\
    (nonEmpty user /\ allBytes (inClass NonSpace) user = true) /\
    allBytes (inClass AnyChar) mid1 = true /\
    (nonEmpty fingerprint /\ allBytes (inClass NonSpace) fingerprint = true) /\
    allBytes (inClass AnyChar) mid2 = true /\
    (nonEmpty blank /\ allBytes (inClass Space) blank = true) /\
    (nonEmpty path /\ allBytes (inClass NotQuote) path = true).

Lemma sshLogPattern_shape (x : string) caps :
  Shape sshLogPattern [] x caps ->
  exists user mid1 fingerprint mid2 blank path,
    x = "Accepted publickey for " ++ user ++ mid1 ++ "SHA256:" ++ fingerprint
          ++ mid2 ++ "scp:" ++ blank ++ "'" ++ path ++ "'" /\
    caps = [(2%nat, path); (1%nat, fingerprint)] /\
    (nonEmpty user /\ allBytes (inClass NonSpace) user = true) /\
    allBytes (inClass AnyChar) mid1 = true /\
    (nonEmpty fingerprint /\ allBytes (inClass NonSpace) fingerprint = true) /\
    allBytes (inClass AnyChar) mid2 = true /\
    (nonEmpty blank /\ allBytes (inClass Space) blank = true) /\
    (nonEmpty path /\ allBytes (inClass NotQuote) path = true).
Proof.
  unfold sshLogPattern. intros H.
  repeat match goal with
         | H : Shape (_ :: _) _ _ _ |- _ => inversion H; subst; clear H
         end.
  match goal with H : Shape [] _ _ _ |- _ => inversion H; subst; clear H end.
  eexists _, _, _, _, _, _. split; [reflexivity |]. by split_and!.
Qed.

(** X2: what [parseSSHLogLine] returns is what the line says. When it
    returns a fingerprint and a file path, the line records a transfer of
    that path under that fingerprint: the fingerprint is the text after a
    "SHA256:", not empty and free of white space, and the path is the text
    between single quotes after a "scp:", not empty and free of quotes. *)
Theorem parseSSHLogLine_sound line fingerprint path :
  parseSSHLogLine line = Some (fingerprint, path) ->
  recordsTransfer line fingerprint path.
Proof.
  unfold parseSSHLogLine.
  destruct (search sshLogPattern line) as [caps |] eqn:Hs; [| done].
  destruct (search_sound _ _ _ Hs) as (pre & x & rest & -> & Hx).
  destruct (sshLogPattern_shape _ _ Hx)
    as (user & mid1 & fp & mid2 & blank & p & -> & -> & Hshape).
  intros [= <- <-]. exists pre, user, mid1, mid2, blank, rest.
  split; [| exact Hshape]. by rewrite !append_assoc.
Qed.

Lemma parseSSHLogLine_sound_witness :
  recordsTransfer LogTail.transferLine "alice" "/in/song.mp3".
Proof. apply parseSSHLogLine_sound. vm_compute. reflexivity. Defined.

(** X3: [parseSSHLogLine] misses no transfer. Every line that records a
    transfer is parsed: the function returns a fingerprint and a path (of
    the last "SHA256:" and the last quoted text after "scp:" that fit, when
    the line can be read in more than one way), never its error. *)
Theorem parseSSHLogLine_complete line fingerprint path :
  recordsTransfer line fingerprint path ->
  is_Some (parseSSHLogLine line).
Proof.
  intros (pre & user & mid1 & mid2 & blank & rest & -> &
          [Hu1 Hu2] & Hm1 & [Hf1 Hf2] & Hm2 & [Hb1 Hb2] & [Hp1 Hp2]).
  unfold parseSSHLogLine.
  assert (Hshape : Shape sshLogPattern []
                     ("Accepted publickey for " ++ user ++ mid1 ++ "SHA256:" ++ fingerprint
                        ++ mid2 ++ "scp:" ++ blank ++ "'" ++ path ++ "'" ++ "")
                     [(2%nat, path); (1%nat, fingerprint)]).
  { unfold sshLogPattern.
    repeat first
      [ apply ShapeEnd
      | apply ShapeLit
      | apply ShapeRep; [assumption | first [assumption | simpl; lia] |] ]. }
  destruct (search_complete _ pre _ rest _ _ Hshape) as [caps Hcaps].
  rewrite !append_assoc in Hcaps. rewrite append_nil_l in Hcaps.
  rewrite Hcaps. eauto.
Qed.

(** A line with two fingerprints and two quoted paths. *)
Definition twiceLine : string :=
  "Accepted publickey for u SHA256:x SHA256:y scp: 'f' scp: 'g'".

Lemma parseSSHLogLine_complete_witness :
  recordsTransfer twiceLine "x" "f" /\
  parseSSHLogLine twiceLine = Some ("y", "g").
Proof.
  assert (Hrec : recordsTransfer twiceLine "x" "f").
  { exists "", "u", " ", " SHA256:y ", " ", " scp: 'g'".
    unfold nonEmpty. vm_compute. repeat split; lia. }
  split; [exact Hrec |].
  destruct (parseSSHLogLine_complete twiceLine "x" "f" Hrec) as [r Hr].
  vm_compute. reflexivity.
Defined.

End Intake.


(* ===================================================================== *)
(** ** More of uploader.go: the two loops that feed [processUpload]       *)
(* ===================================================================== *)

Module Dispatch.
Import Os MFacts Uploader StringFacts Intake.

Definition notSpace (c : ascii) : bool := negb (Ascii.eqb c " "%char).

Lemma cutAt_first sep (before after : string) :
  allBytes (fun c => negb (Ascii.eqb c sep)) before = true ->
  GoStrings.cutAt sep (before ++ String sep after) = Some (before, after).
Proof.
  induction before as [| c before IH]; intros H.
  - rewrite append_nil_l. simpl. by rewrite Ascii.eqb_refl.
  - rewrite append_cons. simpl in *. apply andb_true_iff in H as [Hc Hb].
    apply negb_true_iff in Hc. by rewrite Hc, (IH Hb).
Qed.

Lemma cutAt_none sep (s : string) :
  allBytes (fun c => negb (Ascii.eqb c sep)) s = true -> GoStrings.cutAt sep s = None.
Proof.
  induction s as [| c s IH]; intros H; [done |].
  simpl in *. apply andb_true_iff in H as [Hc Hs].
  apply negb_true_iff in Hc. by rewrite Hc, (IH Hs).
Qed.


Section WithConfig.
Variable config : Config.
Variable formatRFC3339 : Time -> string.
Variable fingerprintSSHKey : string -> option string.

Abbreviation processUpload := (processUpload config formatRFC3339 fingerprintSSHKey).
Abbreviation handleLogLine := (handleLogLine config formatRFC3339 fingerprintSSHKey).
Abbreviation handleStdinLine := (handleStdinLine config formatRFC3339 fingerprintSSHKey).


(** X5: the loop of [main] splits a line of standard input at its first
    space: what is before it is the key path, all that follows (spaces
    included, possibly nothing) is the file path, and [processUpload] is
    called with the two. A line without a space, the empty line among
    them, is skipped and changes nothing. *)
Theorem stdin_line_is_split_at_first_space w :
  (forall key path,
     allBytes notSpace key = true ->
     handleStdinLine (key ++ " " ++ path) w = (tt, run (processUpload key path) w)) /\
  (forall line,
     allBytes notSpace line = true -> handleStdinLine line w = (tt, w)).
Proof.
  split.
  - intros key path Hkey. unfold Uploader.handleStdinLine, GoStrings.SplitN2.
    change (" " ++ path) with (String " "%char path).
    rewrite (cutAt_first _ _ _ Hkey). unfold run, mbind, M_bind.
    by destruct (processUpload key path w) as [o w'].
  - intros line Hline. unfold Uploader.handleStdinLine, GoStrings.SplitN2.
    by rewrite (cutAt_none _ _ Hline).
Qed.

End WithConfig.

Lemma stdin_line_is_split_at_first_space_witness :
  Uploader.handleStdinLine Scenario.config Scenario.formatTime Scenario.fingerprintOf
    "/keys/alice /in/Morning Show.mp3" Scenario.fresh
  = (tt, run (Uploader.processUpload Scenario.config Scenario.formatTime
                Scenario.fingerprintOf "/keys/alice" "/in/Morning Show.mp3") Scenario.fresh).
Proof.
  apply (proj1 (stdin_line_is_split_at_first_space Scenario.config Scenario.formatTime
                  Scenario.fingerprintOf Scenario.fresh) "/keys/alice" "/in/Morning Show.mp3").
  reflexivity.
Defined.

End Dispatch.

(* ===================================================================== *)
(** ** More of uploader.go: [getUserData] and [updateUserData]            *)
(* ===================================================================== *)

Module Store.
Import Os MFacts Footprint Uploader Ledger Evaluation.
Local Open Scope list_scope.

Lemma userData_round_trip (u : UserData) : userDataOfRow (rowOfUserData u) = u.
Proof. by destruct u. Qed.

(** X6: [getUserData] is a lookup-or-insert that can be repeated. With a
    store that executes the statements it always returns a record; an
    identity without a row gets the row of the column defaults and the
    zero record; no other identity's row changes; and a second call
    returns the same record and leaves the table as the first call left
    it. *)
Theorem getUserData_is_lookup_or_insert user w :
  healthy w ->
  is_Some (result (getUserData user) w) /\
  (db w !! user = None ->
     result (getUserData user) w = Some zeroUserData /\
     db (run (getUserData user) w) !! user = Some defaultRow) /\
  (forall other, other <> user ->
     db (run (getUserData user) w) !! other = db w !! other) /\
  result (getUserData user) (run (getUserData user) w) = result (getUserData user) w /\
  db (run (getUserData user) (run (getUserData user) w)) = db (run (getUserData user) w).
Proof.
  intros Hw.
  destruct (getUserData_healthy user w Hw) as [Hw1 [u Hu]].
  destruct (loaded user w u Hu) as [Hueq Hdb].
  destruct (getUserData_healthy user _ Hw1) as [_ [u' Hu']].
  destruct (loaded user _ u' Hu') as [Hueq' Hdb'].
  rewrite Hdb, loaded_ledgerRow in Hueq'.
  split_and!.
  - rewrite Hu. eauto.
  - intros Hnone. rewrite Hu, Hueq, Hdb. unfold ledgerRow. rewrite Hnone.
    split; [done | apply lookup_insert_eq].
  - intros other Hne. rewrite Hdb. by apply lookup_insert_ne.
  - rewrite Hu, Hu'. congruence.
  - rewrite Hdb'. rewrite Hdb at 1. rewrite loaded_ledgerRow.
    rewrite Hdb. apply insert_insert_eq.
Qed.

Lemma getUserData_is_lookup_or_insert_witness :
  result (getUserData "SHA256:alice") Scenario.fresh = Some zeroUserData /\
  db (run (getUserData "SHA256:alice") Scenario.fresh) !! "SHA256:alice" = Some defaultRow.
Proof.
  apply (getUserData_is_lookup_or_insert "SHA256:alice" Scenario.fresh); reflexivity.
Defined.

(** X7: [updateUserData] changes the row of an identity that has one and
    does nothing else. Whatever the store does with the statement, the
    identities that have a row are the same before and after: the function
    neither creates nor deletes a row. For an identity without a row the
    table stays as it is, and a store that executes the statement still
    reports no error. *)
Theorem updateUserData_never_creates_a_row user u w :
  dom (db (run (updateUserData user u) w)) = dom (db w) /\
  (db w !! user = None -> db (run (updateUserData user u) w) = db w) /\
  (healthy w -> result (updateUserData user u) w = true).
Proof.
  assert (Hrow : dom (updateRow user (rowOfUserData u) (db w)) = dom (db w)).
  { unfold updateRow. destruct (db w !! user) eqn:E; [| done].
    rewrite dom_insert_L. apply elem_of_dom_2 in E.
    apply subseteq_union_1_L. by apply singleton_subseteq_l. }
  split_and!.
  - destruct (updateUserData_db user u w) as [-> | ->]; done.
  - intros Hnone. destruct (updateUserData_db user u w) as [-> | ->]; [done |].
    unfold updateRow. by rewrite Hnone.
  - intros Hw. unfold updateUserData.
    destruct (dbExec_healthy (EUpdate user (rowOfUserData u))
                (updateUser user (rowOfUserData u)) w Hw) as (_ & _ & ->).
    rewrite updateUser_updateRow. apply bool_decide_eq_true. eauto.
Qed.

(** X8: what [updateUserData] persists is what [getUserData] loads. With a
    store that executes the statements and for an identity that has a row,
    an update followed by a load returns the record that was written,
    field for field. *)
Theorem update_then_load_round_trip user u w :
  healthy w -> is_Some (db w !! user) ->
  result (getUserData user) (run (updateUserData user u) w) = Some u.
Proof.
  intros Hw [r Hr].
  destruct (updateUserData_healthy user u w Hw) as [Hw1 Hdb].
  destruct (getUserData_healthy user _ Hw1) as [_ [u' Hu']].
  destruct (loaded user _ u' Hu') as [Hueq _].
  rewrite Hu', Hueq, Hdb. unfold updateRow, ledgerRow. rewrite Hr, lookup_insert_eq.
  simpl. by rewrite userData_round_trip.
Qed.

Lemma update_then_load_round_trip_witness :
  result (getUserData "SHA256:alice")
    (run (updateUserData "SHA256:alice" (mkUserData 1 0 40 0 1000))
       (Scenario.withLedger [("SHA256:alice", defaultRow)] Scenario.fresh))
  = Some (mkUserData 1 0 40 0 1000).
Proof.
  apply update_then_load_round_trip; [reflexivity |].
  exists defaultRow. vm_compute. reflexivity.
Defined.

End Store.

(* ===================================================================== *)
(** ** More of uploader.go: what an evaluation does to the quotas         *)
(* ===================================================================== *)

Module Quota.
Import Os MFacts Footprint Uploader Ledger Evaluation.
Local Open Scope list_scope.

Section WithConfig.
Variable config : Config.
Variable formatRFC3339 : Time -> string.
Variable fingerprintSSHKey : string -> option string.

Abbreviation processUpload := (processUpload config formatRFC3339 fingerprintSSHKey).

(** An invariant [Q] of the rows survives an evaluation when the default
    row has it, a rejection keeps it, and an admission keeps it for a size
    and a duration that have passed the two quota checks, the duration
    being the 0 that [calculateAudioDuration] returns. *)
Lemma processUpload_invariant_checked (Q : string -> Row -> Prop) key filePath w :
  (forall user, db w !! user = None -> Q user defaultRow) ->
  (forall fp r, Q fp r -> Q fp (rowOfUserData (escalated config (userDataOfRow r)))) ->
  (forall fp r fileSize t,
     Q fp r ->
     sizeExceeded config (userDataOfRow r) fileSize = false ->
     airtimeExceeded config (userDataOfRow r) 0 = false ->
     Q fp (rowOfUserData (charged (userDataOfRow r) fileSize 0 t))) ->
  map_Forall Q (db w) ->
  map_Forall Q (db (run (processUpload key filePath) w)).
Proof.
  intros Hdef Hrej Hadm HQ.
  pose proof (processUpload_evaluation config formatRFC3339 fingerprintSSHKey
                key filePath w) as Hev.
  remember (result (processUpload key filePath) w) as o eqn:Ho. clear Ho.
  remember (run (processUpload key filePath) w) as w' eqn:Hw'. clear Hw'.
  assert (Hload : forall fp,
            map_Forall Q (db (run (getUserData fp) w)) /\ Q fp (ledgerRow (db w) fp)).
  { intros fp. apply getUserData_allRows; [apply Hdef | done]. }
  inversion Hev as
    [ Hfp
    | fp w1 Hfp Hu Hw1
    | fp u w1 Hfp Hu Hw1 Hty
    | fp u w1 w2 Hfp Hu Hw1 Hty Hsz Hw2
    | fp u w1 fileSize w2 Hfp Hu Hw1 Hty Hsz Hw2 Hsx
    | fp u w1 fileSize w2 w3 Hfp Hu Hw1 Hty Hsz Hw2 Hsx Hdur Hw3
    | fp u w1 fileSize w2 duration w3 Hfp Hu Hw1 Hty Hsz Hw2 Hsx Hdur Hw3 Hax
    | fp u w1 fileSize w2 duration w3 w4 Hfp Hu Hw1 Hty Hsz Hw2 Hsx Hdur Hw3 Hax Hmv Hw4
    | fp u w1 fileSize w2 duration w3 w4 Hfp Hu Hw1 Hty Hsz Hw2 Hsx Hdur Hw3 Hax Hmv Hw4 ];
    try (destruct (Hload fp) as (HQ1 & Hrow));
    try (destruct (loaded fp w u Hu) as [Hueq _]);
    try (assert (HQ2 : map_Forall Q (db w2))
           by (subst w2 w1;
               by rewrite (sameLedger_db _ _
                             (UploaderFootprint.sameLedger_calculateFileSize _))));
    try (assert (HQ3 : map_Forall Q (db w3))
           by (subst w3;
               by rewrite (sameLedger_db _ _
                             (UploaderFootprint.sameLedger_calculateAudioDuration _)))).
  - done.
  - by subst w1.
  - subst w1 u. apply reject_allRows; [by apply Hrej | done].
  - done.
  - subst u. apply reject_allRows; [by apply Hrej | done].
  - done.
  - subst u. apply reject_allRows; [by apply Hrej | done].
  - subst w4. cbn. by rewrite (sameLedger_db _ _ (sameLedger_rename _ _)).
  - assert (duration = 0).
    { rewrite calculateAudioDuration_result in Hdur. unfold durationOf in Hdur.
      destruct (probeOutput _ _); [| done]. by injection Hdur as <-. }
    subst duration u.
    apply updateUserData_allRows; [by apply Hadm |].
    rewrite (sameLedger_db _ _
               (UploaderFootprint.sameLedger_logAction config formatRFC3339 _ _)).
    subst w4. by rewrite (sameLedger_db _ _ (sameLedger_rename _ _)).
Qed.

Lemma escalated_keeps_quota u :
  DailyUpload (escalated config u) = DailyUpload u /\
  DailyAirtime (escalated config u) = DailyAirtime u.
Proof. unfold escalated. by destruct (reachesTimeout config u). Qed.

(** *** The ceilings *)

Definition withinCeilings (r : Row) : Prop :=
  daily_upload r <= MaxUserUploadSize config /\
  daily_airtime r <= MaxUserAirtime config.

(** X9: the quota checks keep the ledger under the ceilings. With ceilings
    that are not negative, an identity whose dailyUpload and dailyAirtime
    are at most their ceilings (or that has no row) still has them at most
    the ceilings after any call of [processUpload]: what an admission adds
    is what the check has compared with the ceiling, also when the sum
    wraps around, and a rejection adds nothing. *)
Theorem quotas_stay_within_ceilings key filePath w user :
  0 <= MaxUserUploadSize config -> 0 <= MaxUserAirtime config ->
  (forall r, db w !! user = Some r -> withinCeilings r) ->
  forall r',
    db (run (processUpload key filePath) w) !! user = Some r' -> withinCeilings r'.
Proof.
  intros Hup Hair Hw r' Hr'.
  refine (processUpload_invariant_checked
            (fun user' r => user' = user -> withinCeilings r)
            key filePath w _ _ _ _ user r' Hr' eq_refl).
  - intros _ _ _. by split.
  - intros fp r Hr Heq. destruct (Hr Heq) as [H1 H2].
    destruct (escalated_keeps_quota (userDataOfRow r)) as [E1 E2].
    split; cbn [daily_upload daily_airtime rowOfUserData]; rewrite ?E1, ?E2; done.
  - intros fp r fileSize t Hr Hsx Hax Heq.
    unfold sizeExceeded in Hsx. unfold airtimeExceeded in Hax.
    rewrite Z.gtb_ltb in Hsx, Hax. apply Z.ltb_ge in Hsx, Hax.
    by split.
  - intros user' r Hr ->. by apply Hw.
Qed.

(** *** Airtime *)

(** X10: airtime is never charged. Whatever [ffprobe] prints, the duration
    that reaches the airtime check and the ledger is 0: after any call of
    [processUpload] the identity's dailyAirtime is what it was before (0
    for an identity without a row), and the call ends in the airtime
    rejection only when the stored dailyAirtime already exceeds the
    ceiling. *)
Theorem airtime_is_never_charged key filePath w user :
  GoInt.in_range (daily_airtime (ledgerRow (db w) user)) ->
  (forall r',
     db (run (processUpload key filePath) w) !! user = Some r' ->
     daily_airtime r' = daily_airtime (ledgerRow (db w) user)) /\
  (fingerprintSSHKey key = Some user ->
   result (processUpload key filePath) w = RejectedAirtimeQuota ->
   daily_airtime (ledgerRow (db w) user) > MaxUserAirtime config).
Proof.
  intros Hrange. split.
  - intros r' Hr'.
    refine (processUpload_invariant_checked
              (fun user' r =>
                 user' = user -> daily_airtime r = daily_airtime (ledgerRow (db w) user))
              key filePath w _ _ _ _ user r' Hr' eq_refl).
    + intros user' Hnone ->. unfold ledgerRow. by rewrite Hnone.
    + intros fp r Hr Heq. cbn [daily_airtime rowOfUserData].
      rewrite (proj2 (escalated_keeps_quota _)). by apply Hr.
    + intros fp r fileSize t Hr _ _ Heq.
      cbn [daily_airtime rowOfUserData charged DailyAirtime set_LastUpload
             set_DailyAirtime set_DailyUpload userDataOfRow].
      rewrite GoInt.add_0_r; [by apply Hr |]. by rewrite (Hr Heq).
    + intros user' r Hr ->. unfold ledgerRow. by rewrite Hr.
  - intros Hfp Ho.
    rewrite (processUpload_result config formatRFC3339 fingerprintSSHKey) in Ho.
    unfold firstFailingCheck in Ho. rewrite Hfp in Ho.
    destruct (result (getUserData user) w) as [u |] eqn:Hu; [| done].
    destruct (loaded user w u Hu) as [Hueq _].
    destruct (negb (checkFileType config filePath)); [done |].
    destruct (sizeMB (fs w) filePath) as [fileSize |]; [| done].
    destruct (sizeExceeded config u fileSize); [done |].
    unfold durationOf in Ho. destruct (probeOutput (fs w) filePath); [| done].
    cbn [GoFmt.Sscanf_f_int fst] in Ho.
    destruct (airtimeExceeded config u 0) eqn:Hax;
      [| by destruct (canRename _ _ _)].
    unfold airtimeExceeded in Hax. subst u. cbn [DailyAirtime userDataOfRow] in Hax.
    rewrite GoInt.add_0_r in Hax by done. rewrite Z.gtb_ltb in Hax.
    apply Z.ltb_lt in Hax. lia.
Qed.

End WithConfig.

Lemma quotas_stay_within_ceilings_witness :
  db (run (Uploader.processUpload Scenario.config Scenario.formatTime
             Scenario.fingerprintOf "/keys/alice" "/in/song.mp3")
        (Scenario.withLedger [("SHA256:alice", mkRow 0 0 60 0 None)] Scenario.fresh))
    !! "SHA256:alice" = Some (mkRow 0 0 100 0 (Some 1000)) /\
  withinCeilings Scenario.config (mkRow 0 0 100 0 (Some 1000)).
Proof.
  assert (Hrow : db (run (Uploader.processUpload Scenario.config Scenario.formatTime
                            Scenario.fingerprintOf "/keys/alice" "/in/song.mp3")
                       (Scenario.withLedger [("SHA256:alice", mkRow 0 0 60 0 None)]
                          Scenario.fresh))
                   !! "SHA256:alice" = Some (mkRow 0 0 100 0 (Some 1000)))
    by (vm_compute; reflexivity).
  split; [exact Hrow |].
  refine (quotas_stay_within_ceilings Scenario.config Scenario.formatTime
            Scenario.fingerprintOf "/keys/alice" "/in/song.mp3" _ "SHA256:alice"
            _ _ _ _ Hrow).
  - vm_compute. discriminate.
  - vm_compute. discriminate.
  - intros r Hr. vm_compute in Hr. injection Hr as <-.
    unfold withinCeilings. cbn. lia.
Defined.

(** An upload of 120 s that would take the airtime from 900 s past the
    ceiling of 1000 s is accepted, and the airtime stays at 900 s. *)
Lemma airtime_is_never_charged_witness :
  db (run (Uploader.processUpload Scenario.config Scenario.formatTime
             Scenario.fingerprintOf "/keys/alice" "/in/song.mp3")
        (Scenario.withLedger [("SHA256:alice", mkRow 0 0 0 900 None)] Scenario.fresh))
    !! "SHA256:alice" = Some (mkRow 0 0 40 900 (Some 1000)) /\
  daily_airtime (mkRow 0 0 40 900 (Some 1000))
    = daily_airtime (ledgerRow
        (db (Scenario.withLedger [("SHA256:alice", mkRow 0 0 0 900 None)] Scenario.fresh))
        "SHA256:alice").
Proof.
  assert (Hrow : db (run (Uploader.processUpload Scenario.config Scenario.formatTime
                            Scenario.fingerprintOf "/keys/alice" "/in/song.mp3")
                       (Scenario.withLedger [("SHA256:alice", mkRow 0 0 0 900 None)]
                          Scenario.fresh))
                   !! "SHA256:alice" = Some (mkRow 0 0 40 900 (Some 1000)))
    by (vm_compute; reflexivity).
  split; [exact Hrow |].
  refine (proj1 (airtime_is_never_charged Scenario.config Scenario.formatTime
                   Scenario.fingerprintOf "/keys/alice" "/in/song.mp3" _ "SHA256:alice" _)
            _ Hrow).
  vm_compute. split; discriminate.
Defined.

End Quota.

(* ===================================================================== *)
(** ** More of uploader.go: an accepted upload                            *)
(* ===================================================================== *)

Module Handoff.
Import Os MFacts Footprint Uploader Ledger Evaluation.
Local Open Scope list_scope.

(** *** The clock *)

(** The clock is not read. *)
Definition sameClock (w w' : World) : Prop := now w' = now w.

#[export] Instance sameClock_preorder : PreOrder sameClock.
Proof.
  split.
  - by intros w.
  - intros w1 w2 w3 H1 H2. unfold sameClock in *. congruence.
Qed.

Lemma sameClock_event e : preserves sameClock (event e).
Proof. by intros w. Qed.

Lemma sameClock_stat path : preserves sameClock (stat path).
Proof. by intros w. Qed.

Lemma sameClock_ffprobe path : preserves sameClock (ffprobe path).
Proof. by intros w. Qed.

Lemma sameClock_dbExec e f : preserves sameClock (dbExec e f).
Proof.
  intros w. unfold sameClock, dbExec, dbFault, run, mbind, M_bind, event, modify, state.
  simpl. repeat case_match; simplify_eq; done.
Qed.

Lemma sameClock_dbQueryRow user : preserves sameClock (dbQueryRow user).
Proof.
  intros w. unfold sameClock, dbQueryRow, dbFault, run, mbind, M_bind, event, modify, state.
  simpl. repeat case_match; simplify_eq; done.
Qed.

Lemma sameClock_rename o n : preserves sameClock (rename o n).
Proof.
  intros w. unfold sameClock, rename, run, mbind, M_bind, event, modify, state. simpl.
  repeat case_match; simplify_eq; done.
Qed.

Lemma sameClock_writeFile filename data mode :
  preserves sameClock (writeFile filename data mode).
Proof.
  intros w. unfold sameClock, writeFile, run, mbind, M_bind, event, modify, state. simpl.
  repeat case_match; simplify_eq; done.
Qed.

#[local] Hint Resolve sameClock_event sameClock_stat sameClock_ffprobe sameClock_dbExec
  sameClock_dbQueryRow sameClock_rename sameClock_writeFile : footprint.

Lemma getUserData_now user w : now (run (getUserData user) w) = now w.
Proof.
  assert (H : preserves sameClock (getUserData user))
    by (unfold getUserData; UploaderFootprint.footprint).
  apply H.
Qed.

Lemma calculateFileSize_now path w : now (run (calculateFileSize path) w) = now w.
Proof.
  assert (H : preserves sameClock (calculateFileSize path))
    by (unfold calculateFileSize; UploaderFootprint.footprint).
  apply H.
Qed.

Lemma calculateAudioDuration_now path w :
  now (run (calculateAudioDuration path) w) = now w.
Proof.
  assert (H : preserves sameClock (calculateAudioDuration path))
    by (unfold calculateAudioDuration; UploaderFootprint.footprint).
  apply H.
Qed.

Lemma updateUserData_now user u w : now (run (updateUserData user u) w) = now w.
Proof. apply sameClock_dbExec. Qed.

Lemma sameLedger_healthy w w' : sameLedger w w' -> healthy w -> healthy w'.
Proof. unfold healthy. intros [_ H] Hw. congruence. Qed.

(** A move that succeeds. *)
Lemma rename_done o n w :
  result (rename o n) w = true -> fs (run (rename o n) w) = renamed (fs w) o n.
Proof.
  unfold rename, run, result, mbind, M_bind, event, modify, state. simpl.
  by case_match.
Qed.

Section WithConfig.
Variable config : Config.
Variable formatRFC3339 : Time -> string.
Variable fingerprintSSHKey : string -> option string.

Abbreviation logAction := (logAction config formatRFC3339).
Abbreviation processUpload := (processUpload config formatRFC3339 fingerprintSSHKey).
Abbreviation destPath := (destPath config).
Abbreviation auditPath := (UploaderFootprint.auditPath config).

(** The duration that reaches the airtime check is 0. *)
Lemma duration_is_zero filePath w duration :
  result (calculateAudioDuration filePath) w = Some duration -> duration = 0.
Proof.
  rewrite calculateAudioDuration_result. unfold durationOf.
  destruct (probeOutput _ _); [| done]. intros H. by injection H as <-.
Qed.

(** Every acceptance has the same shape: the row is loaded, both checks
    pass on the files as they are before the evaluation, the clock is read,
    the file moved, the decision logged and the row charged. *)
Lemma acceptance_shape key filePath w :
  result (processUpload key filePath) w = Accepted ->
  exists fp u fileSize w3,
    fingerprintSSHKey key = Some fp /\
    result (getUserData fp) w = Some u /\
    checkFileType config filePath = true /\
    sizeMB (fs w) filePath = Some fileSize /\
    canRename (fs w) filePath (destPath filePath) = true /\
    sameLedger (run (getUserData fp) w) w3 /\
    fs w3 = fs w /\ now w3 = now w /\
    run (processUpload key filePath) w =
      run (updateUserData fp (charged u fileSize 0 (now w)))
        (run (logAction fp "File uploaded successfully")
           (run (rename filePath (destPath filePath)) (run timeNow w3))).
Proof.
  intros Hacc.
  pose proof (processUpload_evaluation config formatRFC3339 fingerprintSSHKey
                key filePath w) as Hev.
  pose proof (processUpload_result config formatRFC3339 fingerprintSSHKey
                key filePath w) as Hres.
  rewrite Hacc in Hev, Hres.
  remember (run (processUpload key filePath) w) as w' eqn:Hw'. clear Hw'.
  inversion Hev as
    [ | | | | | | | |
      fp u w1 fileSize w2 duration w3 w4 Hfp Hu Hw1 Hty Hsz Hw2 Hsx Hdur Hw3 Hax Hmv Hw4 Hw' ].
  pose proof (duration_is_zero _ _ _ Hdur) as ->.
  assert (Hfs : fs w3 = fs w).
  { subst w3 w2 w1.
    by rewrite calculateAudioDuration_fs, calculateFileSize_fs, getUserData_fs. }
  assert (Hnow : now w3 = now w).
  { subst w3 w2 w1.
    by rewrite calculateAudioDuration_now, calculateFileSize_now, getUserData_now. }
  exists fp, u, fileSize, w3. split_and!; try done.
  - rewrite calculateFileSize_result in Hsz. subst w1.
    by rewrite getUserData_fs in Hsz.
  - rewrite rename_result in Hmv. change (fs (run timeNow w3)) with (fs w3) in Hmv.
    by rewrite Hfs in Hmv.
  - subst w3 w2 w1.
    etransitivity; [apply UploaderFootprint.sameLedger_calculateFileSize |].
    apply UploaderFootprint.sameLedger_calculateAudioDuration.
  - subst w4. by rewrite Hnow.
Qed.

(** The ledger after an acceptance the store has executed. *)
Lemma accepted_ledger key filePath w :
  healthy w ->
  result (processUpload key filePath) w = Accepted ->
  exists fp fileSize,
    fingerprintSSHKey key = Some fp /\
    checkFileType config filePath = true /\
    sizeMB (fs w) filePath = Some fileSize /\
    healthy (run (processUpload key filePath) w) /\
    db (run (processUpload key filePath) w) =
      <[fp := rowOfUserData
                (charged (userDataOfRow (ledgerRow (db w) fp)) fileSize 0 (now w))]> (db w).
Proof.
  intros Hw Hacc.
  destruct (acceptance_shape key filePath w Hacc)
    as (fp & u & fileSize & w3 & Hfp & Hu & Hty & Hsz & _ & Hled & _ & _ & ->).
  destruct (loaded fp w u Hu) as [-> Hdb1].
  destruct (getUserData_healthy fp w Hw) as [Hh1 _].
  pose proof (sameLedger_healthy _ _ Hled Hh1) as Hh3.
  set (w4 := run (rename filePath (destPath filePath)) (run timeNow w3)).
  assert (Hled4 : sameLedger w3 w4).
  { subst w4. transitivity (run timeNow w3);
      [apply sameLedger_timeNow | apply sameLedger_rename]. }
  pose proof (sameLedger_healthy _ _ Hled4 Hh3) as Hh4.
  pose proof (logAction_healthy config formatRFC3339 fp
                "File uploaded successfully" w4 Hh4) as Hh5.
  destruct (updateUserData_healthy fp
              (charged (userDataOfRow (ledgerRow (db w) fp)) fileSize 0 (now w)) _ Hh5)
    as [Hh6 Hdb6].
  exists fp, fileSize. split_and!; try done.
  rewrite Hdb6, (logAction_db config formatRFC3339), (proj1 Hled4), (proj1 Hled), Hdb1.
  unfold updateRow. rewrite lookup_insert_eq. apply insert_insert_eq.
Qed.

(** The files after an acceptance, the audit log apart. *)
Lemma accepted_files key filePath w :
  result (processUpload key filePath) w = Accepted ->
  (exists perm c, fs w !! GoStrings.Clean filePath = Some (Regular perm c)) /\
  forall p, p <> auditPath ->
    fs (run (processUpload key filePath) w) !! p =
      (<[GoStrings.Clean (destPath filePath) := default (Directory 0)
                                                  (fs w !! GoStrings.Clean filePath)]>
         (delete (GoStrings.Clean filePath) (fs w))) !! p.
Proof.
  intros Hacc.
  destruct (acceptance_shape key filePath w Hacc)
    as (fp & u & fileSize & w3 & _ & _ & _ & _ & Hcan & _ & Hfs & _ & ->).
  assert (Hsrc : exists perm c, fs w !! GoStrings.Clean filePath = Some (Regular perm c)).
  { unfold canRename in Hcan.
    destruct (fs w !! GoStrings.Clean filePath) as [[| perm c] |]; try done. eauto. }
  split; [exact Hsrc |]. intros p Hp.
  rewrite (UploaderFootprint.sameFiles_updateUserData
             (UploaderFootprint.isAuditPath config) _ _ _ p Hp).
  rewrite (UploaderFootprint.sameFiles_logAction config formatRFC3339 _ _ _ p Hp).
  rewrite rename_done.
  - change (fs (run timeNow w3)) with (fs w3). rewrite Hfs. unfold renamed.
    destruct Hsrc as (perm & c & ->). done.
  - rewrite rename_result. change (fs (run timeNow w3)) with (fs w3). by rewrite Hfs.
Qed.

(** X11: what an accepted upload is charged. When the store executes the
    statements, an accepted upload leaves the ledger as it was except for
    the row of the uploading identity, which keeps its strikes and timeouts,
    has the file's size in whole MB added to dailyUpload, 0 added to
    dailyAirtime, and the reading of the clock before the move as
    lastUpload. *)
Theorem accepted_upload_is_charged key filePath w fp :
  healthy w ->
  result (processUpload key filePath) w = Accepted ->
  fingerprintSSHKey key = Some fp ->
  exists fileSize,
    sizeMB (fs w) filePath = Some fileSize /\
    db (run (processUpload key filePath) w) =
      <[fp := mkRow (strikes (ledgerRow (db w) fp))
                    (timeouts (ledgerRow (db w) fp))
                    (GoInt.add (daily_upload (ledgerRow (db w) fp)) fileSize)
                    (GoInt.add (daily_airtime (ledgerRow (db w) fp)) 0)
                    (Some (now w))]> (db w).
Proof.
  intros Hw Hacc Hfp.
  destruct (accepted_ledger key filePath w Hw Hacc)
    as (fp' & fileSize & Hfp' & _ & Hsz & _ & Hdb).
  assert (fp' = fp) by congruence. subst fp'.
  exists fileSize. split; [done |]. by rewrite Hdb.
Qed.

(** X12: where an accepted file goes. After an accepted upload whose
    destination is not the audit log, the storage path (the storage
    directory joined with the base name of the candidate) holds the regular
    file that was at the candidate path, whatever was stored under that name
    before; the candidate path, when it differs from the destination and
    from the audit log, is empty; and no other file but the audit log has
    changed. *)
Theorem accepted_file_moves_to_storage key filePath w :
  result (processUpload key filePath) w = Accepted ->
  GoStrings.Clean (destPath filePath) <> auditPath ->
  (exists perm c,
     fs w !! GoStrings.Clean filePath = Some (Regular perm c) /\
     fs (run (processUpload key filePath) w) !! GoStrings.Clean (destPath filePath)
       = Some (Regular perm c)) /\
  (GoStrings.Clean filePath <> GoStrings.Clean (destPath filePath) ->
   GoStrings.Clean filePath <> auditPath ->
   fs (run (processUpload key filePath) w) !! GoStrings.Clean filePath = None) /\
  (forall p,
     p <> GoStrings.Clean filePath -> p <> GoStrings.Clean (destPath filePath) ->
     p <> auditPath ->
     fs (run (processUpload key filePath) w) !! p = fs w !! p).
Proof.
  intros Hacc Hdst.
  destruct (accepted_files key filePath w Hacc) as [(perm & c & Hsrc) Hfiles].
  split_and!.
  - exists perm, c. split; [done |].
    rewrite (Hfiles _ Hdst), lookup_insert_eq. by rewrite Hsrc.
  - intros Hne Hna. rewrite (Hfiles _ Hna).
    rewrite lookup_insert_ne by done. apply lookup_delete_eq.
  - intros p Hp1 Hp2 Hp3. rewrite (Hfiles _ Hp3).
    rewrite lookup_insert_ne by done. by rewrite lookup_delete_ne.
Qed.

(** X13: an accepted upload cannot be replayed. When the store executes
    the statements and the candidate path is neither the destination nor
    the audit log, evaluating the same key and path again right after an
    acceptance finds no file to take the size of: the call is dropped at
    [calculateFileSize], without a strike and without any change to the
    ledger. *)
Theorem accepted_upload_cannot_be_replayed key filePath w :
  healthy w ->
  result (processUpload key filePath) w = Accepted ->
  GoStrings.Clean filePath <> GoStrings.Clean (destPath filePath) ->
  GoStrings.Clean filePath <> auditPath ->
  result (processUpload key filePath) (run (processUpload key filePath) w) = DroppedStat /\
  db (run (processUpload key filePath) (run (processUpload key filePath) w))
    = db (run (processUpload key filePath) w).
Proof.
  intros Hw Hacc Hne Hna.
  destruct (accepted_ledger key filePath w Hw Hacc)
    as (fp & fileSize & Hfp & Hty & _ & Hh' & Hdb').
  destruct (accepted_files key filePath w Hacc) as [_ Hfiles].
  remember (run (processUpload key filePath) w) as w' eqn:Hw'.
  assert (Hgone : sizeMB (fs w') filePath = None).
  { unfold sizeMB, statSize. rewrite (Hfiles _ Hna).
    rewrite lookup_insert_ne by done. by rewrite lookup_delete_eq. }
  clear Hfiles Hw'.
  assert (Hres : result (processUpload key filePath) w' = DroppedStat).
  { rewrite (processUpload_result config formatRFC3339 fingerprintSSHKey).
    unfold firstFailingCheck. rewrite Hfp.
    destruct (getUserData_healthy fp w' Hh') as [_ [u ->]].
    by rewrite Hty, Hgone. }
  split; [exact Hres |].
  pose proof (processUpload_evaluation config formatRFC3339 fingerprintSSHKey
                key filePath w') as Hev.
  rewrite Hres in Hev.
  remember (run (processUpload key filePath) w') as w'' eqn:Hw''. clear Hw''.
  inversion Hev as
    [ | | | fp' u w1 w2 Hfp' Hu Hw1 Hty' Hsz Hw2 Hw'' | | | | | ].
  assert (fp' = fp) by congruence. subst fp'.
  destruct (loaded fp w' u Hu) as [_ Hdb1].
  change (db (emit (ELogPrintf "Error calculating file size") w2)) with (db w2).
  subst w2.
  rewrite (sameLedger_db _ _ (UploaderFootprint.sameLedger_calculateFileSize _)).
  subst w1. rewrite Hdb1. apply insert_id.
  unfold ledgerRow. rewrite Hdb'. by rewrite lookup_insert_eq.
Qed.

End WithConfig.

Lemma accepted_upload_is_charged_witness :
  exists fileSize,
    sizeMB (fs (Scenario.withLedger [("SHA256:alice", mkRow 1 0 20 0 None)] Scenario.fresh))
      "/in/song.mp3" = Some fileSize /\
    db (run (Uploader.processUpload Scenario.config Scenario.formatTime
               Scenario.fingerprintOf "/keys/alice" "/in/song.mp3")
          (Scenario.withLedger [("SHA256:alice", mkRow 1 0 20 0 None)] Scenario.fresh))
      = <[ "SHA256:alice" := mkRow 1 0 (GoInt.add 20 fileSize) (GoInt.add 0 0) (Some 1000) ]>
          (db (Scenario.withLedger [("SHA256:alice", mkRow 1 0 20 0 None)] Scenario.fresh)).
Proof.
  apply (accepted_upload_is_charged Scenario.config Scenario.formatTime
           Scenario.fingerprintOf "/keys/alice" "/in/song.mp3"
           (Scenario.withLedger [("SHA256:alice", mkRow 1 0 20 0 None)] Scenario.fresh)
           "SHA256:alice").
  - reflexivity.
  - vm_compute. reflexivity.
  - reflexivity.
Defined.

Lemma accepted_file_moves_to_storage_witness :
  fs (run (Uploader.processUpload Scenario.config Scenario.formatTime
             Scenario.fingerprintOf "/keys/alice" "/in/song.mp3") Scenario.fresh)
    !! "/in/song.mp3" = None.
Proof.
  refine (proj1 (proj2 (accepted_file_moves_to_storage Scenario.config Scenario.formatTime
            Scenario.fingerprintOf "/keys/alice" "/in/song.mp3" Scenario.fresh _ _)) _ _).
  - vm_compute. reflexivity.
  - vm_compute. discriminate.
  - vm_compute. discriminate.
  - vm_compute. discriminate.
Defined.

Lemma accepted_upload_cannot_be_replayed_witness :
  result (Uploader.processUpload Scenario.config Scenario.formatTime
            Scenario.fingerprintOf "/keys/alice" "/in/song.mp3")
    (run (Uploader.processUpload Scenario.config Scenario.formatTime
            Scenario.fingerprintOf "/keys/alice" "/in/song.mp3") Scenario.fresh)
    = DroppedStat.
Proof.
  refine (proj1 (accepted_upload_cannot_be_replayed Scenario.config Scenario.formatTime
            Scenario.fingerprintOf "/keys/alice" "/in/song.mp3" Scenario.fresh _ _ _ _)).
  - reflexivity.
  - vm_compute. reflexivity.
  - vm_compute. discriminate.
  - vm_compute. discriminate.
Defined.

End Handoff.

(* ===================================================================== *)
(** ** More of uploader.go: a rejected upload, timeouts and bans          *)
(* ===================================================================== *)

Module Penalty.
Import Os MFacts Footprint Uploader Ledger Evaluation.
Local Open Scope list_scope.

(** What [getUserData] returns for an identity that has a row. *)
Lemma getUserData_result_row user r w :
  db w !! user = Some r ->
  result (getUserData user) w =
    match dbFaults w with
    | true :: _ => None
    | _ => Some (userDataOfRow r)
    end.
Proof.
  intros H.
  unfold getUserData, dbQueryRow, dbFault, result, mbind, M_bind, event, modify, state, gets.
  simpl. destruct (dbFaults w) as [| [] rest]; simpl; rewrite ?H; done.
Qed.

Section WithConfig.
Variable config : Config.
Variable formatRFC3339 : Time -> string.
Variable fingerprintSSHKey : string -> option string.

Abbreviation processUpload := (processUpload config formatRFC3339 fingerprintSSHKey).

(** The ledger after a rejection the store has executed. *)
Lemma rejected_ledger key filePath w fp :
  healthy w ->
  isRejection (result (processUpload key filePath) w) = true ->
  fingerprintSSHKey key = Some fp ->
  healthy (run (processUpload key filePath) w) /\
  db (run (processUpload key filePath) w) =
    if reachesBan config (userDataOfRow (ledgerRow (db w) fp))
    then delete fp (db w)
    else <[fp := rowOfUserData (escalated config (userDataOfRow (ledgerRow (db w) fp)))]>
           (db w).
Proof.
  intros Hw Hrej Hfp.
  destruct (rejection_shape config formatRFC3339 fingerprintSSHKey key filePath w Hrej)
    as (fp' & u & w0 & message & Hfp' & Hu & Hled & _ & _ & ->).
  assert (fp' = fp) by congruence. subst fp'.
  destruct (loaded fp w u Hu) as [-> Hdb1].
  destruct (getUserData_healthy fp w Hw) as [Hh1 _].
  pose proof (Handoff.sameLedger_healthy _ _ Hled Hh1) as Hh0.
  destruct (reject_healthy config formatRFC3339 fp
              (userDataOfRow (ledgerRow (db w) fp)) message w0 Hh0) as [Hh' ->].
  split; [done |]. rewrite (proj1 Hled), Hdb1.
  destruct (reachesBan config _).
  - apply delete_insert_eq.
  - unfold updateRow. rewrite lookup_insert_eq. apply insert_insert_eq.
Qed.

(** X14: what a rejected upload costs. When the store executes the
    statements, a rejection leaves the ledger as it was except for the row
    of the uploading identity: the row is deleted when the rejection
    reaches the ban, and otherwise holds one more strike, or 0 strikes and
    one more timeout when the strikes reach the threshold, with dailyUpload
    and dailyAirtime as they were; a lastUpload that was NULL is written
    back as the zero time. *)
Theorem rejected_upload_is_struck key filePath w fp :
  healthy w ->
  isRejection (result (processUpload key filePath) w) = true ->
  fingerprintSSHKey key = Some fp ->
  db (run (processUpload key filePath) w) =
    (let r := ledgerRow (db w) fp in
     let struckOnce := GoInt.incr (strikes r) in
     let timedOutOnce := GoInt.incr (timeouts r) in
     let lastUpload := Some (default zeroTime (last_upload r)) in
     if struckOnce >=? StrikesBeforeTimeOut config then
       if timedOutOnce >=? TimeOutsBeforeBan config then delete fp (db w)
       else <[fp := mkRow 0 timedOutOnce (daily_upload r) (daily_airtime r) lastUpload]>
              (db w)
     else <[fp := mkRow struckOnce (timeouts r) (daily_upload r) (daily_airtime r)
                    lastUpload]> (db w)).
Proof.
  intros Hw Hrej Hfp.
  destruct (rejected_ledger key filePath w fp Hw Hrej Hfp) as [_ ->].
  cbv zeta. unfold reachesBan, escalated, reachesTimeout.
  cbn [struck timedOut set_Strikes set_Timeouts Strikes Timeouts DailyUpload DailyAirtime
         LastUpload userDataOfRow rowOfUserData].
  assert (Hlast : forall r : Row,
            match last_upload r with Some t0 => t0 | None => zeroTime end
            = default zeroTime (last_upload r)) by (intros r; by destruct (last_upload r)).
  destruct (GoInt.incr (strikes (ledgerRow (db w) fp)) >=? StrikesBeforeTimeOut config);
    cbn [andb].
  - destruct (GoInt.incr (timeouts (ledgerRow (db w) fp)) >=? TimeOutsBeforeBan config);
      [done |].
    unfold rowOfUserData, timedOut, struck, userDataOfRow. cbn. by rewrite Hlast.
  - unfold rowOfUserData, struck, userDataOfRow. cbn. by rewrite Hlast.
Qed.

(** X15: a ban forgets the identity. When the store executes the
    statements and a rejection reaches the ban, the next load of the
    identity's row finds none, creates the default row and returns a record
    with no strikes, no timeouts and nothing uploaded: the next upload of
    that key is evaluated like the first upload of a new identity. *)
Theorem ban_forgets_the_identity key filePath w fp :
  healthy w ->
  isRejection (result (processUpload key filePath) w) = true ->
  fingerprintSSHKey key = Some fp ->
  reachesBan config (userDataOfRow (ledgerRow (db w) fp)) = true ->
  result (getUserData fp) (run (processUpload key filePath) w) = Some zeroUserData /\
  db (run (getUserData fp) (run (processUpload key filePath) w)) !! fp = Some defaultRow.
Proof.
  intros Hw Hrej Hfp Hban.
  destruct (rejected_ledger key filePath w fp Hw Hrej Hfp) as [Hh' Hdb'].
  rewrite Hban in Hdb'.
  remember (run (processUpload key filePath) w) as w' eqn:Hw'. clear Hw'.
  destruct (getUserData_healthy fp w' Hh') as [_ [u Hu]].
  destruct (loaded fp w' u Hu) as [Hueq Hdb].
  assert (Hrow : ledgerRow (db w') fp = defaultRow).
  { unfold ledgerRow. by rewrite Hdb', lookup_delete_eq. }
  rewrite Hrow in Hueq, Hdb. split.
  - by rewrite Hu, Hueq.
  - by rewrite Hdb, lookup_insert_eq.
Qed.

(** X16: strikes and timeouts lock nobody out. The decision of
    [processUpload] looks at the dailyUpload and dailyAirtime of the row
    only: with any other strikes, timeouts and lastUpload in the identity's
    row, the same candidate gets the same outcome. A timed-out identity's
    uploads are evaluated like anybody's. *)
Theorem decision_ignores_strikes_and_timeouts key filePath w fp r s t l :
  fingerprintSSHKey key = Some fp ->
  db w !! fp = Some r ->
  result (processUpload key filePath)
    (set_db (<[fp := mkRow s t (daily_upload r) (daily_airtime r) l]> (db w)) w)
    = result (processUpload key filePath) w.
Proof.
  intros Hfp Hr.
  rewrite !(processUpload_result config formatRFC3339 fingerprintSSHKey).
  unfold firstFailingCheck. rewrite Hfp.
  rewrite (getUserData_result_row fp r w Hr).
  rewrite (getUserData_result_row fp (mkRow s t (daily_upload r) (daily_airtime r) l)
             (set_db _ w)) by apply lookup_insert_eq.
  change (dbFaults (set_db _ w)) with (dbFaults w).
  change (fs (set_db _ w)) with (fs w).
  destruct (dbFaults w) as [| [] rest]; reflexivity.
Qed.

End WithConfig.

Lemma rejected_upload_is_struck_witness :
  db (run (Uploader.processUpload Scenario.config Scenario.formatTime
             Scenario.fingerprintOf "/keys/alice" "/in/tool.exe")
        (Scenario.withLedger [("SHA256:alice", mkRow 2 0 60 7 (Some 12))] Scenario.fresh))
    = <[ "SHA256:alice" := mkRow 0 1 60 7 (Some 12) ]>
        (db (Scenario.withLedger [("SHA256:alice", mkRow 2 0 60 7 (Some 12))]
               Scenario.fresh)).
Proof.
  apply (rejected_upload_is_struck Scenario.config Scenario.formatTime
           Scenario.fingerprintOf "/keys/alice" "/in/tool.exe"
           (Scenario.withLedger [("SHA256:alice", mkRow 2 0 60 7 (Some 12))] Scenario.fresh)
           "SHA256:alice").
  - reflexivity.
  - vm_compute. reflexivity.
  - reflexivity.
Defined.

Lemma ban_forgets_the_identity_witness :
  result (getUserData "SHA256:alice")
    (run (Uploader.processUpload Scenario.config Scenario.formatTime
            Scenario.fingerprintOf "/keys/alice" "/in/tool.exe")
       (Scenario.withLedger [("SHA256:alice", mkRow 2 1 60 7 None)] Scenario.fresh))
    = Some zeroUserData.
Proof.
  refine (proj1 (ban_forgets_the_identity Scenario.config Scenario.formatTime
            Scenario.fingerprintOf "/keys/alice" "/in/tool.exe"
            (Scenario.withLedger [("SHA256:alice", mkRow 2 1 60 7 None)] Scenario.fresh)
            "SHA256:alice" _ _ _ _)).
  - reflexivity.
  - vm_compute. reflexivity.
  - reflexivity.
  - vm_compute. reflexivity.
Defined.

(** An identity with two strikes and a timeout has its upload accepted
    like one with a clean row. *)
Lemma decision_ignores_strikes_and_timeouts_witness :
  result (Uploader.processUpload Scenario.config Scenario.formatTime
            Scenario.fingerprintOf "/keys/alice" "/in/song.mp3")
    (set_db (<[ "SHA256:alice" := mkRow 2 1 0 0 None ]>
               (db (Scenario.withLedger [("SHA256:alice", defaultRow)] Scenario.fresh)))
       (Scenario.withLedger [("SHA256:alice", defaultRow)] Scenario.fresh))
    = result (Uploader.processUpload Scenario.config Scenario.formatTime
                Scenario.fingerprintOf "/keys/alice" "/in/song.mp3")
        (Scenario.withLedger [("SHA256:alice", defaultRow)] Scenario.fresh).
Proof.
  apply (decision_ignores_strikes_and_timeouts Scenario.config Scenario.formatTime
           Scenario.fingerprintOf "/keys/alice" "/in/song.mp3"
           (Scenario.withLedger [("SHA256:alice", defaultRow)] Scenario.fresh)
           "SHA256:alice" defaultRow 2 1 None).
  - reflexivity.
  - vm_compute. reflexivity.
Defined.

End Penalty.

(* ===================================================================== *)
(** ** More of uploader.go: whose row an evaluation touches               *)
(* ===================================================================== *)

Module Isolation.
Import Os MFacts Footprint Uploader Ledger Evaluation.
Local Open Scope list_scope.

(** Only the row of [user] may change. *)
Definition onlyRow (user : string) (w w' : World) : Prop :=
  forall other, other <> user -> db w' !! other = db w !! other.

#[export] Instance onlyRow_preorder user : PreOrder (onlyRow user).
Proof.
  split.
  - by intros w other _.
  - intros w1 w2 w3 H12 H23 other Hne. rewrite (H23 other Hne). by apply H12.
Qed.

Lemma onlyRow_sameLedger user w w' : sameLedger w w' -> onlyRow user w w'.
Proof. intros [H _] other _. by rewrite H. Qed.

Lemma onlyRow_getUserData user : preserves (onlyRow user) (getUserData user).
Proof.
  intros w other Hne. pose proof (getUserData_spec user w) as H.
  destruct (result (getUserData user) w).
  - destruct H as [_ ->]. by rewrite lookup_insert_ne.
  - by rewrite H.
Qed.

Lemma onlyRow_updateUserData user u : preserves (onlyRow user) (updateUserData user u).
Proof.
  intros w other Hne. destruct (updateUserData_db user u w) as [-> | ->]; [done |].
  unfold updateRow. destruct (db w !! user); [| done]. by rewrite lookup_insert_ne.
Qed.

Section WithConfig.
Variable config : Config.
Variable formatRFC3339 : Time -> string.
Variable fingerprintSSHKey : string -> option string.

Abbreviation logAction := (logAction config formatRFC3339).
Abbreviation banUser := (banUser config formatRFC3339).
Abbreviation timeOutUser := (timeOutUser config formatRFC3339).
Abbreviation reject := (reject config formatRFC3339).
Abbreviation processUpload := (processUpload config formatRFC3339 fingerprintSSHKey).

Lemma onlyRow_logAction user fp action : preserves (onlyRow user) (logAction fp action).
Proof.
  intros w. apply onlyRow_sameLedger.
  apply (UploaderFootprint.sameLedger_logAction config formatRFC3339).
Qed.

Lemma onlyRow_banUser user : preserves (onlyRow user) (banUser user).
Proof.
  intros w other Hne.
  destruct (banUser_db config formatRFC3339 user w) as [-> | ->]; [done |].
  by rewrite lookup_delete_ne.
Qed.

Lemma onlyRow_timeOutUser user u : preserves (onlyRow user) (timeOutUser user u).
Proof.
  intros w. unfold Uploader.timeOutUser.
  destruct (_ >=? _).
  - rewrite run_bind, run_ret. apply onlyRow_banUser.
  - rewrite run_bind, run_bind, run_ret.
    etransitivity; [apply onlyRow_logAction | apply onlyRow_updateUserData].
Qed.

Lemma onlyRow_reject user u message : preserves (onlyRow user) (reject user u message).
Proof.
  intros w. unfold Uploader.reject. rewrite !run_bind, run_ret.
  etransitivity; [apply onlyRow_logAction |].
  destruct (_ >=? _).
  - rewrite timeOutUser_result.
    etransitivity; [apply onlyRow_timeOutUser | apply onlyRow_updateUserData].
  - rewrite result_ret, run_ret. apply onlyRow_updateUserData.
Qed.

(** X17: an evaluation touches one row. Whatever the outcome and
    whichever statements the store fails, a call of [processUpload] leaves
    the row of every identity other than the fingerprint of the presented
    key as it was: not created, not changed, not deleted. *)
Theorem evaluation_touches_one_row key filePath w other :
  fingerprintSSHKey key <> Some other ->
  db (run (processUpload key filePath) w) !! other = db w !! other.
Proof.
  intros Hother.
  pose proof (processUpload_evaluation config formatRFC3339 fingerprintSSHKey
                key filePath w) as Hev.
  remember (result (processUpload key filePath) w) as o eqn:Ho. clear Ho.
  remember (run (processUpload key filePath) w) as w' eqn:Hw'. clear Hw'.
  assert (Hprintf : forall user msg w0, onlyRow user w0 (emit (ELogPrintf msg) w0))
    by (intros user msg w0 p _; reflexivity).
  inversion Hev as
    [ Hfp
    | fp w1 Hfp Hu Hw1
    | fp u w1 Hfp Hu Hw1 Hty
    | fp u w1 w2 Hfp Hu Hw1 Hty Hsz Hw2
    | fp u w1 fileSize w2 Hfp Hu Hw1 Hty Hsz Hw2 Hsx
    | fp u w1 fileSize w2 w3 Hfp Hu Hw1 Hty Hsz Hw2 Hsx Hdur Hw3
    | fp u w1 fileSize w2 duration w3 Hfp Hu Hw1 Hty Hsz Hw2 Hsx Hdur Hw3 Hax
    | fp u w1 fileSize w2 duration w3 w4 Hfp Hu Hw1 Hty Hsz Hw2 Hsx Hdur Hw3 Hax Hmv Hw4
    | fp u w1 fileSize w2 duration w3 w4 Hfp Hu Hw1 Hty Hsz Hw2 Hsx Hdur Hw3 Hax Hmv Hw4 ];
    [ reflexivity | .. ];
    (assert (Hne : other <> fp) by congruence);
    (assert (H1 : onlyRow fp w w1) by (subst w1; apply onlyRow_getUserData));
    try (assert (H2 : onlyRow fp w1 w2)
           by (subst w2; apply onlyRow_sameLedger,
                 UploaderFootprint.sameLedger_calculateFileSize));
    try (assert (H3 : onlyRow fp w2 w3)
           by (subst w3; apply onlyRow_sameLedger,
                 UploaderFootprint.sameLedger_calculateAudioDuration));
    try (assert (H4 : onlyRow fp w3 w4)
           by (subst w4; apply onlyRow_sameLedger;
               transitivity (run timeNow w3);
               [apply sameLedger_timeNow | apply sameLedger_rename]));
    match goal with
    | |- db ?x !! _ = _ => apply (fun H : onlyRow fp w x => H other Hne)
    end.
  - etransitivity; [exact H1 | apply Hprintf].
  - etransitivity; [exact H1 | apply onlyRow_reject].
  - etransitivity; [exact H1 |]. etransitivity; [exact H2 | apply Hprintf].
  - etransitivity; [exact H1 |]. etransitivity; [exact H2 | apply onlyRow_reject].
  - etransitivity; [exact H1 |]. etransitivity; [exact H2 |].
    etransitivity; [exact H3 | apply Hprintf].
  - etransitivity; [exact H1 |]. etransitivity; [exact H2 |].
    etransitivity; [exact H3 | apply onlyRow_reject].
  - etransitivity; [exact H1 |]. etransitivity; [exact H2 |].
    etransitivity; [exact H3 |]. etransitivity; [exact H4 | apply Hprintf].
  - etransitivity; [exact H1 |]. etransitivity; [exact H2 |].
    etransitivity; [exact H3 |]. etransitivity; [exact H4 |].
    etransitivity; [apply onlyRow_logAction | apply onlyRow_updateUserData].
Qed.

End WithConfig.

(** Alice's third strike leaves Bob's row alone. *)
Lemma evaluation_touches_one_row_witness :
  db (run (Uploader.processUpload Scenario.config Scenario.formatTime
             Scenario.fingerprintOf "/keys/alice" "/in/tool.exe")
        (Scenario.withLedger [("SHA256:alice", mkRow 2 1 0 0 None);
                              ("SHA256:bob", mkRow 1 0 5 0 None)] Scenario.fresh))
    !! "SHA256:bob"
  = db (Scenario.withLedger [("SHA256:alice", mkRow 2 1 0 0 None);
                             ("SHA256:bob", mkRow 1 0 5 0 None)] Scenario.fresh)
      !! "SHA256:bob".
Proof.
  apply (evaluation_touches_one_row Scenario.config Scenario.formatTime
           Scenario.fingerprintOf "/keys/alice" "/in/tool.exe").
  vm_compute. discriminate.
Defined.

End Isolation.

(* ===================================================================== *)
(** ** More of uploader.go: the audit entries of an evaluation            *)
(* ===================================================================== *)

Module AuditTrail.
Import Os MFacts Footprint Uploader Ledger Evaluation Handoff.
Local Open Scope list_scope.

Definition isAuditWrite (e : Event) : bool :=
  match e with
  | EWriteFile _ _ => true
  | _ => false
  end.

(** The calls of [ioutil.WriteFile], in the order made. *)
Definition auditWrites (evs : list Event) : list Event := List.filter isAuditWrite evs.

(** From [w] to [w'] the files written are exactly [l], and the clock has
    been read [n] times. *)
Definition audited (l : list Event) (n : Z) (w w' : World) : Prop :=
  extends w w' /\ auditWrites (since w w') = l /\ now w' = now w + n.

Lemma audited_trans l1 n1 l2 n2 w1 w2 w3 :
  audited l1 n1 w1 w2 -> audited l2 n2 w2 w3 -> audited (l1 ++ l2) (n1 + n2) w1 w3.
Proof.
  intros (E12 & A12 & N12) (E23 & A23 & N23).
  destruct (extends_trans _ _ _ E12 E23) as [E13 S13].
  split_and!; [done | | lia].
  unfold auditWrites in *. by rewrite S13, List.filter_app, A12, A23.
Qed.

Definition noWrite (k : Kind) : bool :=
  match k with
  | KWriteFile => false
  | _ => true
  end.

Lemma audited_quiet n w w' : calls noWrite w w' -> now w' = now w + n -> audited [] n w w'.
Proof.
  intros [E F] Hn. split_and!; [done | | done]. clear E Hn.
  unfold auditWrites. induction F as [| e evs He _ IH]; [done |]. cbn.
  destruct e; cbn in He; try discriminate; exact IH.
Qed.

Lemma audited_refl w : audited [] 0 w w.
Proof. apply audited_quiet; [apply emits_refl | lia]. Qed.

Lemma audited_printf msg w : audited [] 0 w (emit (ELogPrintf msg) w).
Proof. apply audited_quiet; [by apply emits_emit | cbn; lia]. Qed.

Lemma audited_timeNow w : audited [] 1 w (run timeNow w).
Proof. apply audited_quiet; [apply calls_timeNow | reflexivity]. Qed.

Lemma audited_writeFile filename data mode w :
  audited [EWriteFile filename data] 0 w (run (writeFile filename data mode) w).
Proof.
  assert (H : trace (run (writeFile filename data mode) w)
              = trace w ++ [EWriteFile filename data]).
  { unfold writeFile, run, mbind, M_bind, event, modify, state. simpl.
    repeat case_match; simplify_eq; done. }
  split_and!.
  - by apply (extends_intro _ _ _ H).
  - by rewrite (since_app _ _ _ H).
  - rewrite (sameClock_writeFile filename data mode w). lia.
Qed.

Lemma audited_dbExec e f w :
  noWrite (kind e) = true -> audited [] 0 w (run (dbExec e f) w).
Proof.
  intros He. apply audited_quiet; [by apply calls_dbExec |].
  rewrite (sameClock_dbExec e f w). lia.
Qed.

Section WithConfig.
Variable config : Config.
Variable formatRFC3339 : Time -> string.
Variable fingerprintSSHKey : string -> option string.

Abbreviation logAction := (logAction config formatRFC3339).
Abbreviation banUser := (banUser config formatRFC3339).
Abbreviation timeOutUser := (timeOutUser config formatRFC3339).
Abbreviation reject := (reject config formatRFC3339).
Abbreviation processUpload := (processUpload config formatRFC3339 fingerprintSSHKey).

(** The write [logAction] makes for an action at a reading [t] of the
    clock. *)
Definition entryWrite (t : Time) (user action : string) : Event :=
  EWriteFile (accessLogFile config) (auditEntry formatRFC3339 t user action).

Lemma audited_logAction t user action w :
  now w = t ->
  audited [entryWrite t user action] 1 w (run (logAction user action) w).
Proof.
  intros <-. unfold Uploader.logAction. rewrite run_bind.
  change (result timeNow w) with (now w). rewrite run_bind.
  apply (audited_trans [] 1 [_] 0 _ _ _ (audited_timeNow w)).
  apply (audited_trans [_] 0 [] 0 _ _ _
           (audited_writeFile (accessLogFile config)
              (auditEntry formatRFC3339 (now w) user action) ModeAppend (run timeNow w))).
  destruct (result _ _); [apply audited_refl | apply audited_printf].
Qed.

Lemma audited_banUser t user w :
  now w = t ->
  audited [entryWrite t user "User banned"] 1 w (run (banUser user) w).
Proof.
  intros <-. unfold Uploader.banUser. rewrite !run_bind.
  set (w1 := run (dbExec _ _) w).
  assert (H1 : audited [] 0 w w1) by (by apply audited_dbExec).
  match goal with
  | |- audited _ _ _ (run _ ?x) => set (w2 := x)
  end.
  assert (H2 : audited [] 0 w1 w2).
  { unfold w2. destruct (result _ w); [apply audited_refl | apply audited_printf]. }
  apply (audited_trans [] 0 [_] 1 _ _ _ (audited_trans [] 0 [] 0 _ _ _ H1 H2)).
  apply audited_logAction.
  destruct H1 as (_ & _ & Hn1). destruct H2 as (_ & _ & Hn2). lia.
Qed.

Lemma audited_timeOutUser t user u w :
  now w = t ->
  audited [entryWrite t user
             (if Timeouts (timedOut u) >=? TimeOutsBeforeBan config
              then "User banned" else "User timed out")] 1
    w (run (timeOutUser user u) w).
Proof.
  intros Ht. unfold Uploader.timeOutUser. fold (timedOut u).
  destruct (Timeouts (timedOut u) >=? TimeOutsBeforeBan config).
  - rewrite run_bind, run_ret. by apply audited_banUser.
  - rewrite run_bind, run_bind, run_ret.
    apply (audited_trans [_] 1 [] 0 _ _ _ (audited_logAction t user _ w Ht)).
    by apply audited_dbExec.
Qed.

(** The entries of a rejection: the decision, and the timeout or the ban
    when the strikes reach the threshold. *)
Definition rejectionEntries (t : Time) (user : string) (u : UserData) (message : string)
    : list Event :=
  entryWrite t user message ::
  (if reachesTimeout config u
   then [entryWrite (t + 1) user
           (if reachesBan config u then "User banned" else "User timed out")]
   else []).

Lemma audited_reject t user u message w :
  now w = t ->
  exists n, audited (rejectionEntries t user u message) n w (run (reject user u message) w).
Proof.
  intros Ht. unfold Uploader.reject. fold (struck u). rewrite !run_bind, run_ret.
  pose proof (audited_logAction t user message w Ht) as H1.
  set (w1 := run (logAction user message) w) in *.
  unfold rejectionEntries, reachesBan, reachesTimeout.
  destruct (Strikes (struck u) >=? StrikesBeforeTimeOut config); cbn [andb].
  - rewrite timeOutUser_result. exists (1 + (1 + 0)).
    apply (audited_trans [_] 1 [_] (1 + 0) _ _ _ H1).
    assert (Hn1 : now w1 = t + 1) by (destruct H1 as (_ & _ & Hn); lia).
    apply (audited_trans [_] 1 [] 0 _ _ _ (audited_timeOutUser _ user (struck u) w1 Hn1)).
    by apply audited_dbExec.
  - rewrite result_ret, run_ret. exists (1 + 0).
    apply (audited_trans [_] 1 [] 0 _ _ _ H1). by apply audited_dbExec.
Qed.

Definition rejectionMessage (o : Outcome) : string :=
  match o with
  | RejectedUnsupportedType => "Attempted to upload unsupported file type"
  | RejectedSizeQuota => "Exceeded daily upload size limit"
  | _ => "Exceeded daily airtime limit"
  end.

(** The files an evaluation writes, by its outcome, for an identity whose
    record is [u] when the evaluation starts at a reading [t] of the
    clock. *)
Definition auditTrail (o : Outcome) (user : string) (u : UserData) (t : Time)
    : list Event :=
  match o with
  | RejectedUnsupportedType | RejectedSizeQuota | RejectedAirtimeQuota =>
      rejectionEntries t user u (rejectionMessage o)
  | Accepted => [entryWrite (t + 1) user "File uploaded successfully"]
  | _ => []
  end.

Lemma audited_writes l n w w' : audited l n w w' -> auditWrites (since w w') = l.
Proof. by intros (_ & H & _). Qed.

(** X18: the audit entries of an evaluation. A call of [processUpload]
    writes the access log once for a decision: the rejection message, or
    [File uploaded successfully] after the move; a rejection that makes the
    strikes reach the threshold writes it a second time, with [User banned]
    when the timeouts reach theirs and [User timed out] otherwise. An
    evaluation that is dropped (no fingerprint, ledger error, size or
    duration error, failed move) writes no entry. Each entry carries its own
    reading of the clock and the fingerprint. *)
Theorem audit_entries_of_an_evaluation key filePath w :
  auditWrites (since w (run (processUpload key filePath) w)) =
    match fingerprintSSHKey key with
    | None => []
    | Some fp =>
        auditTrail (result (processUpload key filePath) w) fp
          (userDataOfRow (ledgerRow (db w) fp)) (now w)
    end.
Proof.
  pose proof (processUpload_evaluation config formatRFC3339 fingerprintSSHKey
                key filePath w) as Hev.
  remember (result (processUpload key filePath) w) as o eqn:Ho. clear Ho.
  remember (run (processUpload key filePath) w) as w' eqn:Hw'. clear Hw'.
  inversion Hev as
    [ Hfp
    | fp w1 Hfp Hu Hw1
    | fp u w1 Hfp Hu Hw1 Hty
    | fp u w1 w2 Hfp Hu Hw1 Hty Hsz Hw2
    | fp u w1 fileSize w2 Hfp Hu Hw1 Hty Hsz Hw2 Hsx
    | fp u w1 fileSize w2 w3 Hfp Hu Hw1 Hty Hsz Hw2 Hsx Hdur Hw3
    | fp u w1 fileSize w2 duration w3 Hfp Hu Hw1 Hty Hsz Hw2 Hsx Hdur Hw3 Hax
    | fp u w1 fileSize w2 duration w3 w4 Hfp Hu Hw1 Hty Hsz Hw2 Hsx Hdur Hw3 Hax Hmv Hw4
    | fp u w1 fileSize w2 duration w3 w4 Hfp Hu Hw1 Hty Hsz Hw2 Hsx Hdur Hw3 Hax Hmv Hw4 ];
    rewrite Hfp; cbn [auditTrail rejectionMessage];
    try (assert (H1 : audited [] 0 w w1)
           by (subst w1; apply audited_quiet;
               [by apply UploaderFootprint.calls_getUserData
               | rewrite getUserData_now; lia]));
    try (destruct (loaded fp w u Hu) as [<- _]);
    try (assert (H2 : audited [] 0 w1 w2)
           by (subst w2; apply audited_quiet;
               [by apply UploaderFootprint.calls_calculateFileSize
               | rewrite calculateFileSize_now; lia]));
    try (assert (H3 : audited [] 0 w2 w3)
           by (subst w3; apply audited_quiet;
               [by apply UploaderFootprint.calls_calculateAudioDuration
               | rewrite calculateAudioDuration_now; lia]));
    try (assert (H4 : audited [] 1 w3 w4)
           by (subst w4; apply audited_quiet;
               [ transitivity (run timeNow w3); [apply calls_timeNow | by apply calls_rename]
               | by rewrite (sameClock_rename _ _ (run timeNow w3)) ])).
  - apply (audited_writes _ 0), audited_printf.
  - apply (audited_writes _ (0 + 0)).
    apply (audited_trans [] 0 [] 0 _ _ _ H1), audited_printf.
  - assert (Hn : now w1 = now w) by (destruct H1 as (_ & _ & Hn0); lia).
    destruct (audited_reject (now w) fp u
                "Attempted to upload unsupported file type" w1 Hn) as [n Hrej].
    apply (audited_writes _ (0 + n)). exact (audited_trans [] 0 _ n _ _ _ H1 Hrej).
  - apply (audited_writes _ (0 + (0 + 0))).
    apply (audited_trans [] 0 [] (0 + 0) _ _ _ H1).
    apply (audited_trans [] 0 [] 0 _ _ _ H2), audited_printf.
  - pose proof (audited_trans [] 0 [] 0 _ _ _ H1 H2) as H12.
    assert (Hn : now w2 = now w) by (destruct H12 as (_ & _ & Hn0); lia).
    destruct (audited_reject (now w) fp u "Exceeded daily upload size limit" w2 Hn)
      as [n Hrej].
    apply (audited_writes _ (0 + 0 + n)). exact (audited_trans [] _ _ n _ _ _ H12 Hrej).
  - pose proof (audited_trans [] 0 [] 0 _ _ _ H1 H2) as H12.
    pose proof (audited_trans [] _ [] 0 _ _ _ H12 H3) as H13.
    apply (audited_writes _ (0 + 0 + 0 + 0)).
    apply (audited_trans [] _ [] 0 _ _ _ H13), audited_printf.
  - pose proof (audited_trans [] 0 [] 0 _ _ _ H1 H2) as H12.
    pose proof (audited_trans [] _ [] 0 _ _ _ H12 H3) as H13.
    assert (Hn : now w3 = now w) by (destruct H13 as (_ & _ & Hn0); lia).
    destruct (audited_reject (now w) fp u "Exceeded daily airtime limit" w3 Hn)
      as [n Hrej].
    apply (audited_writes _ (0 + 0 + 0 + n)).
    exact (audited_trans [] _ _ n _ _ _ H13 Hrej).
  - pose proof (audited_trans [] 0 [] 0 _ _ _ H1 H2) as H12.
    pose proof (audited_trans [] _ [] 0 _ _ _ H12 H3) as H13.
    pose proof (audited_trans [] _ [] 1 _ _ _ H13 H4) as H14.
    apply (audited_writes _ (0 + 0 + 0 + 1 + 0)).
    apply (audited_trans [] _ [] 0 _ _ _ H14), audited_printf.
  - pose proof (audited_trans [] 0 [] 0 _ _ _ H1 H2) as H12.
    pose proof (audited_trans [] _ [] 0 _ _ _ H12 H3) as H13.
    pose proof (audited_trans [] _ [] 1 _ _ _ H13 H4) as H14.
    assert (Hn : now w4 = now w + 1) by (destruct H14 as (_ & _ & Hn0); lia).
    apply (audited_writes _ (0 + 0 + 0 + 1 + (1 + 0))).
    apply (audited_trans [] _ [_] (1 + 0) _ _ _ H14).
    apply (audited_trans [_] 1 [] 0 _ _ _
             (audited_logAction _ fp "File uploaded successfully" w4 Hn)).
    by apply audited_dbExec.
Qed.

End WithConfig.

End AuditTrail.

(* ===================================================================== *)
(** ** More of uploader.go: the two loops that feed [processUpload]       *)
(* ===================================================================== *)

Module Loops.
Import Os MFacts Footprint Uploader Ledger Evaluation.
Local Open Scope list_scope.

Section WithConfig.
Variable config : Config.
Variable formatRFC3339 : Time -> string.
Variable fingerprintSSHKey : string -> option string.

Abbreviation processUpload := (processUpload config formatRFC3339 fingerprintSSHKey).
Abbreviation handleLogLine := (handleLogLine config formatRFC3339 fingerprintSSHKey).
Abbreviation scanLines := (scanLines config formatRFC3339 fingerprintSSHKey).
Abbreviation monitorSSHLogs := (monitorSSHLogs config formatRFC3339 fingerprintSSHKey).
Abbreviation handleStdinLine := (handleStdinLine config formatRFC3339 fingerprintSSHKey).
Abbreviation mainLoop := (mainLoop config formatRFC3339 fingerprintSSHKey).

(** A row as the uploader leaves it: strikes below the threshold, quotas
    within the ceilings. *)
Definition wellFormed (r : Row) : Prop :=
  0 <= strikes r < StrikesBeforeTimeOut config /\
  daily_upload r <= MaxUserUploadSize config /\
  daily_airtime r <= MaxUserAirtime config.

Definition ledgerWellFormed (w : World) : Prop :=
  map_Forall (fun _ => wellFormed) (db w).

Section Thresholds.
Hypothesis strikeThreshold : 1 <= StrikesBeforeTimeOut config.
Hypothesis strikeThreshold_int : GoInt.in_range (StrikesBeforeTimeOut config).
Hypothesis uploadCeiling : 0 <= MaxUserUploadSize config.
Hypothesis airtimeCeiling : 0 <= MaxUserAirtime config.

Lemma processUpload_wellFormed key filePath w :
  ledgerWellFormed w -> ledgerWellFormed (run (processUpload key filePath) w).
Proof.
  apply (Quota.processUpload_invariant_checked config formatRFC3339 fingerprintSSHKey
           (fun _ => wellFormed)).
  - intros _ _. unfold wellFormed. cbn. lia.
  - intros _ r (Hs & Hu & Ha).
    destruct (Quota.escalated_keeps_quota config (userDataOfRow r)) as [E1 E2].
    unfold wellFormed. cbn [strikes daily_upload daily_airtime rowOfUserData].
    rewrite E1, E2. split; [| done].
    by apply Escalation.escalated_strikes.
  - intros _ r fileSize t (Hs & _ & _) Hsx Hax.
    unfold sizeExceeded in Hsx. unfold airtimeExceeded in Hax.
    rewrite Z.gtb_ltb in Hsx, Hax. apply Z.ltb_ge in Hsx, Hax.
    by split.
Qed.

Lemma handleLogLine_wellFormed line w :
  ledgerWellFormed w -> ledgerWellFormed (run (handleLogLine line) w).
Proof.
  intros Hw. unfold Uploader.handleLogLine.
  destruct (_ && _); [| done].
  destruct (parseSSHLogLine line) as [[fingerprint filePath] |]; [| done].
  rewrite run_bind, run_ret. by apply processUpload_wellFormed.
Qed.

Lemma handleStdinLine_wellFormed line w :
  ledgerWellFormed w -> ledgerWellFormed (run (handleStdinLine line) w).
Proof.
  intros Hw. unfold Uploader.handleStdinLine.
  destruct (GoStrings.SplitN2 line " ") as [| sshKeyPath [| filePath [| ? ?]]]; try done.
  rewrite run_bind, run_ret. by apply processUpload_wellFormed.
Qed.

Lemma scanLines_wellFormed reads w :
  ledgerWellFormed w -> ledgerWellFormed (run (scanLines reads) w).
Proof.
  revert w. induction reads as [| [line | |] rest IH]; intros w Hw; try done.
  cbn [Uploader.scanLines]. rewrite run_bind. by apply IH, handleLogLine_wellFormed.
Qed.

Lemma mainLoop_wellFormed reads w :
  ledgerWellFormed w -> ledgerWellFormed (run (mainLoop reads) w).
Proof.
  revert w. induction reads as [| [line | |] rest IH]; intros w Hw; try done.
  cbn [Uploader.mainLoop]. rewrite run_bind. by apply IH, handleStdinLine_wellFormed.
Qed.

End Thresholds.

(** X19: the loops keep the ledger well formed. With a strike threshold of
    at least 1 and ceilings that are not negative, if every row has its
    strikes in [0, strikeThreshold) and its dailyUpload and dailyAirtime at
    most their ceilings (as in the empty table), then so has every row
    after [monitorSSHLogs] has run over a log, whatever its lines, and after
    the loop of [main] has run over standard input, whatever is typed and
    whichever statements the store fails. Each loop is taken on its own,
    one evaluation after the other. *)
Theorem loops_keep_the_ledger_well_formed logFile input w :
  1 <= StrikesBeforeTimeOut config ->
  GoInt.in_range (StrikesBeforeTimeOut config) ->
  0 <= MaxUserUploadSize config ->
  0 <= MaxUserAirtime config ->
  ledgerWellFormed w ->
  ledgerWellFormed (run (monitorSSHLogs logFile) w) /\
  ledgerWellFormed (run (mainLoop input) w).
Proof.
  intros H1 H2 H3 H4 Hw. split.
  - unfold Uploader.monitorSSHLogs. rewrite run_bind.
    change (run (openFeed logFile) w) with w.
    destruct (result (openFeed logFile) w) as [reads |]; [| done].
    rewrite run_bind, run_ret. by apply scanLines_wellFormed.
  - by apply mainLoop_wellFormed.
Qed.

End WithConfig.

(** Three lines on standard input: a third strike, a line without a space
    and an upload that is accepted. *)
Definition typed : list Read :=
  [ Line "/keys/alice /in/tool.exe"; Line "status"; Line "/keys/alice /in/song.mp3" ].

Definition twoStrikes : World :=
  Scenario.withLedger [("SHA256:alice", mkRow 2 0 60 0 None)] Scenario.fresh.

Lemma loops_keep_the_ledger_well_formed_witness :
  db (run (Uploader.mainLoop Scenario.config Scenario.formatTime Scenario.fingerprintOf
             typed) twoStrikes)
    !! "SHA256:alice" = Some (mkRow 0 1 100 0 (Some 1002)) /\
  ledgerWellFormed Scenario.config
    (run (Uploader.mainLoop Scenario.config Scenario.formatTime Scenario.fingerprintOf
            typed) twoStrikes).
Proof.
  split; [vm_compute; reflexivity |].
  refine (proj2 (loops_keep_the_ledger_well_formed Scenario.config Scenario.formatTime
                   Scenario.fingerprintOf "/var/log/auth.log" typed twoStrikes _ _ _ _ _)).
  - vm_compute. discriminate.
  - vm_compute. split; discriminate.
  - vm_compute. discriminate.
  - vm_compute. discriminate.
  - intros user r Hr.
    destruct (decide (user = "SHA256:alice")) as [-> | Hne].
    + vm_compute in Hr. injection Hr as <-. unfold wellFormed. cbn. lia.
    + unfold twoStrikes, Scenario.withLedger in Hr. cbn [db set_db list_to_map foldr] in Hr.
      rewrite lookup_insert_ne in Hr by done. by rewrite lookup_empty in Hr.
Defined.

End Loops.
